(** * WSA retention analysis: the record-matching core

    A shallow embedding of [src/data_processor.py] (class [DataProcessor])
    and [src/matching_analyzer.py] (class [MatchingAnalyzer]), with the
    rollups of [src/retention_analyzer.py] and the status classes of
    [src/graduation_analyzer.py] that are computed from the frames the
    matcher returns.

    Python [str] values are modelled as [string]; the character classes are
    the ASCII ones (code points above 127 are treated as neither word
    characters nor whitespace and are left alone by [lower]).  Pandas frames
    are lists of rows carrying their index label.  The similarity scores of
    the fuzzywuzzy package and the regular-expression search behind
    [Series.str.contains] are parameters of the development; floats are kept
    as exact fractions or left out. *)

From Stdlib Require Import ZArith Ascii String List Lia Bool.
From stdpp Require Import gmap strings list pretty.

Local Open Scope Z_scope.
Set Default Proof Using "Type".

(** ** Python string primitives *)

Module Str.

Definition chars (s : string) : list ascii := list_ascii_of_string s.
Definition str (l : list ascii) : string := string_of_list_ascii l.

Definition code (c : ascii) : N := N_of_ascii c.

Definition between (lo hi : N) (c : ascii) : bool :=
  (lo <=? code c)%N && (code c <=? hi)%N.

(** [str.isspace] on one character: tab, LF, VT, FF, CR, the four
    separators 0x1c..0x1f and the blank. *)
Definition is_space (c : ascii) : bool :=
  between 9 13 c || between 28 32 c.

Definition is_upper (c : ascii) : bool := between 65 90 c.

(** The class [\w]: letters, digits and the underscore. *)
Definition is_word (c : ascii) : bool :=
  between 97 122 c || between 65 90 c || between 48 57 c || (code c =? 95)%N.

Definition lower_char (c : ascii) : ascii :=
  if is_upper c then ascii_of_N (code c + 32) else c.

Definition eqc (a b : ascii) : bool := Ascii.eqb a b.

(** [s.lower()] *)
Definition lower_l (l : list ascii) : list ascii := List.map lower_char l.

(** [s.lstrip()], [s.rstrip()], [s.strip()] *)
Fixpoint lstrip_l (l : list ascii) : list ascii :=
  match l with
  | c :: t => if is_space c then lstrip_l t else l
  | [] => []
  end.

Fixpoint rstrip_l (l : list ascii) : list ascii :=
  match l with
  | [] => []
  | c :: t =>
      match rstrip_l t with
      | [] => if is_space c then [] else [c]
      | r => c :: r
      end
  end.

Definition strip_l (l : list ascii) : list ascii := rstrip_l (lstrip_l l).

(** [re.sub(r'\s+', ' ', s)]: every maximal run of whitespace becomes one
    blank.  [in_run] records that the previous character was whitespace. *)
Fixpoint collapse_from (in_run : bool) (l : list ascii) : list ascii :=
  match l with
  | [] => []
  | c :: t =>
      if is_space c
      then (if in_run then collapse_from true t
            else " "%char :: collapse_from true t)
      else c :: collapse_from false t
  end.

Definition collapse_ws_l (l : list ascii) : list ascii := collapse_from false l.

Fixpoint starts_with (p l : list ascii) : bool :=
  match p, l with
  | [], _ => true
  | a :: p', b :: l' => eqc a b && starts_with p' l'
  | _ :: _, [] => false
  end.

(** One alternative [t\.?] of the honorific pattern followed by [\b],
    tried at the head of [l]; the result is the number of characters the
    match consumes.  The optional period is greedy: it is taken when a
    word character follows it (so that [\b] holds after the period);
    otherwise the regex backtracks to the bare title, after which [\b]
    needs a non-word character or the end of the string. *)
Definition title_alt (t l : list ascii) : option nat :=
  if starts_with t l then
    match List.skipn (List.length t) l with
    | [] => Some (List.length t)
    | c :: r =>
        if eqc c "."%char then
          match r with
          | d :: _ => if is_word d then Some (S (List.length t))
                      else Some (List.length t)
          | [] => Some (List.length t)
          end
        else if is_word c then None else Some (List.length t)
    end
  else None.

(** The alternatives of [(mr\.?|mrs\.?|ms\.?|dr\.?)], in the order the
    regex engine tries them. *)
Definition titles : list (list ascii) :=
  [chars "mr"; chars "mrs"; chars "ms"; chars "dr"].

Fixpoint first_alt (ts : list (list ascii)) (l : list ascii) : option nat :=
  match ts with
  | [] => None
  | t :: ts' =>
      match title_alt t l with
      | Some n => Some n
      | None => first_alt ts' l
      end
  end.

(** [re.sub(r'\b(mr\.?|mrs\.?|ms\.?|dr\.?)\b', '', s)], scanning left to
    right.  [skip] counts the characters of the current match still to be
    dropped, [prev_word] tells whether the character before the cursor is
    a word character (false at the start of the string), which decides the
    leading [\b]. *)
Fixpoint sub_titles_from (skip : nat) (prev_word : bool) (l : list ascii)
  : list ascii :=
  match l with
  | [] => []
  | c :: t =>
      match skip with
      | S k => sub_titles_from k (is_word c) t
      | O =>
          if prev_word then c :: sub_titles_from O (is_word c) t
          else
            match first_alt titles l with
            | Some (S k) => sub_titles_from k (is_word c) t
            | _ => c :: sub_titles_from O (is_word c) t
            end
      end
  end.

Definition sub_titles_l (l : list ascii) : list ascii :=
  sub_titles_from O false l.

(** The characters [re.sub(r'[^\w\s\-]', '', s)] keeps. *)
Definition name_char (c : ascii) : bool :=
  is_word c || is_space c || eqc c "-"%char.

Definition sub_special_l (l : list ascii) : list ascii :=
  List.filter name_char l.

(** [c in s] *)
Definition contains (c : ascii) (l : list ascii) : bool :=
  List.existsb (eqc c) l.

(** [s.split(sep)] for a one-character separator: empty pieces are kept,
    the result is never empty.  [cur] is the piece being read, reversed. *)
Fixpoint split_on_from (sep : ascii) (cur l : list ascii)
  : list (list ascii) :=
  match l with
  | [] => [List.rev cur]
  | c :: t =>
      if eqc c sep then List.rev cur :: split_on_from sep [] t
      else split_on_from sep (c :: cur) t
  end.

Definition split_on_l (sep : ascii) (l : list ascii) : list (list ascii) :=
  split_on_from sep [] l.

(** The separators of [re.split(r'[,;\s]+', s)]. *)
Definition is_sep (c : ascii) : bool :=
  eqc c ","%char || eqc c ";"%char || is_space c.

(** [re.split(r'[,;\s]+', s)]: pieces between maximal separator runs; a
    leading or trailing run yields an empty piece. *)
Fixpoint re_split_from (in_run : bool) (cur l : list ascii)
  : list (list ascii) :=
  match l with
  | [] => [List.rev cur]
  | c :: t =>
      if is_sep c
      then (if in_run then re_split_from true cur t
            else List.rev cur :: re_split_from true [] t)
      else re_split_from false (c :: cur) t
  end.

Definition re_split_seps_l (l : list ascii) : list (list ascii) :=
  re_split_from false [] l.

(** [s.split()]: the maximal runs of non-whitespace characters. *)
Fixpoint split_ws_from (cur l : list ascii) : list (list ascii) :=
  match l with
  | [] => match cur with [] => [] | _ => [List.rev cur] end
  | c :: t =>
      if is_space c
      then match cur with
           | [] => split_ws_from [] t
           | _ => List.rev cur :: split_ws_from [] t
           end
      else split_ws_from (c :: cur) t
  end.

Definition split_ws_l (l : list ascii) : list (list ascii) :=
  split_ws_from [] l.

(** [' '.join(parts)] *)
Fixpoint join_l (parts : list (list ascii)) : list ascii :=
  match parts with
  | [] => []
  | [p] => p
  | p :: ps => p ++ " "%char :: join_l ps
  end.

Definition is_vowel (c : ascii) : bool :=
  eqc c "a"%char || eqc c "e"%char || eqc c "i"%char
  || eqc c "o"%char || eqc c "u"%char.

(** [re.sub(r'[aeiou]', '', s)] *)
Definition drop_vowels_l (l : list ascii) : list ascii :=
  List.filter (fun c => negb (is_vowel c)) l.

(** The [string]-level operations used by the program. *)
Definition lower (s : string) : string := str (lower_l (chars s)).
Definition strip (s : string) : string := str (strip_l (chars s)).
Definition collapse_ws (s : string) : string := str (collapse_ws_l (chars s)).
Definition sub_titles (s : string) : string := str (sub_titles_l (chars s)).
Definition sub_special (s : string) : string := str (sub_special_l (chars s)).
Definition split_ws (s : string) : list string :=
  List.map str (split_ws_l (chars s)).
Definition split_on (sep : ascii) (s : string) : list string :=
  List.map str (split_on_l sep (chars s)).
Definition re_split_seps (s : string) : list string :=
  List.map str (re_split_seps_l (chars s)).
Definition has_char (c : ascii) (s : string) : bool := contains c (chars s).
Definition join (parts : list string) : string :=
  str (join_l (List.map chars parts)).
Definition drop_vowels (s : string) : string := str (drop_vowels_l (chars s)).
Definition len (s : string) : Z := Z.of_nat (String.length s).

(** Truthiness of a Python string: the empty string is false. *)
Definition truthy (s : string) : bool :=
  match s with EmptyString => false | _ => true end.

End Str.

(** ** The normalizer: [DataProcessor.clean_names], [DataProcessor.clean_emails] *)

(** [clean_names]: lower-case and trim, collapse whitespace, delete the
    honorifics, delete the characters outside [\w\s-], trim. *)
Definition clean_names (name : string) : string :=
  if Str.truthy name then
    let name := Str.strip (Str.lower name) in
    let name := Str.collapse_ws name in
    let name := Str.sub_titles name in
    let name := Str.sub_special name in
    Str.strip name
  else "".

(** The test [ '@' in e and '.' in e.split('@')[-1] ]. *)
Definition valid_email (e : string) : bool :=
  Str.has_char "@"%char e
  && Str.has_char "."%char (List.last (Str.split_on "@"%char e) "").

(** [clean_emails]: the first piece of the lower-cased, trimmed field that
    looks like an address, or that field itself when no piece does. *)
Definition clean_emails (email : string) : string :=
  if Str.truthy email then
    let email := Str.strip (Str.lower email) in
    let emails := Str.re_split_seps email in
    match List.find valid_email (List.map Str.strip emails) with
    | Some e => e
    | None => email
    end
  else "".


(** ** Frames and records *)

(** One row of the retention survey (columns [Name], [Email Address],
    [Status] and the two derived columns). *)
Module Survey.
Record row := {
  Name : string;
  Email_Address : string;
  Status : string;
  name_clean : string;
  email_clean : string
}.
End Survey.

(** One row of a yearly registration roster. *)
Module Reg.
Record row := {
  Name : string;
  Email : string;
  Institution_of_Study : string;
  Program_of_Study : string;
  Country_of_Origin : string;
  name_clean : string;
  email_clean : string
}.
End Reg.

(** A registration row with the three result columns [match_members] adds. *)
Module Res.
Record row := {
  reg : Reg.row;
  retention_status : string;
  match_type : string;
  match_confidence : Z
}.
End Res.

(** A frame keeps the index label of every row.  The survey frame is never
    filtered, its labels are its positions, so it is a plain list. *)
Definition frame (A : Type) : Type := list (Z * A).

Definition labels {A} (f : frame A) : list Z := List.map fst f.

(** [df.at[idx, ...] = ...] writes the cells of the row(s) labelled [idx]. *)
Definition at_set {A} (idx : Z) (upd : A -> A) (f : frame A) : frame A :=
  List.map (fun ir => if Z.eqb (fst ir) idx then (fst ir, upd (snd ir)) else ir) f.

(** The state of a [DataProcessor] once [preprocess_data] has run. *)
Record DataProcessor := {
  retention_survey : list Survey.row;
  registrations_2023 : frame Reg.row;
  registrations_2024 : frame Reg.row
}.

(** The derived columns, as [preprocess_data] computes them. *)
Definition survey_cleaned (r : Survey.row) : Survey.row :=
  {| Survey.Name := Survey.Name r;
     Survey.Email_Address := Survey.Email_Address r;
     Survey.Status := Survey.Status r;
     Survey.name_clean := clean_names (Survey.Name r);
     Survey.email_clean := clean_emails (Survey.Email_Address r) |}.

Definition reg_cleaned (r : Reg.row) : Reg.row :=
  {| Reg.Name := Reg.Name r;
     Reg.Email := Reg.Email r;
     Reg.Institution_of_Study := Reg.Institution_of_Study r;
     Reg.Program_of_Study := Reg.Program_of_Study r;
     Reg.Country_of_Origin := Reg.Country_of_Origin r;
     Reg.name_clean := clean_names (Reg.Name r);
     Reg.email_clean := clean_emails (Reg.Email r) |}.

Definition preprocess_data (dp : DataProcessor) : DataProcessor :=
  {| retention_survey := List.map survey_cleaned (retention_survey dp);
     registrations_2023 :=
       List.map (fun ir => (fst ir, reg_cleaned (snd ir))) (registrations_2023 dp);
     registrations_2024 :=
       List.map (fun ir => (fst ir, reg_cleaned (snd ir))) (registrations_2024 dp) |}.

(** ** Exceptions *)

Inductive exn :=
| ValueError (msg : string)
| IndexError
| ZeroDivisionError
| ReError.

Inductive outcome (A : Type) :=
| Returns (a : A)
| Raises (e : exn).
Arguments Returns {A} a.
Arguments Raises {A} e.

(** The error monad, with stdpp's [x ← m; k] notation. *)
#[global] Instance outcome_ret : MRet outcome := fun A a => Returns a.
#[global] Instance outcome_bind : MBind outcome := fun A B k m =>
  match m with
  | Returns a => k a
  | Raises e => Raises e
  end.

(** A [for] loop whose body may raise: the body threads the state [S]. *)
Fixpoint for_each {A S} (body : S -> A -> outcome S) (xs : list A) (s : S)
  : outcome S :=
  match xs with
  | [] => Returns s
  | x :: xs' => s' ← body s x; for_each body xs' s'
  end.

(** [dict(zip(keys, values))]: later pairs overwrite earlier ones. *)
Definition dict_zip (ks vs : list string) : gmap string string :=
  List.fold_left (fun m kv => <[fst kv := snd kv]> m) (List.combine ks vs) ∅.

(** The first survey row whose [name_clean] is [n], as
    [survey[survey['name_clean'] == n]] followed by [.index[0]] or
    [.iloc[0]] selects it; an empty selection raises [IndexError]. *)
Definition first_by_name (survey : list Survey.row) (n : string)
  : outcome Survey.row :=
  match List.find (fun r => String.eqb (Survey.name_clean r) n) survey with
  | Some r => Returns r
  | None => Raises IndexError
  end.

Definition first_by_email (survey : list Survey.row) (e : string)
  : outcome Survey.row :=
  match List.find (fun r => String.eqb (Survey.email_clean r) e) survey with
  | Some r => Returns r
  | None => Raises IndexError
  end.

(** ** The matchers *)

Section Matching.

(** [extract_score q c]: the score [process.extract] gives the choice [c]
    for the query [q] (its default scorer [fuzz.WRatio] applied to the
    processed strings).  [ratio]: [fuzz.ratio].  [re_compile p]: the search
    predicate of the regular expression [p], or [None] when [p] does not
    compile ([Series.str.contains] then raises [re.error]). *)
Variable extract_score : string -> string -> Z.
Variable ratio : string -> string -> Z.
Variable re_compile : string -> option (string -> bool).

(** *** [process.extract] *)

(** [heapq.nlargest(limit, pairs, key=score)] equals
    [sorted(pairs, key=score, reverse=True)[:limit]]: a stable sort, equal
    scores stay in input order. *)
Fixpoint insert_desc (x : string * Z) (l : list (string * Z))
  : list (string * Z) :=
  match l with
  | [] => [x]
  | y :: t => if snd x <? snd y then y :: insert_desc x t else x :: l
  end.

Fixpoint sort_desc (l : list (string * Z)) : list (string * Z) :=
  match l with
  | [] => []
  | x :: t => insert_desc x (sort_desc t)
  end.

(** [extractWithoutOrder] with its default [score_cutoff=0]. *)
Definition extractWithoutOrder (query : string) (choices : list string)
  : list (string * Z) :=
  List.filter (fun p => 0 <=? snd p)
    (List.map (fun c => (c, extract_score query c)) choices).

Definition extract (query : string) (choices : list string) (limit : nat)
  : list (string * Z) :=
  List.firstn limit (sort_desc (extractWithoutOrder query choices)).

(** *** [DataProcessor.find_name_matches] *)
Definition find_name_matches (name : string) (candidate_names : list string)
    (threshold : Z) : list (string * Z) :=
  if negb (Str.truthy name) || (match candidate_names with [] => true | _ => false end)
  then []
  else List.filter (fun m => threshold <=? snd m) (extract name candidate_names 5).

(** *** [DataProcessor.match_members] *)

Definition unmatched_result (r : Reg.row) : Res.row :=
  {| Res.reg := r;
     Res.retention_status := "Unknown";
     Res.match_type := "None";
     Res.match_confidence := 0 |}.

(** The three cell writes [results.at[idx, ...] = ...] of one branch. *)
Definition set_result (status type : string) (confidence : Z) (r : Res.row)
  : Res.row :=
  {| Res.reg := Res.reg r;
     Res.retention_status := status;
     Res.match_type := type;
     Res.match_confidence := confidence |}.

Definition survey_names (survey : list Survey.row) : list string :=
  List.map Survey.name_clean survey.
Definition survey_emails (survey : list Survey.row) : list string :=
  List.map Survey.email_clean survey.
Definition survey_statuses (survey : list Survey.row) : list string :=
  List.map Survey.Status survey.

(** The body of the loop over [results.iterrows()]: [None] when the row is
    left as it is, otherwise the three values written. *)
Definition match_row (survey : list Survey.row)
    (survey_name_lookup survey_email_lookup : gmap string string)
    (row : Res.row) : outcome (option (string * string * Z)) :=
  let name_clean := Reg.name_clean (Res.reg row) in
  let email_clean := Reg.email_clean (Res.reg row) in
  match (if Str.truthy email_clean then survey_email_lookup !! email_clean
         else None) with
  | Some status => Returns (Some (status, "Email", 100))
  | None =>
      match (if Str.truthy name_clean then survey_name_lookup !! name_clean
             else None) with
      | Some status => Returns (Some (status, "Name_Exact", 100))
      | None =>
          if Str.truthy name_clean then
            match find_name_matches name_clean (survey_names survey) 80 with
            | (best_match, confidence) :: _ =>
                if 85 <=? confidence then
                  hit ← first_by_name survey best_match;
                  Returns (Some (Survey.Status hit, "Name_Fuzzy", confidence))
                else Returns None
            | [] => Returns None
            end
          else Returns None
      end
  end.

Definition apply_result (idx : Z) (u : option (string * string * Z))
    (results : frame Res.row) : frame Res.row :=
  match u with
  | Some (status, type, confidence) =>
      at_set idx (set_result status type confidence) results
  | None => results
  end.

(** The registrations of a year; any other year is rejected. *)
Definition registrations_of (dp : DataProcessor) (year : Z)
  : outcome (frame Reg.row) :=
  if year =? 2023 then Returns (registrations_2023 dp)
  else if year =? 2024 then Returns (registrations_2024 dp)
  else Raises (ValueError "Year must be 2023 or 2024").

(** The years for which a roster exists. *)
Definition valid_year (year : Z) : bool := (year =? 2023) || (year =? 2024).

Definition match_members (dp : DataProcessor) (year : Z)
  : outcome (frame Res.row) :=
  registrations ← registrations_of dp year;
  let results :=
    List.map (fun ir => (fst ir, unmatched_result (snd ir))) registrations in
  let survey := retention_survey dp in
  let survey_name_lookup :=
    dict_zip (survey_names survey) (survey_statuses survey) in
  let survey_email_lookup :=
    dict_zip (survey_emails survey) (survey_statuses survey) in
  for_each
    (fun acc ir =>
       u ← match_row survey survey_name_lookup survey_email_lookup (snd ir);
       Returns (apply_result (fst ir) u acc))
    results results.

(** *** [MatchingAnalyzer.improved_matching] *)

(** The loop variables [best_match], [best_score], [match_type] of one
    iteration; [None] is Python's [None]. *)
Record pick := {
  best_match : option string;
  best_score : Z;
  match_type : option string
}.

Definition no_pick : pick :=
  {| best_match := None; best_score := 0; match_type := None |}.

(** The truth value of [best_match]: [None] and the empty string are
    false. *)
Definition picked (p : pick) : bool :=
  match best_match p with
  | Some s => Str.truthy s
  | None => false
  end.

(** [f"{name_parts[0]} {name_parts[-1]}"] *)
Definition first_last (name_parts : list string) : string :=
  (List.hd "" name_parts ++ " " ++ List.last name_parts "")%string.

(** [s.split('@')[0]] *)
Definition username_of (email : string) : string :=
  List.hd "" (Str.split_on "@"%char email).

(** Strategy 1: partial name matching (first + last name only). *)
Definition strategy_partial_name (confidence_threshold : Z)
    (survey : list Survey.row) (name : string) (p : pick) : pick :=
  if Str.truthy name && negb (picked p) then
    let name_parts := Str.split_ws name in
    if (2 <=? List.length name_parts)%nat then
      match List.find (fun m => confidence_threshold <=? snd m)
              (extract (first_last name_parts) (survey_names survey) 3) with
      | Some (match_name, score) =>
          {| best_match := Some match_name; best_score := score;
             match_type := Some "Partial_Name" |}
      | None => p
      end
    else p
  else p.

(** The consonant skeleton [re.sub(r'[aeiou]', '', s.lower())]. *)
Definition consonants (s : string) : string := Str.drop_vowels (Str.lower s).

(** Strategy 2: phonetic matching, with the threshold raised by 10. *)
Definition strategy_phonetic (confidence_threshold : Z)
    (survey : list Survey.row) (name : string) (p : pick) : pick :=
  if Str.truthy name && negb (picked p) then
    let name_consonants := consonants name in
    match List.find
            (fun survey_name =>
               (3 <? Str.len name_consonants)
               && (3 <? Str.len (consonants survey_name))
               && (confidence_threshold + 10
                     <=? ratio name_consonants (consonants survey_name)))
            (survey_names survey) with
    | Some survey_name =>
        {| best_match := Some survey_name;
           best_score := ratio name_consonants (consonants survey_name);
           match_type := Some "Phonetic" |}
    | None => p
    end
  else p.

(** Strategy 3: email username matching. *)
Definition strategy_email_username (confidence_threshold : Z)
    (survey : list Survey.row) (email : string) (p : pick) : outcome pick :=
  if Str.truthy email && Str.has_char "@"%char email && negb (picked p) then
    let username := username_of email in
    match List.find
            (fun survey_email =>
               Str.has_char "@"%char survey_email
               && (confidence_threshold
                     <=? ratio username (username_of survey_email)))
            (survey_emails survey) with
    | Some survey_email =>
        survey_row ← first_by_email survey survey_email;
        Returns {| best_match := Some (Survey.name_clean survey_row);
                   best_score := ratio username (username_of survey_email);
                   match_type := Some "Email_Username" |}
    | None => Returns p
    end
  else Returns p.

(** "Apply the best match found": when [best_match] is true, the status of
    the first survey row of that name is written with [match_type] and
    [best_score] (both were set together with [best_match]). *)
Definition apply_pick (survey : list Survey.row) (p : pick)
  : outcome (option (string * string * Z)) :=
  if picked p then
    hit ← first_by_name survey (default "" (best_match p));
    Returns (Some (Survey.Status hit, default "None" (match_type p),
                   best_score p))
  else Returns None.

(** One iteration of the loop over the unmatched rows: the three
    strategies in turn, then the write. *)
Definition improved_row (confidence_threshold : Z) (survey : list Survey.row)
    (person : Res.row) : outcome (option (string * string * Z)) :=
  let name := Reg.name_clean (Res.reg person) in
  let email := Reg.email_clean (Res.reg person) in
  let p1 := strategy_partial_name confidence_threshold survey name no_pick in
  let p2 := strategy_phonetic confidence_threshold survey name p1 in
  p3 ← strategy_email_username confidence_threshold survey email p2;
  apply_pick survey p3.

(** [df[df['retention_status'] == 'Unknown']] *)
Definition is_unknown (r : Res.row) : bool :=
  String.eqb (Res.retention_status r) "Unknown".

Definition unmatched_of (results : frame Res.row) : frame Res.row :=
  List.filter (fun ir => is_unknown (snd ir)) results.

Definition improved_matching (dp : DataProcessor) (year : Z)
    (confidence_threshold : Z) : outcome (frame Res.row) :=
  original_results ← match_members dp year;
  let unmatched := unmatched_of original_results in
  let survey_data := retention_survey dp in
  for_each
    (fun acc ir =>
       u ← improved_row confidence_threshold survey_data (snd ir);
       Returns (apply_result (fst ir) u acc))
    unmatched original_results.

(** *** [MatchingAnalyzer._generate_name_variants] *)

(** The nickname table, in the insertion order of the dict. *)
Definition nickname_map : list (string * string) :=
  [("william", "bill"); ("robert", "bob"); ("james", "jim");
   ("richard", "rick"); ("michael", "mike"); ("david", "dave");
   ("christopher", "chris"); ("matthew", "matt"); ("anthony", "tony");
   ("joseph", "joe"); ("daniel", "dan"); ("andrew", "andy");
   ("kenneth", "ken"); ("elizabeth", "liz"); ("patricia", "pat");
   ("jennifer", "jen"); ("margaret", "meg"); ("catherine", "kate");
   ("stephanie", "steph")].

(** [nickname_map[k]] when [k in nickname_map]. *)
Definition nickname_of (k : string) : option string :=
  option_map snd (List.find (fun fn => String.eqb (fst fn) k) nickname_map).

(** [f"{x} {' '.join(name_parts[1:])}"] *)
Definition with_rest (x : string) (name_parts : list string) : string :=
  (x ++ " " ++ Str.join (List.tl name_parts))%string.

Definition _generate_name_variants (name : string) : list string :=
  let name_parts := Str.split_ws name in
  if (2 <=? List.length name_parts)%nat then
    let first_name := Str.lower (List.hd "" name_parts) in
    [(List.last name_parts "" ++ " " ++ List.hd "" name_parts)%string]
    ++ (if (2 <? List.length name_parts)%nat
        then [first_last name_parts] else [])
    ++ (match nickname_of first_name with
        | Some nick => [with_rest nick name_parts]
        | None => []
        end)
    ++ List.map (fun fn => with_rest (fst fn) name_parts)
         (List.filter (fun fn => String.eqb first_name (snd fn)) nickname_map)
  else [].

End Matching.

(** A near-miss suggestion, one dict of the list [matches]. *)
Module Cand.
Record t := {
  type : string;
  score : Z;
  matched_name : string;
  matched_email : string;
  status : string;
  variant_used : option string
}.
End Cand.

(** One entry of the list [_find_potential_matches] returns. *)
Record potential := {
  registration_name : string;
  registration_email : string;
  potential_matches : list Cand.t
}.

Section Diagnostics.

Variable extract_score : string -> string -> Z.
Variable ratio : string -> string -> Z.
Variable re_compile : string -> option (string -> bool).

Definition candidate (type : string) (score : Z) (survey_row : Survey.row)
    (variant : option string) : Cand.t :=
  {| Cand.type := type;
     Cand.score := score;
     Cand.matched_name := Survey.Name survey_row;
     Cand.matched_email := Survey.Email_Address survey_row;
     Cand.status := Survey.Status survey_row;
     Cand.variant_used := variant |}.

(** The inner loop shared by the name strategies: every extracted pair
    whose score reaches [floor] becomes a candidate on the first survey row
    of that name. *)
Definition collect_named (type : string) (floor : Z) (variant : option string)
    (survey_data : list Survey.row) (extracted : list (string * Z))
    (matches : list Cand.t) : outcome (list Cand.t) :=
  for_each
    (fun acc m =>
       if floor <=? snd m then
         survey_row ← first_by_name survey_data (fst m);
         Returns (acc ++ [candidate type (snd m) survey_row variant])
       else Returns acc)
    extracted matches.

(** 1. Partial name matching. *)
Definition partial_candidates (survey_data : list Survey.row) (name : string)
    (matches : list Cand.t) : outcome (list Cand.t) :=
  if Str.truthy name then
    let name_parts := Str.split_ws name in
    if (2 <=? List.length name_parts)%nat then
      collect_named "partial_name" 70 None survey_data
        (extract extract_score (first_last name_parts)
           (survey_names survey_data) 3)
        matches
    else Returns matches
  else Returns matches.

(** 2. Email domain matching: the survey rows whose address contains
    [@domain] (a regular-expression search), scored on the user name. *)
Definition email_candidates (survey_data : list Survey.row) (email : string)
    (matches : list Cand.t) : outcome (list Cand.t) :=
  if Str.truthy email && Str.has_char "@"%char email then
    let email_parts := Str.split_on "@"%char email in
    let username := List.nth 0 email_parts "" in
    let domain := List.nth 1 email_parts "" in
    match re_compile ("@" ++ domain)%string with
    | None => Raises ReError
    | Some found =>
        let same_domain :=
          List.filter (fun r => found (Survey.email_clean r)) survey_data in
        Returns
          (matches ++
           List.map
             (fun survey_row =>
                candidate "email_domain"
                  (ratio username (username_of (Survey.email_clean survey_row)))
                  survey_row None)
             (List.filter
                (fun survey_row =>
                   60 <=? ratio username
                            (username_of (Survey.email_clean survey_row)))
                same_domain))
    end
  else Returns matches.

(** 3. Nickname/variant matching. *)
Definition variant_candidates (survey_data : list Survey.row) (name : string)
    (matches : list Cand.t) : outcome (list Cand.t) :=
  if Str.truthy name then
    for_each
      (fun acc variant =>
         collect_named "name_variant" 80 (Some variant) survey_data
           (extract extract_score variant (survey_names survey_data) 2) acc)
      (_generate_name_variants name) matches
  else Returns matches.

(** The body of the loop of [_find_potential_matches] for one person:
    the candidates of the three strategies, in that order. *)
Definition person_matches (survey_data : list Survey.row) (name email : string)
  : outcome (list Cand.t) :=
  m1 ← partial_candidates survey_data name [];
  m2 ← email_candidates survey_data email m1;
  variant_candidates survey_data name m2.

End Diagnostics.

(** A row of the local copy [unmatched] once [_analyze_unmatched_patterns]
    has added its [email_domain] column ([None] is NaN). *)
Module Unm.
Record row := {
  res : Res.row;
  email_domain : option string
}.
End Unm.

(** [Series.str.extract(r'@(.+)')] on one value: the text after the first
    [@] that is followed by a character other than a newline, up to the next
    newline. *)
Fixpoint until_newline (l : list ascii) : list ascii :=
  match l with
  | [] => []
  | d :: t => if Str.eqc d "010"%char then [] else d :: until_newline t
  end.

Fixpoint extract_domain_l (l : list ascii) : option (list ascii) :=
  match l with
  | [] => None
  | c :: t =>
      if Str.eqc c "@"%char then
        match until_newline t with
        | [] => extract_domain_l t
        | d => Some d
        end
      else extract_domain_l t
  end.

Definition extract_domain (s : string) : option string :=
  option_map Str.str (extract_domain_l (Str.chars s)).

(** [Series.value_counts().to_dict()]: the non-missing values with their
    number of occurrences (the order of a dict is not modelled). *)
Definition value_counts (l : list string) : list (string * nat) :=
  List.map (fun v => (v, List.count_occ string_dec l v)) (List.nodup string_dec l).

(** The dict [patterns]; the float [avg_name_length] is left out. *)
Record patterns := {
  by_institution : list (string * nat);
  by_program : list (string * nat);
  by_country : list (string * nat);
  by_email_domain : list (string * nat);
  names_with_special_chars : nat;
  very_short_names : nat;
  very_long_names : nat
}.

Definition count_rows {A} (p : A -> bool) (f : frame A) : nat :=
  List.length (List.filter (fun ir => p (snd ir)) f).

(** [_analyze_unmatched_patterns]: it writes the column [email_domain] into
    the frame it is given, so the frame is returned with the dict. *)
Definition _analyze_unmatched_patterns (unmatched : frame Res.row)
  : patterns * frame Unm.row :=
  let regs := List.map (fun ir => Res.reg (snd ir)) unmatched in
  let unmatched' :=
    List.map
      (fun ir =>
         (fst ir,
          {| Unm.res := snd ir;
             Unm.email_domain :=
               extract_domain (Reg.email_clean (Res.reg (snd ir))) |}))
      unmatched in
  ({| by_institution := value_counts (List.map Reg.Institution_of_Study regs);
      by_program := value_counts (List.map Reg.Program_of_Study regs);
      by_country := value_counts (List.map Reg.Country_of_Origin regs);
      by_email_domain :=
        value_counts
          (omap (fun ir => Unm.email_domain (snd ir)) unmatched');
      names_with_special_chars :=
        count_rows
          (fun r =>
             List.existsb (fun c => negb (Str.is_word c || Str.is_space c))
               (Str.chars (Reg.Name (Res.reg r))))
          unmatched;
      very_short_names :=
        count_rows (fun r => Str.len (Reg.name_clean (Res.reg r)) <? 5) unmatched;
      very_long_names :=
        count_rows (fun r => 30 <? Str.len (Reg.name_clean (Res.reg r))) unmatched |},
   unmatched').

(** The dict [analysis]; [unmatched_percentage] is kept as the exact
    fraction (numerator, denominator), the list [suggestions] of display
    strings is left out. *)
Record analysis := {
  year : Z;
  total_registrations : nat;
  total_unmatched : nat;
  unmatched_percentage : Z * Z;
  unmatched_records : list Res.row;
  patterns_found : patterns;
  potential_matches_found : list potential
}.

(** The state of a [MatchingAnalyzer]. *)
Record MatchingAnalyzer := {
  data_processor : DataProcessor;
  unmatched_analysis : gmap Z analysis
}.

Section Analyzer.

Variable extract_score : string -> string -> Z.
Variable ratio : string -> string -> Z.
Variable re_compile : string -> option (string -> bool).

(** [_find_potential_matches]: an entry for every person with at least
    one candidate, holding the first five. *)
Definition _find_potential_matches (dp : DataProcessor)
    (unmatched : frame Unm.row) (year : Z) : outcome (list potential) :=
  let survey_data := retention_survey dp in
  for_each
    (fun potential_matches ip =>
       let person := Res.reg (Unm.res (snd ip)) in
       matches ← person_matches extract_score ratio re_compile survey_data
                   (Reg.name_clean person) (Reg.email_clean person);
       match matches with
       | [] => Returns potential_matches
       | _ =>
           Returns (potential_matches ++
                    [{| registration_name := Reg.Name person;
                        registration_email := Reg.Email person;
                        potential_matches := List.firstn 5 matches |}])
       end)
    unmatched [].

(** [analyze_unmatched_records]: it returns the analysis and stores it in
    [self.unmatched_analysis]. *)
Definition analyze_unmatched_records (self : MatchingAnalyzer) (year : Z)
  : outcome (MatchingAnalyzer * analysis) :=
  let dp := data_processor self in
  registrations ← registrations_of dp year;
  matched_data ← match_members extract_score dp year;
  let unmatched := unmatched_of matched_data in
  percentage ←
    (match registrations with
     | [] => Raises ZeroDivisionError
     | _ => Returns (100 * Z.of_nat (List.length unmatched),
                     Z.of_nat (List.length registrations))
     end);
  let unmatched_records := List.map snd unmatched in
  let pu := _analyze_unmatched_patterns unmatched in
  pm ← _find_potential_matches dp (snd pu) year;
  let a :=
    {| year := year;
       total_registrations := List.length registrations;
       total_unmatched := List.length unmatched;
       unmatched_percentage := percentage;
       unmatched_records := unmatched_records;
       patterns_found := fst pu;
       potential_matches_found := pm |} in
  Returns ({| data_processor := dp;
              unmatched_analysis := <[year := a]> (unmatched_analysis self) |},
           a).

End Analyzer.

(** ** The eligibility filter: [DataProcessor.filter_pei_students] *)

(** [Series.isin(values)] on one cell. *)
Definition isin (values : list string) (cell : string) : bool :=
  List.existsb (String.eqb cell) values.

Definition pei_variations : list string :=
  ["Prince Edward Island"; "Prince-Edward-Island"; "PEI"; "P.E.I.";
   "Prince Edward Island, Canada"; "PE"].

(** The list [[inst.lower() for inst in pei_institutions]], written out:
    the accented capital in the French name of the fourth institution is
    beyond the ASCII classes of [Str.lower]. *)
Definition pei_institutions_lower : list string :=
  ["upei"; "university of prince edward island"; "holland college";
   "collège de l'île"; "college de l'ile"; "maritime christian college";
   "pei paramedic academy"].

(** The mask [df[col].str.lower().str.strip().isin(values)] on one row of
    a column read as text; a missing cell is the empty string, which is in
    neither list. *)
Definition pei_mask {A} (col : A -> string) (values : list string)
    (ir : Z * A) : bool :=
  isin values (Str.strip (Str.lower (col (snd ir)))).

(** [filter_pei_students]: a frame may or may not carry the columns
    [Province] and [Institution of Study]; an absent column is [None].
    The rows kept keep their labels. *)
Definition filter_pei_students {A}
    (Province Institution_of_Study : option (A -> string)) (df : frame A)
  : frame A :=
  match df with
  | [] => df
  | _ =>
      match Province with
      | Some col =>
          List.filter (pei_mask col (List.map Str.lower pei_variations)) df
      | None =>
          match Institution_of_Study with
          | Some col => List.filter (pei_mask col pei_institutions_lower) df
          | None => df
          end
      end
  end.

(** What [preprocess_data] does to one roster: the eligibility filter, then
    the derived columns (the parsed [enrollment_date] is not modelled).  A
    roster of [Reg.row] carries the column [Institution of Study];
    [Province] is the column of that name when the file has one. *)
Definition preprocess_registrations (Province : option (Reg.row -> string))
    (df : frame Reg.row) : frame Reg.row :=
  List.map (fun ir => (fst ir, reg_cleaned (snd ir)))
    (filter_pei_students Province (Some Reg.Institution_of_Study) df).

(** ** [GraduationAnalyzer.classify_graduation_status]

    The parameters [program], [enrollment_date] and [analysis_date] are
    not read by the function and are left out; a missing status is the
    empty string. *)
Definition classify_graduation_status (student_status : string) : string :=
  if negb (Str.truthy student_status) then "Unknown"
  else
    let status_clean := Str.lower (Str.strip student_status) in
    if isin ["graduate"; "graduated"] status_clean then "Graduate"
    else if isin ["current student"; "student"; "current"] status_clean
         then "Current Student"
    else "Unknown".

(** ** [MatchingAnalyzer._format_for_linkedin_search] *)

Definition is_lower (c : ascii) : bool := Str.between 97 122 c.

Definition upper_char (c : ascii) : ascii :=
  if is_lower c then ascii_of_N (Str.code c - 32) else c.

(** [w.capitalize()]: the first character in upper case, the others in
    lower case. *)
Definition capitalize_l (l : list ascii) : list ascii :=
  match l with
  | [] => []
  | c :: t => upper_char c :: Str.lower_l t
  end.

Definition capitalize (s : string) : string :=
  Str.str (capitalize_l (Str.chars s)).

(** The alternatives of [(mr\.?|mrs\.?|ms\.?|dr\.?|prof\.?)]. *)
Definition search_titles : list (list ascii) :=
  Str.titles ++ [Str.chars "prof"].

(** [re.sub] of an honorific pattern by the empty string, as
    [Str.sub_titles_from] with the alternatives [alts] of the pattern. *)
Fixpoint sub_alts_from (alts : list (list ascii)) (skip : nat)
    (prev_word : bool) (l : list ascii) : list ascii :=
  match l with
  | [] => []
  | c :: t =>
      match skip with
      | S k => sub_alts_from alts k (Str.is_word c) t
      | O =>
          if prev_word then c :: sub_alts_from alts O (Str.is_word c) t
          else
            match Str.first_alt alts l with
            | Some (S k) => sub_alts_from alts k (Str.is_word c) t
            | _ => c :: sub_alts_from alts O (Str.is_word c) t
            end
      end
  end.

(** [re.sub(r'[^\w\s]', ' ', s)] *)
Definition blank_special_l (l : list ascii) : list ascii :=
  List.map (fun c => if Str.is_word c || Str.is_space c then c else " "%char) l.

Definition _format_for_linkedin_search (name : string) : string :=
  let name :=
    Str.str (sub_alts_from search_titles O false (Str.chars (Str.lower name))) in
  let name := Str.str (blank_special_l (Str.chars name)) in
  let name := Str.join (Str.split_ws name) in
  Str.join (List.map capitalize (Str.split_ws name)).

(** ** The matching report: [MatchingAnalyzer.generate_matching_report] *)

(** The dicts [original_stats] and [improved_stats], and the report.  The
    percentages are kept as exact fractions (numerator, denominator); the
    list [recommendations] of display strings is left out of the report,
    [_generate_recommendations] is modelled on its own below. *)
Module Report.
Record stats := {
  total_registrations : Z;
  matched : Z;
  unmatched : Z;
  match_rate : Z * Z
}.
Record t := {
  year : Z;
  original_stats : stats;
  improved_stats : stats;
  additional_matches : Z;
  improvement_percentage : Z * Z;
  unmatched_analysis : analysis
}.
End Report.

(** [(n / d) * 100] *)
Definition percent (n d : Z) : outcome (Z * Z) :=
  if d =? 0 then Raises ZeroDivisionError else Returns (100 * n, d).

(** [len(results[results['retention_status'] != 'Unknown'])] *)
Definition count_matched (results : frame Res.row) : Z :=
  Z.of_nat (count_rows (fun r => negb (is_unknown r)) results).

Section Reporting.

Variable extract_score : string -> string -> Z.
Variable ratio : string -> string -> Z.
Variable re_compile : string -> option (string -> bool).

Definition generate_matching_report (self : MatchingAnalyzer) (year : Z)
  : outcome (MatchingAnalyzer * Report.t) :=
  original_results ← match_members extract_score (data_processor self) year;
  improved_results ←
    improved_matching extract_score ratio (data_processor self) year 75;
  sa ← analyze_unmatched_records extract_score ratio re_compile self year;
  let original_matched := count_matched original_results in
  let improved_matched := count_matched improved_results in
  let additional_matches := improved_matched - original_matched in
  let original_total := Z.of_nat (List.length original_results) in
  let improved_total := Z.of_nat (List.length improved_results) in
  original_rate ← percent original_matched original_total;
  improved_rate ← percent improved_matched improved_total;
  improvement ← percent additional_matches original_total;
  Returns
    (fst sa,
     {| Report.year := year;
        Report.original_stats :=
          {| Report.total_registrations := original_total;
             Report.matched := original_matched;
             Report.unmatched := original_total - original_matched;
             Report.match_rate := original_rate |};
        Report.improved_stats :=
          {| Report.total_registrations := improved_total;
             Report.matched := improved_matched;
             Report.unmatched := improved_total - improved_matched;
             Report.match_rate := improved_rate |};
        Report.additional_matches := additional_matches;
        Report.improvement_percentage := improvement;
        Report.unmatched_analysis := snd sa |}).

End Reporting.

(** [max(d, key=d.get)] on a dict in its iteration order: the first key
    of the greatest value, [None] on an empty dict. *)
Fixpoint max_by_value (d : list (string * nat)) : option (string * nat) :=
  match d with
  | [] => None
  | kv :: t =>
      match max_by_value t with
      | Some b => if (snd kv <? snd b)%nat then Some b else Some kv
      | None => Some kv
      end
  end.

(** [MatchingAnalyzer._generate_recommendations] *)
Definition _generate_recommendations (unmatched_analysis : analysis)
    (additional_matches : Z) : list string :=
  let remaining_unmatched :=
    Z.of_nat (total_unmatched unmatched_analysis) - additional_matches in
  (if 0 <? additional_matches
   then [("✅ Improved matching found " ++ pretty additional_matches
          ++ " additional matches")%string;
         "Consider implementing the improved matching algorithm permanently"]
   else [])
  ++ (if 50 <? remaining_unmatched
      then ["🔍 High number of unmatched records requires manual investigation";
            "Use the exported CSV file for LinkedIn and manual research";
            "Consider contacting institutions for updated member lists"]
      else [])
  ++ (if 20 <? remaining_unmatched
      then ["📧 Consider sending follow-up emails to unmatched members";
            "Review data collection processes for consistency"]
      else [])
  ++ match max_by_value (by_institution (patterns_found unmatched_analysis)) with
     | Some highest_unmatched_inst =>
         [("🏫 " ++ fst highest_unmatched_inst
           ++ " has the most unmatched records - review their data quality")%string]
     | None => []
     end.

(** ** The rollups of [RetentionAnalyzer] *)

(** The dict of [_analyze_match_quality]; the float [average_confidence]
    is left out. *)
Module Quality.
Record t := {
  total_matches : nat;
  match_type_breakdown : list (string * nat);
  high_confidence_matches : nat;
  medium_confidence_matches : nat;
  low_confidence_matches : nat
}.
End Quality.

Definition _analyze_match_quality (data : frame Res.row) : Quality.t :=
  {| Quality.total_matches := count_rows (fun r => negb (is_unknown r)) data;
     Quality.match_type_breakdown :=
       value_counts (List.map (fun ir => Res.match_type (snd ir)) data);
     Quality.high_confidence_matches :=
       count_rows (fun r => 95 <=? Res.match_confidence r) data;
     Quality.medium_confidence_matches :=
       count_rows
         (fun r => (80 <=? Res.match_confidence r) && (Res.match_confidence r <? 95))
         data;
     Quality.low_confidence_matches :=
       count_rows
         (fun r => (Res.match_confidence r <? 80) && (0 <? Res.match_confidence r))
         data |}.

(** One entry of a breakdown; [still_in_pei_percent] of the institution
    entries is the same number as [retention_rate]. *)
Module Breakdown.
Record t := {
  total_members : nat;
  matched_members : nat;
  still_in_pei : nat;
  no_longer_in_pei : nat;
  inconclusive : nat;
  retention_rate : Z * Z
}.
End Breakdown.

(** [status_counts.get(status, 0)] *)
Definition count_status (status : string) (data : frame Res.row) : nat :=
  count_rows (fun r => String.eqb (Res.retention_status r) status) data.

(** The entry of one group of rows; there is none when no row of the group
    is matched. *)
Definition breakdown_of (group : frame Res.row) : option Breakdown.t :=
  let matched := count_rows (fun r => negb (is_unknown r)) group in
  if (0 <? matched)%nat then
    Some {| Breakdown.total_members := List.length group;
            Breakdown.matched_members := matched;
            Breakdown.still_in_pei := count_status "Still in PEI" group;
            Breakdown.no_longer_in_pei := count_status "No longer in PEI" group;
            Breakdown.inconclusive := count_status "Inconclusive" group;
            Breakdown.retention_rate :=
              (100 * Z.of_nat (count_status "Still in PEI" group),
               Z.of_nat matched) |}
  else None.

(** [Series.dropna().unique()]: the values present, in the order of their
    first appearance. *)
Fixpoint unique (l : list string) : list string :=
  match l with
  | [] => []
  | x :: t => x :: List.filter (fun y => negb (String.eqb y x)) (unique t)
  end.

(** The loop shared by the three breakdowns: over the values of a column
    carried by at least [least] rows, the entry of the rows of that value
    (the order of the dict is not modelled). *)
Definition breakdown_by (col : Reg.row -> string) (least : nat)
    (data : frame Res.row) : list (string * Breakdown.t) :=
  omap
    (fun value =>
       let group :=
         List.filter (fun ir => String.eqb (col (Res.reg (snd ir))) value) data in
       if (least <=? List.length group)%nat
       then option_map (pair value) (breakdown_of group)
       else None)
    (unique (List.filter Str.truthy (List.map (fun ir => col (Res.reg (snd ir))) data))).

Definition _analyze_by_institution (data : frame Res.row)
  : list (string * Breakdown.t) :=
  breakdown_by Reg.Institution_of_Study 0 data.

Definition _analyze_by_program (data : frame Res.row)
  : list (string * Breakdown.t) :=
  breakdown_by Reg.Program_of_Study 5 data.

Definition _analyze_by_country (data : frame Res.row)
  : list (string * Breakdown.t) :=
  breakdown_by Reg.Country_of_Origin 3 data.

(** ** Row-level readings of the two passes

    What one registration row becomes, read off the loops above; the
    properties below relate these to [match_members] and
    [improved_matching]. *)

(** The best-scoring pair of a list, the earliest one among equals. *)
Fixpoint top (l : list (string * Z)) : option (string * Z) :=
  match l with
  | [] => None
  | x :: t =>
      match top t with
      | Some b => if snd b <=? snd x then Some x else Some b
      | None => Some x
      end
  end.

(** The best-scoring survey name for a query under [score], the earliest
    one among equals. *)
Definition best_candidate (score : string -> string -> Z) (query : string)
    (choices : list string) : option (string * Z) :=
  top (List.map (fun c => (c, score query c)) choices).

(** The status of the first, and of the last, survey row with a given
    normalized name or email. *)
Definition first_status_by_name (survey : list Survey.row) (n : string)
  : option string :=
  option_map Survey.Status
    (List.find (fun r => String.eqb (Survey.name_clean r) n) survey).

Definition last_status_by_name (survey : list Survey.row) (n : string)
  : option string :=
  option_map Survey.Status
    (List.find (fun r => String.eqb (Survey.name_clean r) n) (List.rev survey)).

Definition last_status_by_email (survey : list Survey.row) (e : string)
  : option string :=
  option_map Survey.Status
    (List.find (fun r => String.eqb (Survey.email_clean r) e) (List.rev survey)).

(** The value an [outcome] returns, [d] when it raises. *)
Definition returned {A} (d : A) (m : outcome A) : A :=
  match m with
  | Returns a => a
  | Raises _ => d
  end.

Definition write_result (u : option (string * string * Z)) (r : Res.row)
  : Res.row :=
  match u with
  | Some (status, type, confidence) => set_result status type confidence r
  | None => r
  end.

Section Rows.

Variable extract_score : string -> string -> Z.
Variable ratio : string -> string -> Z.

(** The exact and fuzzy stage on one registration, as a decision list:
    the email lookup, else the name lookup, else the best-scoring survey
    name when it scores 85 or more. *)
Definition stage_one (survey : list Survey.row) (name email : string)
  : option (string * string * Z) :=
  match (if Str.truthy email then last_status_by_email survey email else None) with
  | Some status => Some (status, "Email", 100)
  | None =>
      match (if Str.truthy name then last_status_by_name survey name else None) with
      | Some status => Some (status, "Name_Exact", 100)
      | None =>
          match best_candidate extract_score name (survey_names survey) with
          | Some (best, confidence) =>
              if Str.truthy name && (85 <=? confidence) then
                option_map (fun status => (status, "Name_Fuzzy", confidence))
                  (first_status_by_name survey best)
              else None
          | None => None
          end
      end
  end.

(** The candidate each strategy of the second pass proposes: a survey name
    and its score. *)
Definition partial_hit (confidence_threshold : Z) (survey : list Survey.row)
    (name : string) : option (string * Z) :=
  if Str.truthy name && (2 <=? List.length (Str.split_ws name))%nat then
    match best_candidate extract_score (first_last (Str.split_ws name))
            (survey_names survey) with
    | Some b => if (0 <=? snd b) && (confidence_threshold <=? snd b)
                then Some b else None
    | None => None
    end
  else None.

Definition phonetic_hit (confidence_threshold : Z) (survey : list Survey.row)
    (name : string) : option (string * Z) :=
  if Str.truthy name then
    option_map
      (fun survey_name =>
         (survey_name, ratio (consonants name) (consonants survey_name)))
      (List.find
         (fun survey_name =>
            (3 <? Str.len (consonants name))
            && (3 <? Str.len (consonants survey_name))
            && (confidence_threshold + 10
                  <=? ratio (consonants name) (consonants survey_name)))
         (survey_names survey))
  else None.

Definition email_hit (confidence_threshold : Z) (survey : list Survey.row)
    (email : string) : option (string * Z) :=
  if Str.truthy email && Str.has_char "@"%char email then
    match List.find
            (fun survey_email =>
               Str.has_char "@"%char survey_email
               && (confidence_threshold
                     <=? ratio (username_of email) (username_of survey_email)))
            (survey_emails survey) with
    | Some survey_email =>
        option_map
          (fun r => (Survey.name_clean r,
                     ratio (username_of email) (username_of survey_email)))
          (List.find (fun r => String.eqb (Survey.email_clean r) survey_email)
             survey)
    | None => None
    end
  else None.

(** The loop variables once a strategy has taken the proposal [h]. *)
Definition chosen (type : string) (h : string * Z) : pick :=
  {| best_match := Some (fst h); best_score := snd h; match_type := Some type |}.

(** A proposal is adopted when its survey name is not empty. *)
Definition adopted (h : option (string * Z)) : option (string * Z) :=
  match h with
  | Some (n, c) => if Str.truthy n then Some (n, c) else None
  | None => None
  end.

Definition tagged (type : string) (survey : list Survey.row)
    (h : string * Z) : option (string * string * Z) :=
  option_map (fun status => (status, type, snd h))
    (first_status_by_name survey (fst h)).

(** The second pass on one registration, as a decision list over the three
    strategies in their fixed order. *)
Definition stage_two (confidence_threshold : Z) (survey : list Survey.row)
    (name email : string) : option (string * string * Z) :=
  match adopted (partial_hit confidence_threshold survey name) with
  | Some h => tagged "Partial_Name" survey h
  | None =>
      match adopted (phonetic_hit confidence_threshold survey name) with
      | Some h => tagged "Phonetic" survey h
      | None =>
          match adopted (email_hit confidence_threshold survey email) with
          | Some h => tagged "Email_Username" survey h
          | None => None
          end
      end
  end.

(** The result row of a registration after the exact and fuzzy stage. *)
Definition matched_row (survey : list Survey.row) (r : Reg.row) : Res.row :=
  write_result
    (returned None
       (match_row extract_score survey
          (dict_zip (survey_names survey) (survey_statuses survey))
          (dict_zip (survey_emails survey) (survey_statuses survey))
          (unmatched_result r)))
    (unmatched_result r).

(** What the second pass makes of a result row. *)
Definition improved_result (confidence_threshold : Z)
    (survey : list Survey.row) (res : Res.row) : Res.row :=
  if is_unknown res then
    write_result
      (returned None (improved_row extract_score ratio confidence_threshold survey res))
      res
  else res.

End Rows.

(** ** Sample instances of the parameters

    Concrete scorers to run the program on examples.  [sample_ratio] is the
    similarity 2*LCS/(|a|+|b|) scaled to 0..100 and rounded, with the
    conventions of [fuzz.ratio] for equal and for empty strings;
    [sample_extract_score] is the same measure with the score 0 that
    [fuzz.WRatio] gives as soon as one string is empty. *)

Fixpoint lcs (a b : list ascii) : nat :=
  match a with
  | [] => O
  | x :: a' =>
      (fix inner (b : list ascii) : nat :=
         match b with
         | [] => O
         | y :: b' =>
             if Str.eqc x y then S (lcs a' b')
             else Nat.max (lcs a' b) (inner b')
         end) b
  end.

Definition sample_ratio (a b : string) : Z :=
  if String.eqb a b then 100
  else if negb (Str.truthy a) || negb (Str.truthy b) then 0
  else
    let total := Str.len a + Str.len b in
    (400 * Z.of_nat (lcs (Str.chars a) (Str.chars b)) + total) / (2 * total).

Definition sample_extract_score (query choice : string) : Z :=
  if negb (Str.truthy query) || negb (Str.truthy choice) then 0
  else sample_ratio query choice.

(** A search predicate for patterns made of literal characters and [.]
    (any character but a newline); a pattern holding a parenthesis or a
    bracket is refused. *)
Fixpoint matches_here (p l : list ascii) : bool :=
  match p, l with
  | [], _ => true
  | a :: p', b :: l' =>
      (if Str.eqc a "."%char then negb (Str.eqc b "010"%char) else Str.eqc a b)
      && matches_here p' l'
  | _ :: _, [] => false
  end.

Fixpoint search_l (p l : list ascii) : bool :=
  matches_here p l
  || match l with
     | [] => false
     | _ :: t => search_l p t
     end.

Definition sample_re_compile (pattern : string) : option (string -> bool) :=
  if List.existsb
       (fun c => Str.eqc c "("%char || Str.eqc c ")"%char
                 || Str.eqc c "["%char || Str.eqc c "]"%char)
       (Str.chars pattern)
  then None
  else Some (fun s => search_l (Str.chars pattern) (Str.chars s)).

(** Sample data: rows as [preprocess_data] derives them from raw fields,
    and a processor holding a survey and the 2024 roster. *)
Definition survey_row (name email status : string) : Survey.row :=
  survey_cleaned
    {| Survey.Name := name; Survey.Email_Address := email;
       Survey.Status := status;
       Survey.name_clean := ""; Survey.email_clean := "" |}.

Definition reg_row (name email : string) : Reg.row :=
  reg_cleaned
    {| Reg.Name := name; Reg.Email := email;
       Reg.Institution_of_Study := "UPEI";
       Reg.Program_of_Study := "Biology";
       Reg.Country_of_Origin := "Canada";
       Reg.name_clean := ""; Reg.email_clean := "" |}.

Definition processor (survey : list Survey.row) (roster : frame Reg.row)
  : DataProcessor :=
  {| retention_survey := survey;
     registrations_2023 := [];
     registrations_2024 := roster |}.

(** The columns [retention_status], [match_type], [match_confidence] of a
    returned frame, with the labels. *)
Definition triples (m : outcome (frame Res.row))
  : outcome (list (Z * (string * string * Z))) :=
  match m with
  | Returns f =>
      Returns (List.map
                 (fun ir => (fst ir, (Res.retention_status (snd ir),
                                      Res.match_type (snd ir),
                                      Res.match_confidence (snd ir)))) f)
  | Raises e => Raises e
  end.

(** A survey with two rows of the same name and address, and a roster that
    reaches them by every route. *)
Definition sample_survey : list Survey.row :=
  [survey_row "Ann Lee" "ann@x.ca" "Still in PEI";
   survey_row "Ann Lee" "ann@x.ca" "No longer in PEI";
   survey_row "Robert Stone" "rstone@x.ca" "Inconclusive"].

Definition sample_roster : frame Reg.row :=
  [(0, reg_row "Ann Lee" "other@y.ca");
   (1, reg_row "Ann Leee" "");
   (2, reg_row "Someone Else" "ann@x.ca");
   (5, reg_row "Ann B Leigh" "");
   (7, reg_row "Bob Stone" "");
   (8, reg_row "" "")].

Definition sample_processor : DataProcessor :=
  processor sample_survey sample_roster.

Definition sample_analyzer : MatchingAnalyzer :=
  {| data_processor := sample_processor; unmatched_analysis := ∅ |}.

(** Smaller processors, one registration each. *)



(** The same nickname, with addresses in one domain. *)
Definition bob_email_processor : DataProcessor :=
  processor [survey_row "Robert Lee" "bob.lee@x.ca" "Still in PEI"]
    [(0, reg_row "Bob Lee" "boblee@x.ca")].


(** A survey row whose status is the word [Unknown]. *)
Definition unknown_processor : DataProcessor :=
  processor [survey_row "Al Po" "al@x.ca" "Unknown"]
    [(0, reg_row "Al Po" "al@x.ca")].

(** A registration and a survey name with no character in common. *)
Definition zero_processor : DataProcessor :=
  processor [survey_row "Xyz" "" "Still in PEI"] [(0, reg_row "Ab Cd" "")].

(** The tag and score of every candidate of every entry of an analysis. *)
Definition candidate_scores (m : outcome (MatchingAnalyzer * analysis))
  : outcome (list (list (string * Z))) :=
  match m with
  | Returns sa =>
      Returns (List.map
                 (fun p => List.map (fun c => (Cand.type c, Cand.score c))
                             (potential_matches p))
                 (potential_matches_found (snd sa)))
  | Raises e => Raises e
  end.

(** ** Vocabulary of the properties *)

(** Characters that are not upper-case letters are fixed by [lower]. *)
Definition lowered (l : list ascii) : Prop :=
  List.Forall (fun c => Str.is_upper c = false) l.

(** A piece of [re.split(r'[,;\s]+', s)] holds no separator. *)
Definition no_sep (l : list ascii) : Prop :=
  List.Forall (fun c => Str.is_sep c = false) l.

(** The row a label selects in a frame. *)
Definition row_at {A} (idx : Z) (f : frame A) : option (Z * A) :=
  List.find (fun ir => Z.eqb (fst ir) idx) f.

(** The statuses of a survey that never uses the word kept for unresolved
    registrations. *)
Definition statuses_known (survey : list Survey.row) : Prop :=
  forall s, In s survey -> Survey.Status s <> "Unknown".

(** The invariant of a result row. *)
Definition coherent (row : Res.row) : Prop :=
  (Res.match_type row = "None" <-> Res.retention_status row = "Unknown")
  /\ (Res.retention_status row = "Unknown" <-> Res.match_confidence row = 0)
  /\ (Res.match_type row <> "None" -> 0 < Res.match_confidence row).


(** A candidate drawn from an extraction: one of the extracted pairs,
    with a score at or above the floor, on the first survey row of that
    name. *)
Definition drawn (type : string) (floor : Z) (variant : option string)
    (survey : list Survey.row) (extracted : list (string * Z)) (c : Cand.t)
  : Prop :=
  exists m r,
    In m extracted /\ floor <= snd m
    /\ first_by_name survey (fst m) = Returns r
    /\ c = candidate type (snd m) r variant.

(** The candidates of the three collectors for a person with normalized
    name [name] and normalized email [email]: among the 3 best extractions
    for "first last" at 70; among the survey rows whose address matches
    [@domain], on the user name at 60; among the 2 best extractions for a
    name variant at 80. *)
Definition partial_candidate (extract_score : string -> string -> Z)
    (survey : list Survey.row) (name : string) (c : Cand.t) : Prop :=
  drawn "partial_name" 70 None survey
    (extract extract_score (first_last (Str.split_ws name))
       (survey_names survey) 3) c.

Definition email_candidate (ratio : string -> string -> Z)
    (re_compile : string -> option (string -> bool))
    (survey : list Survey.row) (email : string) (c : Cand.t) : Prop :=
  exists found r,
    re_compile ("@" ++ List.nth 1 (Str.split_on "@"%char email) "")%string
    = Some found
    /\ In r survey /\ found (Survey.email_clean r) = true
    /\ 60 <= ratio (List.nth 0 (Str.split_on "@"%char email) "")
               (username_of (Survey.email_clean r))
    /\ c = candidate "email_domain"
             (ratio (List.nth 0 (Str.split_on "@"%char email) "")
                (username_of (Survey.email_clean r))) r None.

Definition variant_candidate (extract_score : string -> string -> Z)
    (survey : list Survey.row) (name : string) (c : Cand.t) : Prop :=
  exists v,
    In v (_generate_name_variants name)
    /\ drawn "name_variant" 80 (Some v) survey
         (extract extract_score v (survey_names survey) 2) c.

Definition collected
    (extract_score ratio : string -> string -> Z)
    (re_compile : string -> option (string -> bool))
    (survey : list Survey.row) (name email : string) (c : Cand.t) : Prop :=
  partial_candidate extract_score survey name c
  \/ email_candidate ratio re_compile survey email c
  \/ variant_candidate extract_score survey name c.

(** What an entry of the list of [_find_potential_matches] is: the head of
    the candidates of a person that has some. *)
Definition entry_of
    (extract_score ratio : string -> string -> Z)
    (re_compile : string -> option (string -> bool))
    (survey : list Survey.row) (unmatched : frame Unm.row)
    (p : potential) : Prop :=
  exists ip matches,
    In ip unmatched
    /\ matches <> []
    /\ potential_matches p = List.firstn 5 matches
    /\ registration_name p = Reg.Name (Res.reg (Unm.res (snd ip)))
    /\ registration_email p = Reg.Email (Res.reg (Unm.res (snd ip)))
    /\ List.Forall
         (collected extract_score ratio re_compile survey
            (Reg.name_clean (Res.reg (Unm.res (snd ip))))
            (Reg.email_clean (Res.reg (Unm.res (snd ip)))))
         matches.


(** A list of scored names in descending order of score. *)
Fixpoint descending (l : list (string * Z)) : Prop :=
  match l with
  | [] => True
  | x :: t => (forall y, In y t -> snd y <= snd x) /\ descending t
  end.

(** The registration rows of a result frame, under their labels. *)
Definition roster_of (results : frame Res.row) : frame Reg.row :=
  List.map (fun ir => (fst ir, Res.reg (snd ir))) results.

(** A token of [s.split()]: a non-empty run of characters that are not
    whitespace. *)
Definition token (p : list ascii) : Prop :=
  p <> [] /\ List.Forall (fun c => Str.is_space c = false) p.

Definition is_token (s : string) : Prop := token (Str.chars s).

(** The three result columns of a row. *)
Definition result_columns (row : Res.row) : string * string * Z :=
  (Res.retention_status row, Res.match_type row, Res.match_confidence row).

(** Tactics: case analysis on a character; distinct labels and known
    statuses of a concrete frame or survey. *)
Ltac by_cases c := destruct c as [[] [] [] [] [] [] [] []]; vm_compute; congruence.

Ltac distinct_labels :=
  repeat (apply NoDup_cons; split;
          [ vm_compute; intros Hin; apply list_elem_of_In in Hin; simpl in Hin;
            intuition discriminate | ]);
  apply NoDup_nil; exact I.

Ltac known_statuses :=
  let s := fresh "s" in
  let Hs := fresh "Hs" in
  intros s Hs; vm_compute in Hs;
  repeat (destruct Hs as [<- | Hs]; [discriminate|]); contradiction.

(** * Properties *)

(** ** Strings *)

Module StrFacts.
Import Str.

Lemma chars_str l : chars (str l) = l.
Proof. apply list_ascii_of_string_of_list_ascii. Qed.

Lemma str_chars s : str (chars s) = s.
Proof. apply string_of_list_ascii_of_string. Qed.

Lemma lower_char_not_upper c : is_upper (lower_char c) = false.
Proof. by_cases c. Qed.

Lemma lower_char_fixed c : is_upper c = false -> lower_char c = c.
Proof. unfold lower_char. intros ->. reflexivity. Qed.

Lemma sep_of_space c : is_space c = true -> is_sep c = true.
Proof. unfold is_sep. intros ->. apply orb_true_r. Qed.

Lemma lower_l_lowered l : lowered (lower_l l).
Proof.
  induction l as [|c l IH]; simpl; constructor; auto using lower_char_not_upper.
Qed.

Lemma lower_l_fixed l : lowered l -> lower_l l = l.
Proof.
  induction 1 as [|c l Hc _ IH]; simpl; [reflexivity|].
  rewrite IH, lower_char_fixed by assumption. reflexivity.
Qed.

Section Preserved.
Variable P : ascii -> Prop.

Lemma lstrip_Forall l : List.Forall P l -> List.Forall P (lstrip_l l).
Proof.
  induction 1 as [|c l Hc Hl IH]; simpl; [constructor|].
  destruct (is_space c); [assumption | constructor; assumption].
Qed.

Lemma rstrip_Forall l : List.Forall P l -> List.Forall P (rstrip_l l).
Proof.
  induction 1 as [|c l Hc Hl IH]; simpl; [constructor|].
  destruct (rstrip_l l) as [|d r].
  - destruct (is_space c); repeat constructor; assumption.
  - constructor; assumption.
Qed.

Lemma strip_Forall l : List.Forall P l -> List.Forall P (strip_l l).
Proof. intros H. apply rstrip_Forall, lstrip_Forall, H. Qed.

Lemma sub_titles_Forall l : forall skip prev,
  List.Forall P l -> List.Forall P (sub_titles_from skip prev l).
Proof.
  induction l as [|c l IH]; intros skip prev H;
    cbn [sub_titles_from]; [constructor|].
  inversion H as [|? ? Hc Hl]; subst.
  destruct skip as [|k]; [|auto].
  destruct prev; [constructor; auto|].
  destruct (first_alt titles (c :: l)) as [[|k]|];
    first [ apply IH; assumption | constructor; auto ].
Qed.

Lemma collapse_Forall l : forall b,
  P " "%char -> List.Forall P l -> List.Forall P (collapse_from b l).
Proof.
  induction l as [|c l IH]; intros b Hsp H; simpl; [constructor|].
  inversion H as [|? ? Hc Hl]; subst.
  destruct (is_space c); [destruct b|]; try constructor; auto.
Qed.
End Preserved.

(** [strip] is idempotent. *)
Lemma lstrip_fixed l :
  match l with [] => True | c :: _ => is_space c = false end -> lstrip_l l = l.
Proof. destruct l as [|c t]; simpl; [reflexivity|]. intros ->. reflexivity. Qed.

Lemma lstrip_head l :
  match lstrip_l l with [] => True | c :: _ => is_space c = false end.
Proof.
  induction l as [|c t IH]; simpl; [exact I|].
  destruct (is_space c) eqn:E; [exact IH | exact E].
Qed.

Lemma rstrip_head l :
  match l with [] => True | c :: _ => is_space c = false end ->
  match rstrip_l l with [] => l = [] | c :: _ => is_space c = false end.
Proof.
  destruct l as [|c t]; simpl; [reflexivity|]. intros E.
  destruct (rstrip_l t); [rewrite E|]; assumption.
Qed.

Lemma rstrip_idem l : rstrip_l (rstrip_l l) = rstrip_l l.
Proof.
  induction l as [|c t IH]; simpl; [reflexivity|].
  destruct (rstrip_l t) as [|d r] eqn:E.
  - destruct (is_space c) eqn:Ec; simpl; [reflexivity | rewrite Ec; reflexivity].
  - change (rstrip_l (c :: d :: r)) with
      (match rstrip_l (d :: r) with [] => if is_space c then [] else [c]
                                | r' => c :: r' end).
    rewrite IH. reflexivity.
Qed.

Lemma strip_idem l : strip_l (strip_l l) = strip_l l.
Proof.
  unfold strip_l.
  assert (H := rstrip_head (lstrip_l l) (lstrip_head l)).
  rewrite (lstrip_fixed (rstrip_l (lstrip_l l))).
  - apply rstrip_idem.
  - destruct (rstrip_l (lstrip_l l)); [exact I | exact H].
Qed.

Lemma strip_no_space l :
  List.Forall (fun c => is_space c = false) l -> strip_l l = l.
Proof.
  intros H. unfold strip_l. rewrite lstrip_fixed.
  - induction H as [|c t Hc Ht IH]; simpl; [reflexivity|].
    rewrite IH. destruct t; [rewrite Hc|]; reflexivity.
  - destruct H; [exact I | assumption].
Qed.

End StrFacts.

(** ** The normalizer *)

Module NormalizerFacts.
Import Str StrFacts.

Lemma re_split_no_sep l : forall cur,
  no_sep l -> re_split_from false cur l = [List.rev cur ++ l].
Proof.
  induction l as [|c t IH]; intros cur H; simpl.
  - rewrite List.app_nil_r. reflexivity.
  - inversion H as [|? ? Hc Ht]; subst. rewrite Hc, IH by assumption.
    simpl. rewrite <- List.app_assoc. reflexivity.
Qed.

Lemma re_split_pieces (P : ascii -> Prop) l : forall b cur,
  List.Forall P cur -> List.Forall P l ->
  List.Forall (List.Forall P) (re_split_from b cur l).
Proof.
  induction l as [|c t IH]; intros b cur Hcur H; simpl.
  - repeat constructor. apply List.Forall_rev, Hcur.
  - inversion H as [|? ? Hc Ht]; subst.
    destruct (is_sep c); [destruct b|]; auto.
    constructor; [apply List.Forall_rev, Hcur | auto].
Qed.

Lemma re_split_pieces_no_sep l : forall b cur,
  no_sep cur -> List.Forall no_sep (re_split_from b cur l).
Proof.
  induction l as [|c t IH]; intros b cur Hcur; simpl.
  - repeat constructor. apply List.Forall_rev, Hcur.
  - destruct (is_sep c) eqn:E; [destruct b|].
    + auto.
    + constructor; [apply List.Forall_rev, Hcur | apply IH; constructor].
    + apply IH. constructor; assumption.
Qed.

Lemma no_sep_no_space l :
  no_sep l -> List.Forall (fun c => is_space c = false) l.
Proof.
  apply List.Forall_impl. intros c H. destruct (is_space c) eqn:E; [|reflexivity].
  rewrite (sep_of_space c E) in H. discriminate.
Qed.

Lemma has_char_nonempty c s : has_char c s = true -> truthy s = true.
Proof. destruct s; [discriminate | reflexivity]. Qed.

(** A lower-cased piece without separators that looks like an address is
    returned as it is. *)
Lemma clean_emails_piece p :
  lowered p -> no_sep p -> valid_email (str p) = true ->
  clean_emails (str p) = str p.
Proof.
  intros Hlow Hsep Hvalid. unfold clean_emails.
  assert (Htruthy : truthy (str p) = true).
  { apply andb_prop in Hvalid. destruct Hvalid as [H _].
    eapply has_char_nonempty, H. }
  rewrite Htruthy. unfold lower, strip, re_split_seps, re_split_seps_l.
  rewrite !chars_str, lower_l_fixed by assumption.
  rewrite !strip_no_space by (apply no_sep_no_space, Hsep).
  rewrite re_split_no_sep by assumption. simpl.
  rewrite chars_str, strip_no_space by (apply no_sep_no_space, Hsep).
  rewrite Hvalid. reflexivity.
Qed.

Lemma clean_emails_idempotent x : clean_emails (clean_emails x) = clean_emails x.
Proof.
  unfold clean_emails at 2 3.
  destruct (truthy x); [|reflexivity].
  set (e := strip (lower x)).
  assert (Hlow : lowered (chars e)).
  { unfold e, strip, lower. rewrite !chars_str.
    apply strip_Forall, lower_l_lowered. }
  destruct (List.find valid_email (List.map strip (re_split_seps e)))
    as [t|] eqn:Hfind.
  - apply List.find_some in Hfind. destruct Hfind as [Hin Hvalid].
    apply List.in_map_iff in Hin. destruct Hin as [q [<- Hq]].
    unfold re_split_seps in Hq.
    apply List.in_map_iff in Hq. destruct Hq as [p [<- Hp]].
    assert (Hsep : no_sep p).
    { refine (proj1 (List.Forall_forall _ _) _ p Hp).
      apply re_split_pieces_no_sep. constructor. }
    assert (Hlp : lowered p).
    { refine (proj1 (List.Forall_forall _ _) _ p Hp).
      apply re_split_pieces; [constructor | exact Hlow]. }
    unfold strip in *. rewrite chars_str in *.
    rewrite strip_no_space in * by (apply no_sep_no_space, Hsep).
    apply clean_emails_piece; assumption.
  - unfold clean_emails. destruct (truthy e) eqn:He.
    + assert (Hfix : strip (lower e) = e).
      { unfold strip at 1, lower. rewrite chars_str.
        rewrite lower_l_fixed by exact Hlow.
        unfold e at 1, strip. rewrite chars_str, strip_idem. reflexivity. }
      rewrite Hfix, Hfind. reflexivity.
    + destruct e; [reflexivity | discriminate].
Qed.

(** The characters a cleaned name is made of. *)
Lemma clean_names_chars (P : ascii -> Prop) x :
  P " "%char ->
  (forall c, is_upper c = false -> name_char c = true -> P c) ->
  List.Forall P (chars (clean_names x)).
Proof.
  intros Hsp HP. unfold clean_names. destruct (truthy x); [|constructor].
  unfold strip, sub_special, sub_titles, collapse_ws, lower.
  rewrite !chars_str. apply strip_Forall.
  unfold sub_special_l.
  apply List.Forall_forall. intros c Hc.
  apply List.filter_In in Hc. destruct Hc as [Hc Hname].
  apply HP; [|exact Hname].
  refine (proj1 (List.Forall_forall (fun c => is_upper c = false) _) _ c Hc).
  apply sub_titles_Forall, collapse_Forall; [reflexivity|].
  apply strip_Forall, lower_l_lowered.
Qed.

Lemma filter_fixed (f : ascii -> bool) l :
  List.Forall (fun c => f c = true) l -> List.filter f l = l.
Proof.
  induction 1 as [|c t Hc _ IH]; simpl; [reflexivity|]. rewrite Hc, IH. reflexivity.
Qed.

(** A cleaned name that holds neither a run of blanks nor an honorific is
    a fixed point of [clean_names]. *)
Lemma clean_names_fixed x :
  collapse_ws (clean_names x) = clean_names x ->
  sub_titles (clean_names x) = clean_names x ->
  clean_names (clean_names x) = clean_names x.
Proof.
  intros Hcol Htit.
  assert (Hlow : lowered (chars (clean_names x))).
  { apply clean_names_chars; [reflexivity | auto]. }
  assert (Hname : List.Forall (fun c => name_char c = true) (chars (clean_names x))).
  { apply clean_names_chars; [reflexivity | auto]. }
  assert (Hstrip : strip (clean_names x) = clean_names x).
  { unfold clean_names. destruct (truthy x); [|reflexivity].
    unfold strip. rewrite chars_str, strip_idem. reflexivity. }
  set (y := clean_names x) in *.
  unfold clean_names. destruct (truthy y) eqn:Hy.
  - assert (Hl : lower y = y).
    { unfold lower. rewrite lower_l_fixed by exact Hlow. apply str_chars. }
    rewrite Hl, Hstrip, Hcol, Htit.
    assert (Hs : sub_special y = y).
    { unfold sub_special, sub_special_l. rewrite filter_fixed by exact Hname.
      apply str_chars. }
    rewrite Hs. exact Hstrip.
  - destruct y; [reflexivity | discriminate].
Qed.

End NormalizerFacts.

(** ** Loops and frames *)

Lemma for_each_pure {A S} (f : S -> A -> S) (body : S -> A -> outcome S) xs :
  (forall s x, In x xs -> body s x = Returns (f s x)) ->
  forall s, for_each body xs s = Returns (List.fold_left f xs s).
Proof.
  induction xs as [|x xs IH]; intros Hbody s; simpl; [reflexivity|].
  rewrite Hbody by (left; reflexivity). simpl.
  apply IH. intros s' y Hy. apply Hbody. right. exact Hy.
Qed.

Section Frames.
Context {A : Type}.

Lemma row_at_None idx (f : frame A) :
  ~ In idx (labels f) -> row_at idx f = None.
Proof.
  induction f as [|[i a] f IH]; simpl; intros H; [reflexivity|].
  destruct (Z.eqb_spec i idx) as [->|_]; [exfalso; auto|]. apply IH. tauto.
Qed.

Lemma row_at_self (f : frame A) ir :
  NoDup (labels f) -> In ir f -> row_at (fst ir) f = Some ir.
Proof.
  induction f as [|[i a] f IH]; simpl; intros Hnd Hin; [contradiction|].
  apply NoDup_cons in Hnd. destruct Hnd as [Hi Hnd].
  destruct Hin as [<-|Hin]; simpl.
  - rewrite Z.eqb_refl. reflexivity.
  - destruct (Z.eqb_spec i (fst ir)) as [->|_]; [|auto].
    exfalso. apply Hi. apply list_elem_of_In, List.in_map, Hin.
Qed.

Lemma row_at_filter (p : Z * A -> bool) (f : frame A) ir :
  NoDup (labels f) -> In ir f ->
  row_at (fst ir) (List.filter p f) = if p ir then Some ir else None.
Proof.
  induction f as [|[i a] f IH]; simpl; intros Hnd Hin; [contradiction|].
  apply NoDup_cons in Hnd. destruct Hnd as [Hi Hnd].
  assert (Hfresh : row_at i (List.filter p f) = None).
  { apply row_at_None. intros H. apply Hi, list_elem_of_In.
    unfold labels in *. apply List.in_map_iff in H.
    destruct H as [x [Hx Hxin]]. apply List.filter_In in Hxin.
    apply List.in_map_iff. exists x. tauto. }
  destruct Hin as [<-|Hin]; simpl.
  - destruct (p (i, a)); simpl; [rewrite Z.eqb_refl; reflexivity | exact Hfresh].
  - assert (Hne : i <> fst ir).
    { intros ->. apply Hi, list_elem_of_In, List.in_map, Hin. }
    destruct (p (i, a)); simpl; [|auto].
    destruct (Z.eqb_spec i (fst ir)); [contradiction | auto].
Qed.

Lemma labels_filter_NoDup (p : Z * A -> bool) (f : frame A) :
  NoDup (labels f) -> NoDup (labels (List.filter p f)).
Proof.
  induction f as [|[i a] f IH]; simpl; intros Hnd; [constructor|].
  apply NoDup_cons in Hnd. destruct Hnd as [Hi Hnd].
  destruct (p (i, a)); simpl; [|auto].
  apply NoDup_cons. split; [|auto].
  intros H. apply Hi. apply list_elem_of_In. apply list_elem_of_In in H.
  unfold labels in *. apply List.in_map_iff in H.
  destruct H as [x [Hx Hxin]]. apply List.filter_In in Hxin.
  apply List.in_map_iff. exists x. tauto.
Qed.

(** A loop of cell writes, one per row of [xs], on the frame [acc]: every
    row of [acc] is rewritten by the row of [xs] that carries its label. *)
Lemma fold_at_set (g : A -> A -> A) (xs : frame A) :
  NoDup (labels xs) ->
  forall acc : frame A,
    List.fold_left (fun acc ir => at_set (fst ir) (g (snd ir)) acc) xs acc
    = List.map
        (fun jr => match row_at (fst jr) xs with
                   | Some ir => (fst jr, g (snd ir) (snd jr))
                   | None => jr
                   end) acc.
Proof.
  induction xs as [|[i a] xs IH]; intros Hnd acc; simpl.
  - symmetry. apply List.map_id.
  - apply NoDup_cons in Hnd. destruct Hnd as [Hi Hnd].
    rewrite IH by exact Hnd. unfold at_set. rewrite List.map_map.
    apply List.map_ext. intros [j b]. simpl.
    destruct (Z.eqb_spec j i) as [->|Hne]; simpl.
    + rewrite Z.eqb_refl. rewrite row_at_None; [reflexivity|].
      intros H. apply Hi, list_elem_of_In, H.
    + destruct (Z.eqb_spec i j); [congruence | reflexivity].
Qed.
End Frames.

(** ** [process.extract]: the head of the sorted list *)

Lemma insert_desc_In x y l : In x (insert_desc y l) <-> x = y \/ In x l.
Proof.
induction l as [|z l IH]; simpl; [intuition congruence|].
destruct (snd y <? snd z); simpl; [rewrite IH|]; intuition congruence.
Qed.

Lemma sort_desc_In x l : In x (sort_desc l) <-> In x l.
Proof.
induction l as [|y l IH]; simpl; [tauto|].
rewrite insert_desc_In, IH. intuition congruence.
Qed.

Lemma head_insert_desc x l :
  List.head (insert_desc x l)
  = match List.head l with
    | Some y => if snd y <=? snd x then Some x else Some y
    | None => Some x
    end.
Proof.
destruct l as [|y l]; simpl; [reflexivity|].
destruct (Z.ltb_spec (snd x) (snd y)), (Z.leb_spec (snd y) (snd x));
  try reflexivity; lia.
Qed.

Lemma head_sort_desc l : List.head (sort_desc l) = top l.
Proof.
induction l as [|x l IH]; simpl; [reflexivity|].
rewrite head_insert_desc, IH. reflexivity.
Qed.

Lemma top_In l b : top l = Some b -> In b l.
Proof.
revert b. induction l as [|x l IH]; simpl; intros b H; [discriminate|].
destruct (top l) as [c|].
- destruct (snd c <=? snd x); injection H as <-; auto.
- injection H as <-. auto.
Qed.

Lemma top_max l b : top l = Some b -> forall x, In x l -> snd x <= snd b.
Proof.
revert b. induction l as [|y l IH]; simpl; intros b H x Hx; [contradiction|].
destruct (top l) as [c|] eqn:E.
- specialize (IH c eq_refl).
  destruct (Z.leb_spec (snd c) (snd y)); injection H as <-;
    destruct Hx as [<-|Hx]; try lia; specialize (IH x Hx); lia.
- injection H as <-. destruct Hx as [<-|Hx]; [lia|].
  destruct l; [contradiction|]. simpl in E.
  destruct (top l) as [d|]; [destruct (snd d <=? snd p)|]; discriminate.
Qed.


Lemma top_filter k l :
  top (List.filter (fun p => k <=? snd p) l)
  = match top l with
    | Some b => if k <=? snd b then Some b else None
    | None => None
    end.
Proof.
induction l as [|x l IH]; simpl; [reflexivity|].
destruct (Z.leb_spec k (snd x)); simpl; rewrite IH; destruct (top l) as [b|]; simpl.
- destruct (Z.leb_spec k (snd b)), (Z.leb_spec (snd b) (snd x)); simpl;
    repeat match goal with |- context [?a <=? ?b] => destruct (Z.leb_spec a b) end;
    try reflexivity; lia.
- destruct (Z.leb_spec k (snd x)); [reflexivity | lia].
- destruct (Z.leb_spec k (snd b)), (Z.leb_spec (snd b) (snd x)); simpl;
    repeat match goal with |- context [?a <=? ?b] => destruct (Z.leb_spec a b) end;
    try reflexivity; lia.
- destruct (Z.leb_spec k (snd x)); [lia | reflexivity].
Qed.

Lemma firstn_head {A} n (l : list A) :
  List.head (List.firstn (S n) l) = List.head l.
Proof. destruct l; reflexivity. Qed.

Lemma firstn_In {A} n (l : list A) x : In x (List.firstn n l) -> In x l.
Proof.
revert l. induction n as [|n IH]; intros [|y l]; simpl; try tauto.
intros [->|H]; auto.
Qed.

Section ExtractFacts.

Variable extract_score : string -> string -> Z.

(** Every extracted pair is a choice with its score. *)
Lemma extract_In q choices limit m :
  In m (extract extract_score q choices limit) ->
  In (fst m) choices /\ snd m = extract_score q (fst m) /\ 0 <= snd m.
Proof.
unfold extract, extractWithoutOrder. intros H.
apply firstn_In in H. apply (proj1 (sort_desc_In _ _)) in H.
apply List.filter_In in H. destruct H as [H Hpos]. apply List.in_map_iff in H.
destruct H as [c [<- Hc]]. simpl in *. split; [exact Hc|]. split; [reflexivity | lia].
Qed.

(** The head of an extraction is the best candidate when that one has a
    non-negative score. *)
Lemma extract_head q choices n :
  List.head (extract extract_score q choices (S n))
  = match best_candidate extract_score q choices with
    | Some b => if 0 <=? snd b then Some b else None
    | None => None
    end.
Proof.
unfold extract, best_candidate, extractWithoutOrder.
rewrite firstn_head, head_sort_desc. apply top_filter.
Qed.

Lemma extract_below_head q choices n h m :
  List.head (extract extract_score q choices (S n)) = Some h ->
  In m (extract extract_score q choices (S n)) -> snd m <= snd h.
Proof.
unfold extract. rewrite firstn_head, head_sort_desc. intros Hh Hm.
apply firstn_In in Hm. apply (proj1 (sort_desc_In _ _)) in Hm.
eapply top_max; eassumption.
Qed.

End ExtractFacts.

(** ** The lookup dictionaries and the row selections *)

Lemma find_app {A} (p : A -> bool) l1 l2 :
  List.find p (l1 ++ l2)
  = match List.find p l1 with Some x => Some x | None => List.find p l2 end.
Proof.
induction l1 as [|x l1 IH]; simpl; [reflexivity|]. destruct (p x); auto.
Qed.

Lemma find_map {A B} (p : B -> bool) (h : A -> B) l :
  List.find p (List.map h l) = option_map h (List.find (fun x => p (h x)) l).
Proof.
induction l as [|x l IH]; simpl; [reflexivity|]. destruct (p (h x)); auto.
Qed.

(** [dict(zip(ks, vs))[k]] is the value paired with the last occurrence of
    [k]. *)
Lemma dict_zip_lookup ks vs k :
  dict_zip ks vs !! k
  = option_map snd
      (List.find (fun kv => String.eqb (fst kv) k) (List.rev (List.combine ks vs))).
Proof.
unfold dict_zip.
assert (H : forall l (m : gmap string string),
  List.fold_left (fun m kv => <[fst kv := snd kv]> m) l m !! k
  = match List.find (fun kv => String.eqb (fst kv) k) (List.rev l) with
    | Some kv => Some (snd kv)
    | None => m !! k
    end).
{ induction l as [|x l IH]; intros m; simpl; [reflexivity|].
  rewrite IH, find_app. simpl.
  destruct (List.find _ (List.rev l)); [reflexivity|].
  rewrite lookup_insert.
  destruct (String.eqb_spec (fst x) k) as [->|Hne].
  - rewrite decide_True by reflexivity. reflexivity.
  - rewrite decide_False by exact Hne. reflexivity. }
rewrite H. destruct (List.find _ _); [reflexivity | apply lookup_empty].
Qed.

Lemma combine_map {A B C} (f : A -> B) (g : A -> C) l :
  List.combine (List.map f l) (List.map g l) = List.map (fun x => (f x, g x)) l.
Proof. induction l; simpl; congruence. Qed.

Lemma name_lookup_last survey n :
  dict_zip (survey_names survey) (survey_statuses survey) !! n
  = last_status_by_name survey n.
Proof.
rewrite dict_zip_lookup. unfold survey_names, survey_statuses, last_status_by_name.
rewrite combine_map, <- List.map_rev, find_map. simpl.
destruct (List.find _ _); reflexivity.
Qed.

Lemma email_lookup_last survey e :
  dict_zip (survey_emails survey) (survey_statuses survey) !! e
  = last_status_by_email survey e.
Proof.
rewrite dict_zip_lookup. unfold survey_emails, survey_statuses, last_status_by_email.
rewrite combine_map, <- List.map_rev, find_map. simpl.
destruct (List.find _ _); reflexivity.
Qed.

(** Selecting by a name that occurs in the survey never raises. *)
Lemma first_by_name_In survey n :
  In n (survey_names survey) ->
  exists r, first_by_name survey n = Returns r
    /\ Survey.name_clean r = n
    /\ In r survey
    /\ first_status_by_name survey n = Some (Survey.Status r).
Proof.
unfold first_by_name, first_status_by_name, survey_names. intros H.
apply List.in_map_iff in H. destruct H as [r0 [Hr0 Hin]].
destruct (List.find _ survey) as [r|] eqn:E.
- apply List.find_some in E. destruct E as [Hr Heq].
  apply String.eqb_eq in Heq. exists r. auto.
- exfalso. pose proof (List.find_none _ _ E r0 Hin) as Hn. simpl in Hn.
  rewrite Hr0, String.eqb_refl in Hn. discriminate.
Qed.

Lemma first_by_email_In survey e :
  In e (survey_emails survey) ->
  exists r, first_by_email survey e = Returns r
    /\ Survey.email_clean r = e /\ In r survey.
Proof.
unfold first_by_email, survey_emails. intros H.
apply List.in_map_iff in H. destruct H as [r0 [Hr0 Hin]].
destruct (List.find _ survey) as [r|] eqn:E.
- apply List.find_some in E. destruct E as [Hr Heq].
  apply String.eqb_eq in Heq. exists r. auto.
- exfalso. pose proof (List.find_none _ _ E r0 Hin) as Hn. simpl in Hn.
  rewrite Hr0, String.eqb_refl in Hn. discriminate.
Qed.


(** ** The two passes, row by row *)

Lemma find_none_all {A} (p : A -> bool) l :
  (forall x, In x l -> p x = false) -> List.find p l = None.
Proof.
induction l as [|x l IH]; simpl; intros H; [reflexivity|].
rewrite (H x) by auto. apply IH. auto.
Qed.

Section RowFacts.

Variable extract_score : string -> string -> Z.
Variable ratio : string -> string -> Z.

(** The first extracted pair reaching a floor is the best candidate, when
    that one reaches the floor. *)
Lemma find_floor_extract floor q choices n :
  List.find (fun m => floor <=? snd m) (extract extract_score q choices (S n))
  = match best_candidate extract_score q choices with
    | Some b => if (0 <=? snd b) && (floor <=? snd b) then Some b else None
    | None => None
    end.
Proof.
pose proof (extract_head extract_score q choices n) as Hhead.
pose proof (extract_below_head extract_score q choices n) as Hbelow.
destruct (extract extract_score q choices (S n)) as [|h E]; simpl in *.
- destruct (best_candidate extract_score q choices) as [b|]; [|reflexivity].
  destruct (0 <=? snd b); [discriminate | reflexivity].
- destruct (best_candidate extract_score q choices) as [b|]; [|discriminate].
  destruct (0 <=? snd b); [|discriminate]. injection Hhead as ->. simpl.
  destruct (Z.leb_spec floor (snd b)); [reflexivity|].
  apply find_none_all. intros x Hx.
  specialize (Hbelow b x eq_refl (or_intror Hx)).
  apply Z.leb_gt. lia.
Qed.

Lemma filter_floor_extract floor q choices n :
  List.head (List.filter (fun m => floor <=? snd m)
               (extract extract_score q choices (S n)))
  = match best_candidate extract_score q choices with
    | Some b => if (0 <=? snd b) && (floor <=? snd b) then Some b else None
    | None => None
    end.
Proof.
rewrite <- find_floor_extract with (n := n).
induction (extract extract_score q choices (S n)) as [|h E IH]; simpl; [reflexivity|].
destruct (floor <=? snd h); [reflexivity | exact IH].
Qed.

Lemma best_candidate_In q choices b :
  best_candidate extract_score q choices = Some b ->
  In (fst b) choices /\ snd b = extract_score q (fst b).
Proof.
unfold best_candidate. intros H. apply top_In, List.in_map_iff in H.
destruct H as [c [<- Hc]]. auto.
Qed.

(** The loop body of [match_members] never raises, and decides as
    [stage_one] does. *)
Lemma match_row_reading survey row :
  match_row extract_score survey
    (dict_zip (survey_names survey) (survey_statuses survey))
    (dict_zip (survey_emails survey) (survey_statuses survey)) row
  = Returns (stage_one extract_score survey
               (Reg.name_clean (Res.reg row)) (Reg.email_clean (Res.reg row))).
Proof.
unfold match_row, stage_one.
set (name := Reg.name_clean (Res.reg row)).
set (email := Reg.email_clean (Res.reg row)).
rewrite email_lookup_last, name_lookup_last.
destruct (if Str.truthy email then last_status_by_email survey email else None);
  [reflexivity|].
destruct (if Str.truthy name then last_status_by_name survey name else None);
  [reflexivity|].
destruct (Str.truthy name) eqn:Hname; simpl.
2:{ destruct (best_candidate _ _ _) as [[b c]|]; reflexivity. }
unfold find_name_matches. rewrite Hname. simpl.
destruct (survey_names survey) as [|n0 names] eqn:Hnames; [reflexivity|].
rewrite <- Hnames.
pose proof (filter_floor_extract 80 name (survey_names survey) 4) as Hhead.
pose proof (best_candidate_In name (survey_names survey)) as Hin.
destruct (List.filter _ _) as [|[b c] F]; simpl in Hhead.
- destruct (best_candidate _ _ _) as [[b c]|]; [|reflexivity].
  simpl in Hhead. destruct (Z.leb_spec 85 c); [|reflexivity].
  exfalso. destruct (Z.leb_spec 0 c), (Z.leb_spec 80 c); simpl in *;
    try discriminate; lia.
- destruct (best_candidate _ _ _) as [[b' c']|]; [|discriminate].
  simpl in Hhead.
  destruct (Z.leb_spec 0 c'), (Z.leb_spec 80 c'); simpl in Hhead; try discriminate.
  injection Hhead as -> ->.
  destruct (Z.leb_spec 85 c'); [|reflexivity].
  destruct (Hin (b', c') eq_refl) as [Hb _]. simpl in Hb.
  destruct (first_by_name_In survey b' Hb) as [r [-> [_ [_ ->]]]]. reflexivity.
Qed.

Lemma strategy_partial_name_reading thr survey name :
  strategy_partial_name extract_score thr survey name no_pick
  = match partial_hit extract_score thr survey name with
    | Some h => chosen "Partial_Name" h
    | None => no_pick
    end.
Proof.
unfold strategy_partial_name, partial_hit.
change (picked no_pick) with false.
destruct (Str.truthy name); cbn [andb negb]; [|reflexivity].
destruct (2 <=? List.length (Str.split_ws name))%nat; [|reflexivity].
rewrite find_floor_extract.
destruct (best_candidate _ _ _) as [[b c]|]; [|reflexivity].
simpl. destruct ((0 <=? c) && (thr <=? c)); reflexivity.
Qed.

Lemma strategy_phonetic_reading thr survey name p :
  strategy_phonetic ratio thr survey name p
  = if picked p then p
    else match phonetic_hit ratio thr survey name with
         | Some h => chosen "Phonetic" h
         | None => p
         end.
Proof.
unfold strategy_phonetic, phonetic_hit.
destruct (picked p); [rewrite andb_false_r; reflexivity|]. rewrite andb_true_r.
destruct (Str.truthy name); [|reflexivity].
destruct (List.find _ _); reflexivity.
Qed.

Lemma strategy_email_username_reading thr survey email p :
  strategy_email_username ratio thr survey email p
  = Returns (if picked p then p
             else match email_hit ratio thr survey email with
                  | Some h => chosen "Email_Username" h
                  | None => p
                  end).
Proof.
unfold strategy_email_username, email_hit.
destruct (picked p); [rewrite andb_false_r; reflexivity|]. rewrite andb_true_r.
destruct (Str.truthy email && Str.has_char "@" email); [|reflexivity].
destruct (List.find _ (survey_emails survey)) as [se|] eqn:E; [|reflexivity].
apply List.find_some in E. destruct E as [Hin _].
destruct (first_by_email_In survey se Hin) as [r [Hr _]].
unfold first_by_email in *.
destruct (List.find _ survey); [|discriminate]. reflexivity.
Qed.

Lemma consonants_truthy s :
  (3 <? Str.len (consonants s)) = true -> Str.truthy s = true.
Proof. destruct s; [discriminate | reflexivity]. Qed.

Lemma phonetic_hit_named thr survey name h :
  phonetic_hit ratio thr survey name = Some h ->
  In (fst h) (survey_names survey) /\ Str.truthy (fst h) = true
  /\ thr + 10 <= snd h.
Proof.
unfold phonetic_hit. destruct (Str.truthy name); [|discriminate].
destruct (List.find _ _) as [n|] eqn:E; [|discriminate].
intros H. injection H as <-. simpl.
apply List.find_some in E. destruct E as [Hin Hp].
apply andb_prop in Hp. destruct Hp as [Hp Hthr].
apply andb_prop in Hp. destruct Hp as [_ Hlen].
split; [exact Hin|]. split; [apply consonants_truthy, Hlen|]. lia.
Qed.

Lemma partial_hit_named thr survey name h :
  partial_hit extract_score thr survey name = Some h ->
  In (fst h) (survey_names survey) /\ thr <= snd h /\ 0 <= snd h.
Proof.
unfold partial_hit.
destruct (Str.truthy name && _); [|discriminate].
destruct (best_candidate _ _ _) as [b|] eqn:E; [|discriminate].
destruct (Z.leb_spec 0 (snd b)), (Z.leb_spec thr (snd b)); simpl; try discriminate.
intros Heq. injection Heq as <-. apply best_candidate_In in E.
destruct E as [E _]. split; [exact E|]. split; assumption.
Qed.

Lemma email_hit_named thr survey email h :
  email_hit ratio thr survey email = Some h ->
  In (fst h) (survey_names survey) /\ thr <= snd h.
Proof.
unfold email_hit. destruct (Str.truthy email && _); [|discriminate].
destruct (List.find _ (survey_emails survey)) as [se|] eqn:E; [|discriminate].
destruct (List.find _ survey) as [r|] eqn:Er; [|discriminate].
intros H. injection H as <-. simpl.
apply List.find_some in E. destruct E as [_ Hp].
apply andb_prop in Hp. destruct Hp as [_ Hthr].
apply List.find_some in Er. destruct Er as [Hr _].
split; [apply List.in_map, Hr | lia].
Qed.

Lemma apply_pick_chosen survey type h :
  In (fst h) (survey_names survey) ->
  apply_pick survey (chosen type h)
  = Returns (match adopted (Some h) with
             | Some h' => tagged type survey h'
             | None => None
             end).
Proof.
intros Hin. unfold apply_pick, adopted. destruct h as [b c].
change (picked (chosen type (b, c))) with (Str.truthy b).
destruct (Str.truthy b); [|reflexivity].
destruct (first_by_name_In survey b Hin) as [r [Hr [_ [_ Hst]]]].
simpl. rewrite Hr. unfold tagged. simpl. rewrite Hst. reflexivity.
Qed.

Lemma improved_row_unfold thr survey person :
  improved_row extract_score ratio thr survey person
  = (p3 ← strategy_email_username ratio thr survey
            (Reg.email_clean (Res.reg person))
            (strategy_phonetic ratio thr survey (Reg.name_clean (Res.reg person))
               (strategy_partial_name extract_score thr survey
                  (Reg.name_clean (Res.reg person)) no_pick));
     apply_pick survey p3).
Proof. reflexivity. Qed.

Lemma bind_Returns {A B} (a : A) (k : A -> outcome B) :
  (x ← Returns a; k x) = k a.
Proof. reflexivity. Qed.

(** The loop body of [improved_matching] never raises, and decides as
    [stage_two] does. *)
Lemma improved_row_reading thr survey person :
  improved_row extract_score ratio thr survey person
  = Returns (stage_two extract_score ratio thr survey
               (Reg.name_clean (Res.reg person)) (Reg.email_clean (Res.reg person))).
Proof.
rewrite improved_row_unfold. unfold stage_two.
set (name := Reg.name_clean (Res.reg person)).
set (email := Reg.email_clean (Res.reg person)).
rewrite strategy_partial_name_reading, strategy_phonetic_reading,
  strategy_email_username_reading, bind_Returns.
pose proof (partial_hit_named thr survey name) as Hpart.
pose proof (phonetic_hit_named thr survey name) as Hphon.
pose proof (email_hit_named thr survey email) as Hmail.
assert (Hphonetic :
  forall p, picked p = false -> apply_pick survey p = Returns None ->
  apply_pick survey
    (if picked (if picked p then p
                else match phonetic_hit ratio thr survey name with
                     | Some h => chosen "Phonetic" h
                     | None => p
                     end)
     then (if picked p then p
           else match phonetic_hit ratio thr survey name with
                | Some h => chosen "Phonetic" h
                | None => p
                end)
     else match email_hit ratio thr survey email with
          | Some h => chosen "Email_Username" h
          | None => (if picked p then p
                     else match phonetic_hit ratio thr survey name with
                          | Some h => chosen "Phonetic" h
                          | None => p
                          end)
          end)
  = Returns
      (match adopted (phonetic_hit ratio thr survey name) with
       | Some h => tagged "Phonetic" survey h
       | None =>
           match adopted (email_hit ratio thr survey email) with
           | Some h => tagged "Email_Username" survey h
           | None => None
           end
       end)).
{ intros p Hp Hnone. rewrite Hp.
  destruct (phonetic_hit ratio thr survey name) as [[b2 c2]|].
  - destruct (Hphon (b2, c2) eq_refl) as [Hin [Ht _]]. simpl in Ht, Hin.
    change (picked (chosen "Phonetic" (b2, c2))) with (Str.truthy b2).
    rewrite Ht. rewrite apply_pick_chosen by exact Hin.
    simpl. rewrite Ht. reflexivity.
  - rewrite Hp. simpl adopted. cbv iota.
    destruct (email_hit ratio thr survey email) as [[b3 c3]|].
    + destruct (Hmail (b3, c3) eq_refl) as [Hin _].
      apply apply_pick_chosen. exact Hin.
    + exact Hnone. }
destruct (partial_hit extract_score thr survey name) as [[b c]|].
- destruct (Hpart (b, c) eq_refl) as [Hin _]. simpl in Hin.
  destruct (Str.truthy b) eqn:Hb.
  + assert (Hpk : picked (chosen "Partial_Name" (b, c)) = true) by exact Hb.
    rewrite !Hpk. rewrite apply_pick_chosen by exact Hin.
    simpl. rewrite Hb. reflexivity.
  + assert (Hpk : picked (chosen "Partial_Name" (b, c)) = false) by exact Hb.
    rewrite Hphonetic.
    * simpl. rewrite Hb. reflexivity.
    * exact Hpk.
    * unfold apply_pick. rewrite Hpk. reflexivity.
- apply Hphonetic; reflexivity.
Qed.

End RowFacts.

(** ** The two passes, frame by frame *)

Lemma apply_result_at_set idx u (acc : frame Res.row) :
  apply_result idx u acc = at_set idx (write_result u) acc.
Proof.
destruct u as [[[st ty] c]|]; simpl; [reflexivity|].
unfold at_set. symmetry. rewrite <- (List.map_id acc) at 2.
apply List.map_ext. intros [i r]. simpl. destruct (i =? idx); reflexivity.
Qed.

Lemma labels_map {A B} (h : A -> B) (f : frame A) :
  labels (List.map (fun ir => (fst ir, h (snd ir))) f) = labels f.
Proof. unfold labels. rewrite List.map_map. reflexivity. Qed.

Section FrameFacts.

Variable extract_score : string -> string -> Z.
Variable ratio : string -> string -> Z.

Lemma matched_row_reading survey r :
  matched_row extract_score survey r
  = write_result
      (stage_one extract_score survey (Reg.name_clean r) (Reg.email_clean r))
      (unmatched_result r).
Proof. unfold matched_row. rewrite match_row_reading. reflexivity. Qed.

Lemma improved_result_reading thr survey res :
  improved_result extract_score ratio thr survey res
  = if is_unknown res then
      write_result
        (stage_two extract_score ratio thr survey
           (Reg.name_clean (Res.reg res)) (Reg.email_clean (Res.reg res))) res
    else res.
Proof. unfold improved_result. rewrite improved_row_reading. reflexivity. Qed.

(** On a frame with distinct labels, [match_members] returns the frame of
    the [matched_row]s, in input order and under the same labels. *)
Lemma match_members_reading dp year regs :
  NoDup (labels regs) ->
  registrations_of dp year = Returns regs ->
  match_members extract_score dp year
  = Returns (List.map
               (fun ir => (fst ir, matched_row extract_score (retention_survey dp) (snd ir)))
               regs).
Proof.
intros Hnd Hregs. unfold match_members. rewrite Hregs, bind_Returns.
set (survey := retention_survey dp).
set (results := List.map (fun ir => (fst ir, unmatched_result (snd ir))) regs).
rewrite (for_each_pure
  (fun acc ir =>
     at_set (fst ir)
       ((fun r => write_result
           (stage_one extract_score survey
              (Reg.name_clean (Res.reg r)) (Reg.email_clean (Res.reg r))))
          (snd ir)) acc)).
2:{ intros acc ir _. rewrite match_row_reading, bind_Returns.
    rewrite apply_result_at_set. reflexivity. }
assert (Hndr : NoDup (labels results)).
{ unfold results. rewrite labels_map. exact Hnd. }
rewrite (fold_at_set
  (fun r => write_result
     (stage_one extract_score survey
        (Reg.name_clean (Res.reg r)) (Reg.email_clean (Res.reg r))))
  results Hndr).
f_equal. unfold results at 2. rewrite List.map_map.
apply List.map_ext_in. intros ir Hin.
assert (Hin' : In (fst ir, unmatched_result (snd ir)) results).
{ unfold results. apply List.in_map_iff. exists ir. auto. }
rewrite (row_at_self results _ Hndr Hin'). simpl.
rewrite matched_row_reading. reflexivity.
Qed.

(** On a frame with distinct labels, [improved_matching] returns the frame
    of the [improved_result]s of the [matched_row]s. *)
Lemma improved_matching_reading dp year thr regs :
  NoDup (labels regs) ->
  registrations_of dp year = Returns regs ->
  improved_matching extract_score ratio dp year thr
  = Returns (List.map
               (fun ir =>
                  (fst ir,
                   improved_result extract_score ratio thr (retention_survey dp)
                     (matched_row extract_score (retention_survey dp) (snd ir))))
               regs).
Proof.
intros Hnd Hregs. unfold improved_matching.
rewrite (match_members_reading dp year regs Hnd Hregs), bind_Returns.
set (survey := retention_survey dp).
set (orig := List.map (fun ir => (fst ir, matched_row extract_score survey (snd ir))) regs).
assert (Hndo : NoDup (labels orig)).
{ unfold orig. rewrite labels_map. exact Hnd. }
rewrite (for_each_pure
  (fun acc ir =>
     at_set (fst ir)
       ((fun r => write_result
           (stage_two extract_score ratio thr survey
              (Reg.name_clean (Res.reg r)) (Reg.email_clean (Res.reg r))))
          (snd ir)) acc)).
2:{ intros acc ir _. rewrite improved_row_reading, bind_Returns.
    rewrite apply_result_at_set. reflexivity. }
rewrite (fold_at_set
  (fun r => write_result
     (stage_two extract_score ratio thr survey
        (Reg.name_clean (Res.reg r)) (Reg.email_clean (Res.reg r))))
  (unmatched_of orig) (labels_filter_NoDup _ orig Hndo)).
f_equal. unfold orig at 2. rewrite List.map_map.
apply List.map_ext_in. intros ir Hin.
assert (Hin' : In (fst ir, matched_row extract_score survey (snd ir)) orig).
{ unfold orig. apply List.in_map_iff. exists ir. auto. }
unfold unmatched_of.
rewrite (row_at_filter (fun ir => is_unknown (snd ir)) orig _ Hndo Hin').
simpl. rewrite improved_result_reading.
destruct (is_unknown (matched_row extract_score survey (snd ir))); reflexivity.
Qed.

End FrameFacts.

(** ** What a decision can be *)

Lemma find_status_In (p : Survey.row -> bool) survey st :
  option_map Survey.Status (List.find p survey) = Some st ->
  exists r, In r survey /\ p r = true /\ Survey.Status r = st.
Proof.
destruct (List.find p survey) as [r|] eqn:E; [|discriminate].
intros H. injection H as <-. apply List.find_some in E. exists r. tauto.
Qed.

Lemma first_status_In survey n st :
  first_status_by_name survey n = Some st ->
  exists r, In r survey /\ Survey.name_clean r = n /\ Survey.Status r = st.
Proof.
intros H. apply find_status_In in H. destruct H as [r [Hin [Hn Hst]]].
apply String.eqb_eq in Hn. eauto.
Qed.

Lemma last_status_name_In survey n st :
  last_status_by_name survey n = Some st ->
  exists r, In r survey /\ Survey.name_clean r = n /\ Survey.Status r = st.
Proof.
intros H. apply find_status_In in H. destruct H as [r [Hin [Hn Hst]]].
apply String.eqb_eq in Hn. apply List.in_rev in Hin. eauto.
Qed.

Lemma last_status_email_In survey e st :
  last_status_by_email survey e = Some st ->
  exists r, In r survey /\ Survey.email_clean r = e /\ Survey.Status r = st.
Proof.
intros H. apply find_status_In in H. destruct H as [r [Hin [Hn Hst]]].
apply String.eqb_eq in Hn. apply List.in_rev in Hin. eauto.
Qed.




Section DecisionFacts.

Variable extract_score : string -> string -> Z.
Variable ratio : string -> string -> Z.

(** The three ways the first stage decides. *)
Lemma stage_one_cases survey name email st ty c :
  stage_one extract_score survey name email = Some (st, ty, c) ->
  (ty = "Email" /\ c = 100 /\ Str.truthy email = true
     /\ last_status_by_email survey email = Some st)
  \/ (ty = "Name_Exact" /\ c = 100 /\ Str.truthy name = true
     /\ last_status_by_name survey name = Some st)
  \/ (ty = "Name_Fuzzy" /\ 85 <= c /\ Str.truthy name = true
     /\ exists best,
          best_candidate extract_score name (survey_names survey) = Some (best, c)
          /\ first_status_by_name survey best = Some st).
Proof.
unfold stage_one.
destruct (Str.truthy email) eqn:He.
- destruct (last_status_by_email survey email) as [s|] eqn:El.
  + intros Heq. injection Heq as <- <- <-. left. auto.
  + destruct (Str.truthy name) eqn:Hn.
    * destruct (last_status_by_name survey name) as [s|] eqn:Eln.
      -- intros Heq. injection Heq as <- <- <-. right. left. auto.
      -- destruct (best_candidate _ _ _) as [[b c']|]; [|discriminate].
         simpl. destruct (Z.leb_spec 85 c') as [Hge|Hlt]; [|discriminate].
         destruct (first_status_by_name survey b) as [s|] eqn:Ef; [|discriminate].
         intros Heq. injection Heq as <- <- <-. right. right.
         repeat split; auto. exists b. auto.
    * destruct (best_candidate _ _ _) as [[b c']|]; discriminate.
- destruct (Str.truthy name) eqn:Hn.
  + destruct (last_status_by_name survey name) as [s|] eqn:Eln.
    * intros Heq. injection Heq as <- <- <-. right. left. auto.
    * destruct (best_candidate _ _ _) as [[b c']|]; [|discriminate].
      simpl. destruct (Z.leb_spec 85 c') as [Hge|Hlt]; [|discriminate].
      destruct (first_status_by_name survey b) as [s|] eqn:Ef; [|discriminate].
      intros Heq. injection Heq as <- <- <-. right. right.
      repeat split; auto. exists b. auto.
  + destruct (best_candidate _ _ _) as [[b c']|]; discriminate.
Qed.

Lemma adopted_Some h x : adopted h = Some x -> h = Some x /\ Str.truthy (fst x) = true.
Proof.
destruct h as [[n c]|]; simpl; [|discriminate].
destruct (Str.truthy n) eqn:E; [|discriminate]. intros H. injection H as <-. auto.
Qed.

Lemma tagged_Some type survey h st ty c :
  tagged type survey h = Some (st, ty, c) ->
  ty = type /\ c = snd h /\ first_status_by_name survey (fst h) = Some st.
Proof.
unfold tagged. destruct (first_status_by_name survey (fst h)); [|discriminate].
simpl. intros H. injection H as <- <- <-. auto.
Qed.

(** The three ways the second pass decides. *)
Lemma stage_two_cases thr survey name email st ty c :
  stage_two extract_score ratio thr survey name email = Some (st, ty, c) ->
  exists best,
    Str.truthy best = true /\ first_status_by_name survey best = Some st
    /\ ((ty = "Partial_Name" /\ thr <= c /\ 0 <= c
         /\ partial_hit extract_score thr survey name = Some (best, c))
        \/ (ty = "Phonetic" /\ thr + 10 <= c
            /\ phonetic_hit ratio thr survey name = Some (best, c))
        \/ (ty = "Email_Username" /\ thr <= c
            /\ email_hit ratio thr survey email = Some (best, c))).
Proof.
unfold stage_two.
destruct (adopted (partial_hit extract_score thr survey name)) as [h|] eqn:E1.
{ intros H. apply tagged_Some in H. destruct H as [-> [-> Hst]].
  apply adopted_Some in E1. destruct E1 as [E1 Ht].
  destruct (partial_hit_named extract_score thr survey name h E1) as [_ [? ?]].
  exists (fst h). split; [exact Ht|]. split; [exact Hst|]. left.
  destruct h; auto. }
destruct (adopted (phonetic_hit ratio thr survey name)) as [h|] eqn:E2.
{ intros H. apply tagged_Some in H. destruct H as [-> [-> Hst]].
  apply adopted_Some in E2. destruct E2 as [E2 Ht].
  destruct (phonetic_hit_named ratio thr survey name h E2) as [_ [_ ?]].
  exists (fst h). split; [exact Ht|]. split; [exact Hst|]. right. left.
  destruct h; auto. }
destruct (adopted (email_hit ratio thr survey email)) as [h|] eqn:E3; [|discriminate].
intros H. apply tagged_Some in H. destruct H as [-> [-> Hst]].
apply adopted_Some in E3. destruct E3 as [E3 Ht].
destruct (email_hit_named ratio thr survey email h E3) as [_ ?].
exists (fst h). split; [exact Ht|]. split; [exact Hst|]. right. right.
destruct h; auto.
Qed.

End DecisionFacts.

(** ** The diagnostics *)

Lemma for_each_raises {A S} (body : S -> A -> outcome S) xs : forall s e,
  for_each body xs s = Raises e -> exists s' x, In x xs /\ body s' x = Raises e.
Proof.
induction xs as [|x xs IH]; intros s e; simpl; [discriminate|].
destruct (body s x) as [s1|e1] eqn:E; simpl.
- intros H. destruct (IH s1 e H) as [s' [y [Hy Hb]]]. exists s', y. auto.
- intros H. injection H as <-. exists s, x. auto.
Qed.

Lemma for_each_invariant {A S} (P : S -> Prop) (body : S -> A -> outcome S) xs :
  (forall s x s', In x xs -> P s -> body s x = Returns s' -> P s') ->
  forall s s', P s -> for_each body xs s = Returns s' -> P s'.
Proof.
induction xs as [|x xs IH]; intros Hstep s s' Hs; simpl.
- intros H. injection H as <-. exact Hs.
- destruct (body s x) as [s1|e1] eqn:E; simpl; [|discriminate].
  apply IH.
  + intros s0 y s0' Hy. apply Hstep. right. exact Hy.
  + apply (Hstep s x s1); [left; reflexivity | exact Hs | exact E].
Qed.

Section DiagnosticsFacts.

Variable extract_score : string -> string -> Z.
Variable ratio : string -> string -> Z.
Variable re_compile : string -> option (string -> bool).

Lemma collect_named_returns type floor variant survey all extracted :
  forall matches,
  (forall m, In m extracted -> In m all) ->
  (forall m, In m all -> In (fst m) (survey_names survey)) ->
  exists added,
    collect_named type floor variant survey extracted matches
    = Returns (matches ++ added)
    /\ List.Forall (drawn type floor variant survey all) added.
Proof.
unfold collect_named.
induction extracted as [|m extracted IH]; intros matches Hsub Hin; simpl.
- exists []. rewrite List.app_nil_r. auto.
- assert (Hsub' : forall m', In m' extracted -> In m' all)
    by (intros m' Hm'; apply Hsub; right; exact Hm').
  destruct (Z.leb_spec floor (snd m)) as [Hge|Hlt].
  + destruct (first_by_name_In survey (fst m)) as [r [Hr _]];
      [apply Hin, Hsub; left; reflexivity|].
    rewrite Hr. simpl.
    destruct (IH (matches ++ [candidate type (snd m) r variant]) Hsub' Hin)
      as [added [-> Hok]].
    exists (candidate type (snd m) r variant :: added).
    rewrite <- List.app_assoc. simpl. split; [reflexivity|].
    constructor; [|exact Hok].
    exists m, r. split; [apply Hsub; left; reflexivity|]. auto.
  + simpl. destruct (IH matches Hsub' Hin) as [added [-> Hok]].
    exists added. auto.
Qed.

Lemma extract_names q choices limit m :
  In m (extract extract_score q choices limit) -> In (fst m) choices.
Proof. intros H. apply extract_In in H. destruct H as [H _]. exact H. Qed.

Lemma partial_candidates_returns survey name matches :
  exists added,
    partial_candidates extract_score survey name matches = Returns (matches ++ added)
    /\ List.Forall (partial_candidate extract_score survey name) added.
Proof.
unfold partial_candidates.
destruct (Str.truthy name);
  [|exists []; rewrite List.app_nil_r; auto].
destruct (2 <=? List.length (Str.split_ws name))%nat;
  [|exists []; rewrite List.app_nil_r; auto].
apply collect_named_returns; [auto|]. intros m. apply extract_names.
Qed.

Lemma variant_candidates_returns survey name matches :
  exists added,
    variant_candidates extract_score survey name matches = Returns (matches ++ added)
    /\ List.Forall (variant_candidate extract_score survey name) added.
Proof.
unfold variant_candidates, variant_candidate.
destruct (Str.truthy name);
  [|exists []; rewrite List.app_nil_r; auto].
assert (H : forall variants matches,
  (forall v, In v variants -> In v (_generate_name_variants name)) ->
  exists added,
    for_each
      (fun acc variant =>
         collect_named "name_variant" 80 (Some variant) survey
           (extract extract_score variant (survey_names survey) 2) acc)
      variants matches = Returns (matches ++ added)
    /\ List.Forall
         (fun c => exists v,
            In v (_generate_name_variants name)
            /\ drawn "name_variant" 80 (Some v) survey
                 (extract extract_score v (survey_names survey) 2) c) added).
{ induction variants as [|v variants IH]; intros acc Hsub; simpl.
  - exists []. rewrite List.app_nil_r. auto.
  - destruct (collect_named_returns "name_variant" 80 (Some v) survey
                (extract extract_score v (survey_names survey) 2)
                (extract extract_score v (survey_names survey) 2) acc)
      as [added [-> Hok]]; [auto | intros m; apply extract_names |].
    simpl.
    destruct (IH (acc ++ added)) as [added' [-> Hok']];
      [intros v' Hv'; apply Hsub; right; exact Hv'|].
    exists (added ++ added'). rewrite List.app_assoc. split; [reflexivity|].
    apply List.Forall_app. split; [|exact Hok'].
    eapply List.Forall_impl; [|exact Hok]. intros c Hc.
    exists v. split; [apply Hsub; left; reflexivity | exact Hc]. }
apply H. auto.
Qed.

Lemma email_candidates_outcome survey email matches :
  email_candidates ratio re_compile survey email matches = Raises ReError
  \/ exists added,
       email_candidates ratio re_compile survey email matches
       = Returns (matches ++ added)
       /\ List.Forall (email_candidate ratio re_compile survey email) added.
Proof.
unfold email_candidates, email_candidate.
destruct (Str.truthy email && Str.has_char "@" email);
  [|right; exists []; rewrite List.app_nil_r; auto].
destruct (re_compile _) as [found|] eqn:Hre; [|left; reflexivity].
right. eexists. split; [reflexivity|].
apply List.Forall_forall. intros c Hc.
apply List.in_map_iff in Hc. destruct Hc as [r [<- Hr]].
apply List.filter_In in Hr. destruct Hr as [Hr Hscore].
apply List.filter_In in Hr. destruct Hr as [Hr Hfound].
exists found, r. split; [reflexivity|]. split; [exact Hr|].
split; [exact Hfound|]. split; [lia | reflexivity].
Qed.

(** The candidates of one person: the search for [@domain] may be refused,
    nothing else raises, and every candidate comes from one of the three
    collectors. *)
Lemma person_matches_outcome survey name email :
  person_matches extract_score ratio re_compile survey name email = Raises ReError
  \/ exists matches,
       person_matches extract_score ratio re_compile survey name email
       = Returns matches
       /\ List.Forall (collected extract_score ratio re_compile survey name email)
            matches.
Proof.
unfold person_matches.
destruct (partial_candidates_returns survey name []) as [a1 [-> H1]]. simpl.
destruct (email_candidates_outcome survey email a1) as [->|[a2 [-> H2]]];
  [left; reflexivity|]. simpl.
destruct (variant_candidates_returns survey name (a1 ++ a2)) as [a3 [-> H3]].
right. eexists. split; [reflexivity|].
repeat (apply List.Forall_app; split).
- eapply List.Forall_impl; [|exact H1]. intros c Hc. left. exact Hc.
- eapply List.Forall_impl; [|exact H2]. intros c Hc. right. left. exact Hc.
- eapply List.Forall_impl; [|exact H3]. intros c Hc. right. right. exact Hc.
Qed.

Lemma find_potential_outcome dp unmatched year :
  _find_potential_matches extract_score ratio re_compile dp unmatched year
  = Raises ReError
  \/ exists pm,
       _find_potential_matches extract_score ratio re_compile dp unmatched year
       = Returns pm
       /\ List.Forall
            (entry_of extract_score ratio re_compile (retention_survey dp) unmatched)
            pm.
Proof.
unfold _find_potential_matches.
set (survey := retention_survey dp).
set (entry := entry_of extract_score ratio re_compile survey unmatched).
match goal with |- for_each ?b _ _ = _ \/ _ => set (body := b) end.
assert (Hstep : forall acc ip,
  body acc ip = Raises ReError
  \/ exists acc', body acc ip = Returns acc'
       /\ (In ip unmatched -> List.Forall entry acc -> List.Forall entry acc')).
{ intros acc ip. unfold body.
  destruct (person_matches_outcome survey
              (Reg.name_clean (Res.reg (Unm.res (snd ip))))
              (Reg.email_clean (Res.reg (Unm.res (snd ip)))))
    as [->|[matches [Hm Hok]]]; [left; reflexivity|].
  right. rewrite Hm, bind_Returns.
  destruct matches as [|c matches]; eexists; (split; [reflexivity|]).
  - intros _ Hacc. exact Hacc.
  - intros Hip Hacc. apply List.Forall_app. split; [exact Hacc|].
    constructor; [|constructor].
    exists ip, (c :: matches). simpl.
    split; [exact Hip|]. split; [discriminate|]. auto. }
destruct (for_each body unmatched []) as [pm|e] eqn:E.
- right. exists pm. split; [reflexivity|].
  refine (for_each_invariant (List.Forall entry) body unmatched _ [] pm
            (List.Forall_nil _) E).
  intros acc ip acc' Hip Hacc Hb.
  destruct (Hstep acc ip) as [Hr|[acc2 [Hr Hkeep]]]; rewrite Hr in Hb;
    [discriminate|].
  injection Hb as <-. auto.
- left. apply for_each_raises in E. destruct E as [acc [ip [_ Hb]]].
  destruct (Hstep acc ip) as [Hr|[acc2 [Hr _]]]; rewrite Hr in Hb;
    [congruence | discriminate].
Qed.

End DiagnosticsFacts.

(** ** The year selector and the analyzer *)

Lemma registrations_of_valid dp year :
  valid_year year = true ->
  exists regs, registrations_of dp year = Returns regs
    /\ (regs = registrations_2023 dp \/ regs = registrations_2024 dp).
Proof.
unfold valid_year, registrations_of. intros H.
destruct (year =? 2023); [eauto|]. destruct (year =? 2024); [eauto | discriminate].
Qed.

Lemma registrations_of_invalid dp year :
  valid_year year = false ->
  registrations_of dp year = Raises (ValueError "Year must be 2023 or 2024").
Proof.
unfold valid_year, registrations_of. intros H.
destruct (year =? 2023); [discriminate|]. destruct (year =? 2024); [discriminate|].
reflexivity.
Qed.

Section AnalyzerFacts.

Variable extract_score : string -> string -> Z.
Variable ratio : string -> string -> Z.
Variable re_compile : string -> option (string -> bool).

(** Whatever the labels, the two passes return once the year is accepted. *)
Lemma match_members_returns dp year regs :
  registrations_of dp year = Returns regs ->
  exists results, match_members extract_score dp year = Returns results.
Proof.
intros Hregs. unfold match_members. rewrite Hregs, bind_Returns.
eexists. apply for_each_pure with
  (f := fun acc ir =>
     apply_result (fst ir)
       (stage_one extract_score (retention_survey dp)
          (Reg.name_clean (Res.reg (snd ir))) (Reg.email_clean (Res.reg (snd ir))))
       acc).
intros acc ir _. rewrite match_row_reading. reflexivity.
Qed.

Lemma improved_matching_returns dp year thr regs :
  registrations_of dp year = Returns regs ->
  exists results, improved_matching extract_score ratio dp year thr = Returns results.
Proof.
intros Hregs. unfold improved_matching.
destruct (match_members_returns dp year regs Hregs) as [orig ->].
rewrite bind_Returns.
eexists. apply for_each_pure with
  (f := fun acc ir =>
     apply_result (fst ir)
       (stage_two extract_score ratio thr (retention_survey dp)
          (Reg.name_clean (Res.reg (snd ir))) (Reg.email_clean (Res.reg (snd ir))))
       acc).
intros acc ir _. rewrite improved_row_reading. reflexivity.
Qed.

Lemma match_members_invalid dp year :
  valid_year year = false ->
  match_members extract_score dp year
  = Raises (ValueError "Year must be 2023 or 2024").
Proof.
intros H. unfold match_members. rewrite (registrations_of_invalid dp year H).
reflexivity.
Qed.

(** The ways [analyze_unmatched_records] ends for an accepted year: a
    division by zero on an empty roster, a refused [@domain] pattern, or the
    analysis, stored under the year in an analyzer whose processor is the
    one it started with. *)
Lemma analyze_outcome self year :
  valid_year year = true ->
  analyze_unmatched_records extract_score ratio re_compile self year
  = Raises ZeroDivisionError
  \/ analyze_unmatched_records extract_score ratio re_compile self year
     = Raises ReError
  \/ exists a,
       analyze_unmatched_records extract_score ratio re_compile self year
       = Returns ({| data_processor := data_processor self;
                     unmatched_analysis := <[year := a]> (unmatched_analysis self) |},
                  a).
Proof.
intros Hyear. unfold analyze_unmatched_records.
destruct (registrations_of_valid (data_processor self) year Hyear) as [regs [Hregs _]].
rewrite Hregs, bind_Returns.
destruct (match_members_returns (data_processor self) year regs Hregs) as [orig ->].
rewrite bind_Returns.
destruct regs as [|r0 regs]; [left; reflexivity|]. rewrite bind_Returns.
destruct (find_potential_outcome extract_score ratio re_compile
            (data_processor self)
            (snd (_analyze_unmatched_patterns (unmatched_of orig))) year)
  as [->|[pm [-> _]]].
- right. left. reflexivity.
- right. right. eexists. reflexivity.
Qed.

End AnalyzerFacts.

(** ** Result rows *)

Lemma truthy_nonempty s : s <> "" -> Str.truthy s = true.
Proof. destruct s; [congruence | reflexivity]. Qed.

Lemma truthy_empty s : Str.truthy s = false -> s = "".
Proof. destruct s; [reflexivity | discriminate]. Qed.

Lemma nth_error_rows {A B} (h : A -> B) (f : frame A) i idx a :
  List.nth_error f i = Some (idx, a) ->
  List.nth_error (List.map (fun ir => (fst ir, h (snd ir))) f) i = Some (idx, h a).
Proof. intros H. rewrite List.nth_error_map, H. reflexivity. Qed.

Lemma nth_error_rows_inv {A B} (h : A -> B) (f : frame A) i idx b :
  List.nth_error (List.map (fun ir => (fst ir, h (snd ir))) f) i = Some (idx, b) ->
  exists a, List.nth_error f i = Some (idx, a) /\ b = h a.
Proof.
rewrite List.nth_error_map. destruct (List.nth_error f i) as [[j a]|]; [|discriminate].
simpl. intros H. injection H as <- <-. eauto.
Qed.

Section ResultFacts.

Variable extract_score : string -> string -> Z.
Variable ratio : string -> string -> Z.

Lemma matched_row_cases survey r :
  matched_row extract_score survey r = unmatched_result r
  \/ exists st ty c,
       stage_one extract_score survey (Reg.name_clean r) (Reg.email_clean r)
       = Some (st, ty, c)
       /\ matched_row extract_score survey r = set_result st ty c (unmatched_result r)
       /\ (ty = "Email" \/ ty = "Name_Exact" \/ ty = "Name_Fuzzy")
       /\ 85 <= c
       /\ exists s, In s survey /\ Survey.Status s = st.
Proof.
rewrite matched_row_reading.
destruct (stage_one extract_score survey (Reg.name_clean r) (Reg.email_clean r))
  as [[[st ty] c]|] eqn:E; [|left; reflexivity].
right. exists st, ty, c. split; [reflexivity|]. split; [reflexivity|].
destruct (stage_one_cases extract_score survey _ _ st ty c E)
  as [[-> [-> [_ Hl]]]|[[-> [-> [_ Hl]]]|[-> [Hc [_ [best [_ Hf]]]]]]].
- apply last_status_email_In in Hl. destruct Hl as [s [? [_ ?]]].
  split; [auto|]. split; [lia | eauto].
- apply last_status_name_In in Hl. destruct Hl as [s [? [_ ?]]].
  split; [auto|]. split; [lia | eauto].
- apply first_status_In in Hf. destruct Hf as [s [? [_ ?]]].
  split; [auto|]. split; [lia | eauto].
Qed.

Lemma improved_result_cases thr survey res :
  improved_result extract_score ratio thr survey res = res
  \/ exists st ty c,
       is_unknown res = true
       /\ stage_two extract_score ratio thr survey
            (Reg.name_clean (Res.reg res)) (Reg.email_clean (Res.reg res))
          = Some (st, ty, c)
       /\ improved_result extract_score ratio thr survey res = set_result st ty c res
       /\ (ty = "Partial_Name" \/ ty = "Phonetic" \/ ty = "Email_Username")
       /\ (0 < thr -> 0 < c)
       /\ exists s, In s survey /\ Survey.Status s = st.
Proof.
rewrite improved_result_reading.
destruct (is_unknown res) eqn:Hu; [|left; reflexivity].
destruct (stage_two extract_score ratio thr survey _ _) as [[[st ty] c]|] eqn:E;
  [|left; reflexivity].
right. exists st, ty, c. split; [reflexivity|]. split; [reflexivity|].
split; [reflexivity|].
destruct (stage_two_cases extract_score ratio thr survey _ _ st ty c E)
  as [best [_ [Hf Hty]]].
apply first_status_In in Hf. destruct Hf as [s [? [_ ?]]].
destruct Hty as [[-> [? _]]|[[-> [? _]]|[-> [? _]]]];
  (split; [auto|]); (split; [lia | eauto]).
Qed.

End ResultFacts.

(** * The claims *)

(** ** C4: idempotence of the normalizers *)

(** C4, as amended.  [clean_emails] is idempotent on every input.
    [clean_names] is idempotent on every input whose cleaned form holds no
    run of blanks and no honorific, that is, whose cleaned form is left
    unchanged by the whitespace-collapsing and the honorific-deleting
    steps. *)
Theorem normalizers_idempotent :
  (forall x, clean_emails (clean_emails x) = clean_emails x)
  /\ (forall x,
        Str.collapse_ws (clean_names x) = clean_names x ->
        Str.sub_titles (clean_names x) = clean_names x ->
        clean_names (clean_names x) = clean_names x).
Proof.
split.
- exact NormalizerFacts.clean_emails_idempotent.
- exact NormalizerFacts.clean_names_fixed.
Qed.

Lemma normalizers_idempotent_witness :
  clean_emails (clean_emails " Bob@X.ca; other@y.org")
  = clean_emails " Bob@X.ca; other@y.org"
  /\ clean_names (clean_names "Dr. Robert  J. Smith ")
     = clean_names "Dr. Robert  J. Smith ".
Proof.
split.
- apply (proj1 normalizers_idempotent).
- apply (proj2 normalizers_idempotent); vm_compute; reflexivity.
Defined.

(** C4, as stated, fails for names: deleting the honorific of ["a mr b"]
    leaves two blanks, which a second cleaning collapses. *)
Lemma clean_names_not_idempotent :
  clean_names "a mr b" = "a  b"
  /\ clean_names (clean_names "a mr b") = "a b"
  /\ clean_names (clean_names "a mr b") <> clean_names "a mr b".
Proof.
assert (H1 : clean_names "a mr b" = "a  b") by (vm_compute; reflexivity).
assert (H2 : clean_names (clean_names "a mr b") = "a b") by (vm_compute; reflexivity).
split; [exact H1|]. split; [exact H2|]. rewrite H2, H1. discriminate.
Qed.

(** ** C9: the year selector *)

(** C9.  For a year other than 2023 and 2024, [match_members],
    [improved_matching] and [analyze_unmatched_records] raise
    [ValueError]; for 2023 and 2024 the two matchers return a frame and the
    analyzer raises no [ValueError]. *)
Theorem year_selector_checked
    (extract_score ratio : string -> string -> Z)
    (re_compile : string -> option (string -> bool))
    (self : MatchingAnalyzer) (year confidence_threshold : Z) :
  (year <> 2023 /\ year <> 2024 ->
     match_members extract_score (data_processor self) year
     = Raises (ValueError "Year must be 2023 or 2024")
     /\ improved_matching extract_score ratio (data_processor self) year
          confidence_threshold
        = Raises (ValueError "Year must be 2023 or 2024")
     /\ analyze_unmatched_records extract_score ratio re_compile self year
        = Raises (ValueError "Year must be 2023 or 2024"))
  /\ (year = 2023 \/ year = 2024 ->
     (exists results,
        match_members extract_score (data_processor self) year = Returns results)
     /\ (exists results,
           improved_matching extract_score ratio (data_processor self) year
             confidence_threshold = Returns results)
     /\ (forall msg,
           analyze_unmatched_records extract_score ratio re_compile self year
           <> Raises (ValueError msg))).
Proof.
split.
- intros [H23 H24].
  assert (Hv : valid_year year = false).
  { unfold valid_year. destruct (Z.eqb_spec year 2023); [contradiction|].
    destruct (Z.eqb_spec year 2024); [contradiction | reflexivity]. }
  assert (Hm := match_members_invalid extract_score (data_processor self) year Hv).
  split; [exact Hm|]. split.
  + unfold improved_matching. rewrite Hm. reflexivity.
  + unfold analyze_unmatched_records.
    rewrite (registrations_of_invalid _ year Hv). reflexivity.
- intros Hyear.
  assert (Hv : valid_year year = true).
  { unfold valid_year. destruct Hyear as [-> | ->]; reflexivity. }
  destruct (registrations_of_valid (data_processor self) year Hv) as [regs [Hregs _]].
  split; [eapply match_members_returns; exact Hregs|].
  split; [eapply improved_matching_returns; exact Hregs|].
  intros msg.
  destruct (analyze_outcome extract_score ratio re_compile self year Hv)
    as [-> | [-> | [a ->]]]; discriminate.
Qed.

Lemma year_selector_checked_witness :
  (match_members sample_extract_score (data_processor sample_analyzer) 2025
   = Raises (ValueError "Year must be 2023 or 2024")
   /\ improved_matching sample_extract_score sample_ratio
        (data_processor sample_analyzer) 2025 75
      = Raises (ValueError "Year must be 2023 or 2024")
   /\ analyze_unmatched_records sample_extract_score sample_ratio
        sample_re_compile sample_analyzer 2025
      = Raises (ValueError "Year must be 2023 or 2024"))
  /\ ((exists results,
         match_members sample_extract_score (data_processor sample_analyzer) 2024
         = Returns results)
      /\ (exists results,
            improved_matching sample_extract_score sample_ratio
              (data_processor sample_analyzer) 2024 75 = Returns results)
      /\ (forall msg,
            analyze_unmatched_records sample_extract_score sample_ratio
              sample_re_compile sample_analyzer 2024
            <> Raises (ValueError msg))).
Proof.
split.
- refine (proj1 (year_selector_checked sample_extract_score sample_ratio
                   sample_re_compile sample_analyzer 2025 75) _).
  split; discriminate.
- refine (proj2 (year_selector_checked sample_extract_score sample_ratio
                   sample_re_compile sample_analyzer 2024 75) _).
  right. reflexivity.
Defined.

(** ** C8: the diagnostics leave the match results alone *)


(** ** C2: the email lookup comes first *)


(** ** C5: the second pass keeps the matches of the first *)

(** C5, as amended.  A registration whose status is not [Unknown] after
    the exact and fuzzy stage has the same status, method and confidence,
    under the same label and at the same position, after the second pass.
    When no survey row carries the status [Unknown], these are exactly the
    registrations whose method is not [None]. *)
Theorem second_pass_keeps_known_rows
    (extract_score ratio : string -> string -> Z)
    (dp : DataProcessor) (year confidence_threshold : Z) (regs : frame Reg.row) :
  NoDup (labels regs) ->
  registrations_of dp year = Returns regs ->
  exists first second,
    match_members extract_score dp year = Returns first
    /\ improved_matching extract_score ratio dp year confidence_threshold
       = Returns second
    /\ labels second = labels first
    /\ (forall i idx row,
          List.nth_error first i = Some (idx, row) ->
          Res.retention_status row <> "Unknown" ->
          List.nth_error second i = Some (idx, row))
    /\ (statuses_known (retention_survey dp) ->
        forall i idx row,
          List.nth_error first i = Some (idx, row) ->
          Res.match_type row <> "None" ->
          List.nth_error second i = Some (idx, row)).
Proof.
intros Hnd Hregs.
eexists. eexists.
split; [apply (match_members_reading extract_score dp year regs Hnd Hregs)|].
split; [apply (improved_matching_reading extract_score ratio dp year
                 confidence_threshold regs Hnd Hregs)|].
split; [unfold labels; rewrite !List.map_map; reflexivity|].
assert (Hkeep : forall i idx row,
  List.nth_error
    (List.map (fun ir => (fst ir, matched_row extract_score (retention_survey dp) (snd ir)))
       regs) i = Some (idx, row) ->
  Res.retention_status row <> "Unknown" ->
  List.nth_error
    (List.map
       (fun ir => (fst ir,
          improved_result extract_score ratio confidence_threshold (retention_survey dp)
            (matched_row extract_score (retention_survey dp) (snd ir)))) regs) i
  = Some (idx, row)).
{ intros i idx row Hi Hst.
  apply nth_error_rows_inv in Hi. destruct Hi as [r [Hi ->]].
  rewrite (nth_error_rows
             (fun r => improved_result extract_score ratio confidence_threshold
                         (retention_survey dp)
                         (matched_row extract_score (retention_survey dp) r))
             regs i idx r Hi).
  rewrite improved_result_reading.
  assert (Hu : is_unknown (matched_row extract_score (retention_survey dp) r) = false).
  { unfold is_unknown. apply String.eqb_neq. exact Hst. }
  rewrite Hu. reflexivity. }
split; [exact Hkeep|].
intros Hknown i idx row Hi Hty. apply Hkeep; [exact Hi|].
apply nth_error_rows_inv in Hi. destruct Hi as [r [_ ->]].
destruct (matched_row_cases extract_score (retention_survey dp) r)
  as [Heq|[st [ty [c [_ [Heq [_ [_ [s [Hs Hst]]]]]]]]]].
- rewrite Heq in Hty. simpl in Hty. congruence.
- rewrite Heq. simpl. rewrite <- Hst. apply Hknown, Hs.
Qed.

(** ** C6: the invariant of a match result *)

Section CoherenceFacts.

Variable extract_score : string -> string -> Z.
Variable ratio : string -> string -> Z.

Lemma unmatched_result_coherent r : coherent (unmatched_result r).
Proof.
unfold coherent. simpl. split; [tauto|]. split; [tauto|]. intros H. congruence.
Qed.

Lemma set_result_coherent st ty c row :
  st <> "Unknown" -> ty <> "None" -> 0 < c -> coherent (set_result st ty c row).
Proof.
intros Hst Hty Hc. unfold coherent. simpl.
split; [split; intros H; congruence|].
split; [split; intros H; [congruence | lia]|]. intros _. exact Hc.
Qed.

Lemma matched_row_coherent survey r :
  statuses_known survey -> coherent (matched_row extract_score survey r).
Proof.
intros Hknown.
destruct (matched_row_cases extract_score survey r)
  as [->|(st & ty & c & _ & -> & Hty & Hc & s & Hs & Hst)].
- apply unmatched_result_coherent.
- apply set_result_coherent.
  + rewrite <- Hst. apply Hknown, Hs.
  + destruct Hty as [-> | [-> | ->]]; discriminate.
  + lia.
Qed.

Lemma improved_result_coherent thr survey res :
  statuses_known survey -> 0 < thr -> coherent res ->
  coherent (improved_result extract_score ratio thr survey res).
Proof.
intros Hknown Hthr Hres.
destruct (improved_result_cases extract_score ratio thr survey res)
  as [->|(st & ty & c & _ & _ & -> & Hty & Hc & s & Hs & Hst)].
- exact Hres.
- apply set_result_coherent.
  + rewrite <- Hst. apply Hknown, Hs.
  + destruct Hty as [-> | [-> | ->]]; discriminate.
  + apply Hc, Hthr.
Qed.

End CoherenceFacts.

(** C6, as amended.  When no survey row carries the status [Unknown] and
    the threshold of the second pass is positive, every result row of either
    pass satisfies: method [None] iff status [Unknown] iff confidence 0, and
    a method other than [None] comes with a positive confidence; and a row
    matched by the first pass is the same row, at the same position, after
    the second. *)
Theorem match_result_invariant
    (extract_score ratio : string -> string -> Z)
    (dp : DataProcessor) (year confidence_threshold : Z) (regs : frame Reg.row) :
  NoDup (labels regs) ->
  registrations_of dp year = Returns regs ->
  statuses_known (retention_survey dp) ->
  0 < confidence_threshold ->
  exists first second,
    match_members extract_score dp year = Returns first
    /\ improved_matching extract_score ratio dp year confidence_threshold
       = Returns second
    /\ (forall idx row, In (idx, row) first -> coherent row)
    /\ (forall idx row, In (idx, row) second -> coherent row)
    /\ (forall i idx row,
          List.nth_error first i = Some (idx, row) ->
          Res.match_type row <> "None" ->
          List.nth_error second i = Some (idx, row)).
Proof.
intros Hnd Hregs Hknown Hthr.
eexists. eexists.
split; [apply (match_members_reading extract_score dp year regs Hnd Hregs)|].
split; [apply (improved_matching_reading extract_score ratio dp year
                 confidence_threshold regs Hnd Hregs)|].
split; [|split].
- intros idx row Hin. apply List.in_map_iff in Hin.
  destruct Hin as [[j r] [Heq _]]. injection Heq as _ <-.
  apply matched_row_coherent, Hknown.
- intros idx row Hin. apply List.in_map_iff in Hin.
  destruct Hin as [[j r] [Heq _]]. injection Heq as _ <-.
  apply improved_result_coherent; [exact Hknown | exact Hthr |].
  apply matched_row_coherent, Hknown.
- intros i idx row Hi Hty.
  apply nth_error_rows_inv in Hi. destruct Hi as [r [Hi ->]].
  rewrite (nth_error_rows
             (fun r => improved_result extract_score ratio confidence_threshold
                         (retention_survey dp)
                         (matched_row extract_score (retention_survey dp) r))
             regs i idx r Hi).
  rewrite improved_result_reading.
  destruct (matched_row_coherent extract_score (retention_survey dp) r Hknown)
    as [Hiff _].
  assert (Hu : is_unknown (matched_row extract_score (retention_survey dp) r) = false).
  { unfold is_unknown. apply String.eqb_neq. intros Hst. apply Hty, Hiff, Hst. }
  rewrite Hu. reflexivity.
Qed.

(** ** C1: the strategies of the second pass *)


(** ** C3: the fuzzy stage *)

Section FuzzyFacts.

Variable extract_score : string -> string -> Z.



End FuzzyFacts.


(** ** C10: survey rows that share a key *)


(** ** C7: the candidates of the diagnostics *)


(** * The claims on sample data *)



(** C5, as stated, fails when a survey row has the status [Unknown]: the
    registration is matched by [Email] in the first stage and rewritten
    with the method [Partial_Name] by the second pass. *)
Lemma unknown_status_rematched :
  match_members sample_extract_score unknown_processor 2024
  = Returns [(0, set_result "Unknown" "Email" 100
                   (unmatched_result (reg_row "Al Po" "al@x.ca")))]
  /\ improved_matching sample_extract_score sample_ratio unknown_processor 2024 75
     = Returns [(0, set_result "Unknown" "Partial_Name" 100
                      (unmatched_result (reg_row "Al Po" "al@x.ca")))].
Proof. vm_compute. auto. Qed.

(** C6, as stated, fails in two ways: a survey status [Unknown] gives a row
    with status [Unknown] and method [Email]; a threshold 0 gives a row with
    method [Partial_Name] and confidence 0. *)
Lemma invariant_broken :
  match_members sample_extract_score unknown_processor 2024
  = Returns [(0, set_result "Unknown" "Email" 100
                   (unmatched_result (reg_row "Al Po" "al@x.ca")))]
  /\ improved_matching sample_extract_score sample_ratio zero_processor 2024 0
     = Returns [(0, set_result "Still in PEI" "Partial_Name" 0
                      (unmatched_result (reg_row "Ab Cd" "")))].
Proof. vm_compute. auto. Qed.





(** C5 on the sample: the first roster entry, matched by its exact name,
    is the same row after the second pass. *)
Lemma second_pass_keeps_known_rows_witness :
  exists first second,
    match_members sample_extract_score sample_processor 2024 = Returns first
    /\ improved_matching sample_extract_score sample_ratio sample_processor 2024 75
       = Returns second
    /\ List.nth_error first 0 = List.nth_error second 0
    /\ List.nth_error first 0
       = Some (0, set_result "No longer in PEI" "Name_Exact" 100
                    (unmatched_result (reg_row "Ann Lee" "other@y.ca"))).
Proof.
destruct (second_pass_keeps_known_rows sample_extract_score sample_ratio
            sample_processor 2024 75 sample_roster)
  as (first & second & Hfirst & Hsecond & _ & Hkeep & _);
  [distinct_labels | reflexivity |].
exists first, second. split; [exact Hfirst|]. split; [exact Hsecond|].
assert (Hrow : List.nth_error first 0
               = Some (0, set_result "No longer in PEI" "Name_Exact" 100
                            (unmatched_result (reg_row "Ann Lee" "other@y.ca")))).
{ assert (Hnd : NoDup (labels sample_roster)) by distinct_labels.
  rewrite (match_members_reading sample_extract_score sample_processor 2024
             sample_roster Hnd eq_refl) in Hfirst.
  injection Hfirst as <-. vm_compute. reflexivity. }
split; [|exact Hrow].
rewrite Hrow. symmetry. apply Hkeep; [exact Hrow|]. discriminate.
Defined.

(** C6 on the sample: every row of both passes is coherent. *)
Lemma match_result_invariant_witness :
  exists first second,
    match_members sample_extract_score sample_processor 2024 = Returns first
    /\ improved_matching sample_extract_score sample_ratio sample_processor 2024 75
       = Returns second
    /\ (forall idx row, In (idx, row) first -> coherent row)
    /\ (forall idx row, In (idx, row) second -> coherent row).
Proof.
destruct (match_result_invariant sample_extract_score sample_ratio
            sample_processor 2024 75 sample_roster)
  as (first & second & Hfirst & Hsecond & H1 & H2 & _);
  [distinct_labels | reflexivity | known_statuses | lia |].
exists first, second. auto.
Defined.


(** * Further properties of the code *)

(** ** The normalizer *)


(** X2.  Whatever the raw field, the cleaned email has no upper-case
    letter and no whitespace at either end, and it is either the whole
    lower-cased, trimmed field or one of its pieces between separators, and
    then one that holds an [@] with a dot after the last [@]. *)
Theorem clean_emails_output (email : string) :
  lowered (Str.chars (clean_emails email))
  /\ Str.strip (clean_emails email) = clean_emails email
  /\ (clean_emails email = Str.strip (Str.lower email)
      \/ (In (clean_emails email) (Str.re_split_seps (Str.strip (Str.lower email)))
          /\ valid_email (clean_emails email) = true
          /\ no_sep (Str.chars (clean_emails email)))).
Proof.
unfold clean_emails.
destruct (Str.truthy email) eqn:He.
2:{ apply truthy_empty in He. subst email.
    split; [constructor|]. split; [reflexivity | left; reflexivity]. }
set (e := Str.strip (Str.lower email)).
assert (Hlow : lowered (Str.chars e)).
{ unfold e, Str.strip, Str.lower. rewrite !StrFacts.chars_str.
  apply StrFacts.strip_Forall, StrFacts.lower_l_lowered. }
destruct (List.find valid_email (List.map Str.strip (Str.re_split_seps e)))
  as [t|] eqn:Hfind.
- apply List.find_some in Hfind. destruct Hfind as [Hin Hvalid].
  apply List.in_map_iff in Hin. destruct Hin as [q [<- Hq]].
  assert (Hq' := Hq). unfold Str.re_split_seps in Hq.
  apply List.in_map_iff in Hq. destruct Hq as [p [<- Hp]].
  assert (Hsep : no_sep p).
  { refine (proj1 (List.Forall_forall _ _) _ p Hp).
    apply NormalizerFacts.re_split_pieces_no_sep. constructor. }
  assert (Hlp : lowered p).
  { refine (proj1 (List.Forall_forall _ _) _ p Hp).
    apply NormalizerFacts.re_split_pieces; [constructor | exact Hlow]. }
  assert (Hfix : Str.strip (Str.str p) = Str.str p).
  { unfold Str.strip. rewrite StrFacts.chars_str.
    rewrite StrFacts.strip_no_space by (apply NormalizerFacts.no_sep_no_space, Hsep).
    reflexivity. }
  rewrite Hfix in *. rewrite StrFacts.chars_str.
  split; [exact Hlp|]. split; [exact Hfix|]. right.
  split; [exact Hq'|]. split; [exact Hvalid | exact Hsep].
- split; [exact Hlow|]. split; [|left; reflexivity].
  unfold e, Str.strip. rewrite StrFacts.chars_str, StrFacts.strip_idem. reflexivity.
Qed.

(** ** [find_name_matches]: the five best candidates *)

Lemma insert_desc_descending x l :
  descending l -> descending (insert_desc x l).
Proof.
induction l as [|y l IH]; simpl; intros H.
- split; [intros ? [] | exact I].
- destruct H as [Hy Hl]. destruct (Z.ltb_spec (snd x) (snd y)) as [Hlt|Hge]; simpl.
  + split; [|auto]. intros z Hz. apply (proj1 (insert_desc_In _ _ _)) in Hz.
    destruct Hz as [->|Hz]; [lia | auto].
  + split; [|split; assumption]. intros z [<-|Hz]; [lia|].
    specialize (Hy z Hz). lia.
Qed.

Lemma sort_desc_descending l : descending (sort_desc l).
Proof.
induction l as [|x l IH]; simpl; [exact I|]. apply insert_desc_descending, IH.
Qed.

Lemma descending_app l1 l2 :
  descending (l1 ++ l2) ->
  descending l1 /\ forall x y, In x l1 -> In y l2 -> snd y <= snd x.
Proof.
induction l1 as [|a l1 IH]; simpl; intros H.
- split; [exact I | intros ? ? []].
- destruct H as [Ha Hl]. destruct (IH Hl) as [H1 H2]. split.
  + split; [|exact H1]. intros y Hy. apply Ha, List.in_or_app. auto.
  + intros x y [<-|Hx] Hy; [|auto]. apply Ha, List.in_or_app. auto.
Qed.

Lemma descending_filter (p : string * Z -> bool) l :
  descending l -> descending (List.filter p l).
Proof.
induction l as [|a l IH]; simpl; intros H; [exact I|].
destruct H as [Ha Hl]. destruct (p a); simpl; [|auto].
split; [|auto]. intros y Hy. apply List.filter_In in Hy. apply Ha, Hy.
Qed.

Lemma filter_short {A} (p : A -> bool) (l : list A) :
  (List.length (List.filter p l) < List.length l)%nat ->
  exists x, In x l /\ p x = false.
Proof.
induction l as [|a l IH]; simpl; intros H; [lia|].
destruct (p a) eqn:E.
- simpl in H. destruct IH as [x [Hx Hp]]; [lia|]. exists x. auto.
- exists a. auto.
Qed.

(** X3.  [find_name_matches] returns at most five pairs, in descending
    order of score; each is a candidate with its score, which is at least
    the threshold and not negative.  They are the best ones: a candidate
    that scores more than a returned pair is returned too, and when fewer
    than five pairs come back, every candidate that reaches the threshold
    with a score that is not negative is among them. *)
Theorem find_name_matches_best
    (extract_score : string -> string -> Z)
    (name : string) (candidate_names : list string) (threshold : Z) :
  let matches := find_name_matches extract_score name candidate_names threshold in
  (List.length matches <= 5)%nat
  /\ descending matches
  /\ (forall m, In m matches ->
        In (fst m) candidate_names
        /\ snd m = extract_score name (fst m)
        /\ threshold <= snd m /\ 0 <= snd m)
  /\ (forall c m, In c candidate_names -> In m matches ->
        snd m < extract_score name c ->
        In (c, extract_score name c) matches)
  /\ ((List.length matches < 5)%nat ->
      forall c, name <> "" -> In c candidate_names ->
        threshold <= extract_score name c -> 0 <= extract_score name c ->
        In (c, extract_score name c) matches).
Proof.
intros matches. unfold matches, find_name_matches.
destruct (negb (Str.truthy name)
          || match candidate_names with [] => true | _ :: _ => false end) eqn:Hguard.
{ split; [simpl; lia|]. split; [exact I|]. split; [intros ? []|].
  split; [intros ? ? _ []|]. intros _ c Hname Hc _ _. exfalso.
  apply orb_prop in Hguard. destruct Hguard as [Hn|Hc0].
  - apply negb_true_iff, truthy_empty in Hn. contradiction.
  - destruct candidate_names; [contradiction | discriminate]. }
unfold extract.
set (sorted := sort_desc (extractWithoutOrder extract_score name candidate_names)).
assert (Hsorted : descending (List.firstn 5 sorted ++ List.skipn 5 sorted)).
{ rewrite List.firstn_skipn. apply sort_desc_descending. }
apply descending_app in Hsorted. destruct Hsorted as [Hfirst Hrest].
assert (Hall : forall c, In c candidate_names -> 0 <= extract_score name c ->
          In (c, extract_score name c) (List.firstn 5 sorted)
          \/ In (c, extract_score name c) (List.skipn 5 sorted)).
{ intros c Hc Hpos. apply List.in_app_or. rewrite List.firstn_skipn.
  apply sort_desc_In. unfold extractWithoutOrder. apply List.filter_In. split.
  - apply List.in_map_iff. exists c. auto.
  - simpl. apply Z.leb_le. exact Hpos. }
assert (Hmem : forall m,
          In m (List.filter (fun m => threshold <=? snd m) (List.firstn 5 sorted)) ->
          In m (List.firstn 5 sorted) /\ threshold <= snd m
          /\ In (fst m) candidate_names /\ snd m = extract_score name (fst m)
          /\ 0 <= snd m).
{ intros m Hm. apply List.filter_In in Hm. destruct Hm as [Hm Hthr].
  split; [exact Hm|]. split; [apply Z.leb_le, Hthr|].
  apply (extract_In extract_score name candidate_names 5 m). exact Hm. }
split.
{ etransitivity; [apply List.filter_length_le|]. apply List.firstn_le_length. }
split; [apply descending_filter, Hfirst|].
split.
{ intros m Hm. destruct (Hmem m Hm) as (_ & ? & ? & ? & ?). auto. }
split.
- intros c m Hc Hm Hlt. destruct (Hmem m Hm) as (Hm5 & Hthr & _ & _ & Hpos).
  apply List.filter_In. split; [|simpl; apply Z.leb_le; lia].
  destruct (Hall c Hc) as [Hin|Hin]; [lia | exact Hin |].
  specialize (Hrest m _ Hm5 Hin). simpl in Hrest. lia.
- intros Hlen c _ Hc Hthr Hpos.
  apply List.filter_In. split; [|simpl; apply Z.leb_le; exact Hthr].
  destruct (Hall c Hc Hpos) as [Hin|Hin]; [exact Hin|]. exfalso.
  assert (Hfull : List.length (List.firstn 5 sorted) = 5%nat).
  { apply List.firstn_length_le.
    destruct (Nat.le_gt_cases 5 (List.length sorted)) as [Hle|Hgt]; [exact Hle|].
    rewrite List.skipn_all2 in Hin by lia. contradiction. }
  destruct (filter_short (fun m => threshold <=? snd m) (List.firstn 5 sorted))
    as [m0 [Hm0 Hfail]]; [lia|].
  apply Z.leb_gt in Hfail. specialize (Hrest m0 _ Hm0 Hin). simpl in Hrest. lia.
Qed.

(** ** The roster under the two passes *)

Lemma apply_result_roster idx u (acc : frame Res.row) :
  roster_of (apply_result idx u acc) = roster_of acc.
Proof.
rewrite apply_result_at_set. unfold roster_of, at_set. rewrite List.map_map.
apply List.map_ext. intros [i r]. simpl.
destruct (i =? idx); [|reflexivity].
destruct u as [[[st ty] c]|]; reflexivity.
Qed.

Lemma roster_of_unmatched (regs : frame Reg.row) :
  roster_of (List.map (fun ir => (fst ir, unmatched_result (snd ir))) regs) = regs.
Proof.
unfold roster_of. rewrite List.map_map. rewrite <- (List.map_id regs) at 2.
apply List.map_ext. intros [i r]. reflexivity.
Qed.

Section RosterFacts.

Variable extract_score : string -> string -> Z.
Variable ratio : string -> string -> Z.

Lemma match_members_roster dp year regs first :
  registrations_of dp year = Returns regs ->
  match_members extract_score dp year = Returns first ->
  roster_of first = regs.
Proof.
intros Hregs. unfold match_members. rewrite Hregs, bind_Returns.
apply (for_each_invariant (fun acc => roster_of acc = regs)).
- intros acc ir acc' _ Hacc. rewrite match_row_reading, bind_Returns.
  intros H. injection H as <-. rewrite apply_result_roster. exact Hacc.
- apply roster_of_unmatched.
Qed.

Lemma improved_matching_roster dp year thr regs second :
  registrations_of dp year = Returns regs ->
  improved_matching extract_score ratio dp year thr = Returns second ->
  roster_of second = regs.
Proof.
intros Hregs. unfold improved_matching.
destruct (match_members_returns extract_score dp year regs Hregs) as [first Hfirst].
rewrite Hfirst, bind_Returns.
apply (for_each_invariant (fun acc => roster_of acc = regs)).
- intros acc ir acc' _ Hacc. rewrite improved_row_reading, bind_Returns.
  intros H. injection H as <-. rewrite apply_result_roster. exact Hacc.
- apply (match_members_roster dp year regs first Hregs Hfirst).
Qed.

End RosterFacts.

Lemma roster_of_length results : List.length (roster_of results) = List.length results.
Proof. apply List.length_map. Qed.

(** X4.  Whatever the index labels of the roster, distinct or not, the
    two passes return the registrations they were given: the same rows, in
    the same order, under the same labels, with every registration column as
    it was.  Only the three result columns are theirs. *)
Theorem passes_keep_the_roster
    (extract_score ratio : string -> string -> Z)
    (dp : DataProcessor) (year confidence_threshold : Z) (regs : frame Reg.row) :
  registrations_of dp year = Returns regs ->
  exists first second,
    match_members extract_score dp year = Returns first
    /\ improved_matching extract_score ratio dp year confidence_threshold
       = Returns second
    /\ roster_of first = regs
    /\ roster_of second = regs.
Proof.
intros Hregs.
destruct (match_members_returns extract_score dp year regs Hregs) as [first Hfirst].
destruct (improved_matching_returns extract_score ratio dp year
            confidence_threshold regs Hregs) as [second Hsecond].
exists first, second. split; [exact Hfirst|]. split; [exact Hsecond|]. split.
- exact (match_members_roster extract_score dp year regs first Hregs Hfirst).
- exact (improved_matching_roster extract_score ratio dp year
           confidence_threshold regs second Hregs Hsecond).
Qed.

(** X4 on a roster in which two registrations share the label 3. *)
Lemma passes_keep_the_roster_witness :
  exists first second,
    match_members sample_extract_score
      (processor sample_survey
         [(3, reg_row "Ann Lee" ""); (3, reg_row "Nobody" "")]) 2024
    = Returns first
    /\ improved_matching sample_extract_score sample_ratio
         (processor sample_survey
            [(3, reg_row "Ann Lee" ""); (3, reg_row "Nobody" "")]) 2024 75
       = Returns second
    /\ roster_of first = [(3, reg_row "Ann Lee" ""); (3, reg_row "Nobody" "")]
    /\ roster_of second = [(3, reg_row "Ann Lee" ""); (3, reg_row "Nobody" "")].
Proof.
exact (passes_keep_the_roster sample_extract_score sample_ratio
         (processor sample_survey
            [(3, reg_row "Ann Lee" ""); (3, reg_row "Nobody" "")])
         2024 75 [(3, reg_row "Ann Lee" ""); (3, reg_row "Nobody" "")] eq_refl).
Defined.

(** ** The analysis of the unmatched registrations *)

Lemma for_each_measure {A S} (mu : S -> nat) (body : S -> A -> outcome S) xs :
  (forall s x s', body s x = Returns s' -> (mu s' <= mu s + 1)%nat) ->
  forall s s', for_each body xs s = Returns s' ->
    (mu s' <= mu s + List.length xs)%nat.
Proof.
intros Hstep. induction xs as [|x xs IH]; intros s s'; simpl.
- intros H. injection H as <-. lia.
- destruct (body s x) as [s1|e1] eqn:E; simpl; [|discriminate].
  intros H. specialize (IH s1 s' H). specialize (Hstep s x s1 E). lia.
Qed.

Lemma find_potential_length
    (extract_score ratio : string -> string -> Z)
    (re_compile : string -> option (string -> bool))
    dp (unmatched : frame Unm.row) year pm :
  _find_potential_matches extract_score ratio re_compile dp unmatched year
  = Returns pm ->
  (List.length pm <= List.length unmatched)%nat.
Proof.
unfold _find_potential_matches. intros H.
apply (for_each_measure (@List.length potential)) in H; [exact H|].
intros acc ip acc'.
destruct (person_matches _ _ _ _ _ _) as [[|m ms]|e]; simpl;
  intros Hb; try discriminate; injection Hb as <-; [lia|].
rewrite List.length_app. simpl. lia.
Qed.

Lemma analyze_raises_on_empty
    (extract_score ratio : string -> string -> Z)
    (re_compile : string -> option (string -> bool))
    (self : MatchingAnalyzer) (year : Z) (regs : frame Reg.row) :
  registrations_of (data_processor self) year = Returns regs ->
  (analyze_unmatched_records extract_score ratio re_compile self year
   = Raises ZeroDivisionError
   <-> regs = []).
Proof.
intros Hregs. unfold analyze_unmatched_records. rewrite Hregs, bind_Returns.
destruct (match_members_returns extract_score (data_processor self) year regs Hregs)
  as [orig ->].
rewrite bind_Returns.
destruct regs as [|r0 regs]; [split; reflexivity|]. rewrite bind_Returns.
destruct (find_potential_outcome extract_score ratio re_compile
            (data_processor self)
            (snd (_analyze_unmatched_patterns (unmatched_of orig))) year)
  as [->|[pm [-> _]]]; simpl; split; discriminate.
Qed.

(** X5.  For an accepted year, [analyze_unmatched_records] raises
    [ZeroDivisionError] exactly when the roster of that year is empty; the
    only other exception it can raise is the one of a domain that is no
    regular expression.  In particular the row selections [.index[0]] and
    [.iloc[0]] never fail with [IndexError]. *)
Theorem analyze_empty_roster
    (extract_score ratio : string -> string -> Z)
    (re_compile : string -> option (string -> bool))
    (self : MatchingAnalyzer) (year : Z) (regs : frame Reg.row) :
  registrations_of (data_processor self) year = Returns regs ->
  (analyze_unmatched_records extract_score ratio re_compile self year
   = Raises ZeroDivisionError
   <-> regs = [])
  /\ (forall e,
        analyze_unmatched_records extract_score ratio re_compile self year
        = Raises e ->
        e = ZeroDivisionError \/ e = ReError).
Proof.
intros Hregs.
split; [exact (analyze_raises_on_empty extract_score ratio re_compile self year
                 regs Hregs)|].
assert (Hv : valid_year year = true).
{ unfold registrations_of in Hregs. unfold valid_year.
  destruct (year =? 2023); [reflexivity|].
  destruct (year =? 2024); [reflexivity | discriminate]. }
intros e He.
destruct (analyze_outcome extract_score ratio re_compile self year Hv)
  as [H | [H | [a H]]]; rewrite H in He.
- injection He as <-. left. reflexivity.
- injection He as <-. right. reflexivity.
- discriminate.
Qed.

Lemma analyze_empty_roster_witness :
  (analyze_unmatched_records sample_extract_score sample_ratio sample_re_compile
     {| data_processor := processor sample_survey []; unmatched_analysis := ∅ |} 2024
   = Raises ZeroDivisionError
   <-> ([] : frame Reg.row) = [])
  /\ (forall e,
        analyze_unmatched_records sample_extract_score sample_ratio
          sample_re_compile
          {| data_processor := processor sample_survey []; unmatched_analysis := ∅ |}
          2024
        = Raises e ->
        e = ZeroDivisionError \/ e = ReError).
Proof.
exact (analyze_empty_roster sample_extract_score sample_ratio sample_re_compile
         {| data_processor := processor sample_survey []; unmatched_analysis := ∅ |}
         2024 [] eq_refl).
Defined.

(** X6.  When [analyze_unmatched_records] returns, the analysis is stored
    under the year; the roster is not empty and [total_registrations] is its
    size; [total_unmatched] is the number of the records listed, all of
    status [Unknown], and is at most [total_registrations]; there are no more
    entries of potential matches than unmatched records, and each holds
    from one to five candidates. *)
Theorem analysis_counts
    (extract_score ratio : string -> string -> Z)
    (re_compile : string -> option (string -> bool))
    (self self' : MatchingAnalyzer) (year : Z) (regs : frame Reg.row)
    (a : analysis) :
  registrations_of (data_processor self) year = Returns regs ->
  analyze_unmatched_records extract_score ratio re_compile self year
  = Returns (self', a) ->
  unmatched_analysis self' !! year = Some a
  /\ regs <> []
  /\ total_registrations a = List.length regs
  /\ total_unmatched a = List.length (unmatched_records a)
  /\ (total_unmatched a <= total_registrations a)%nat
  /\ List.Forall (fun r => Res.retention_status r = "Unknown") (unmatched_records a)
  /\ (List.length (potential_matches_found a) <= total_unmatched a)%nat
  /\ List.Forall
       (fun p => (1 <= List.length (potential_matches p) <= 5)%nat)
       (potential_matches_found a).
Proof.
intros Hregs. unfold analyze_unmatched_records. rewrite Hregs, bind_Returns.
destruct (match_members_returns extract_score (data_processor self) year regs Hregs)
  as [orig Horig].
rewrite Horig, bind_Returns.
assert (Hlen : List.length orig = List.length regs).
{ rewrite <- (match_members_roster extract_score _ year regs orig Hregs Horig).
  symmetry. apply roster_of_length. }
destruct regs as [|r0 regs]; [discriminate|]. rewrite bind_Returns.
destruct (find_potential_outcome extract_score ratio re_compile
            (data_processor self)
            (snd (_analyze_unmatched_patterns (unmatched_of orig))) year)
  as [Hp|[pm [Hp Hentries]]]; rewrite Hp; simpl; [discriminate|].
intros H. injection H as <- <-. simpl.
split; [apply lookup_insert_eq|]. split; [discriminate|]. split; [reflexivity|].
split; [rewrite List.length_map; reflexivity|].
split.
{ pose proof (List.filter_length_le (fun ir => is_unknown (snd ir)) orig) as Hle.
  unfold unmatched_of. simpl in Hlen. lia. }
split.
{ apply List.Forall_forall. intros r Hr. apply List.in_map_iff in Hr.
  destruct Hr as [ir [<- Hir]]. unfold unmatched_of in Hir.
  apply List.filter_In in Hir. destruct Hir as [_ Hu].
  unfold is_unknown in Hu. apply String.eqb_eq, Hu. }
split.
{ apply find_potential_length in Hp. simpl in Hp.
  rewrite List.length_map in Hp. exact Hp. }
refine (List.Forall_impl _ _ Hentries).
intros p (ip & matches & _ & Hne & Hpm & _). rewrite Hpm.
destruct matches as [|m ms]; [congruence|]. split.
- simpl. lia.
- apply List.firstn_le_length.
Qed.

(** X6 on the sample roster. *)
Lemma analysis_counts_witness :
  exists self' a,
    analyze_unmatched_records sample_extract_score sample_ratio sample_re_compile
      sample_analyzer 2024 = Returns (self', a)
    /\ unmatched_analysis self' !! 2024 = Some a
    /\ total_registrations a = List.length sample_roster
    /\ (total_unmatched a <= total_registrations a)%nat.
Proof.
assert (Hex : exists sa,
          analyze_unmatched_records sample_extract_score sample_ratio
            sample_re_compile sample_analyzer 2024 = Returns sa).
{ vm_compute. eexists. reflexivity. }
destruct Hex as [[self' a] E]. exists self', a. split; [exact E|].
destruct (analysis_counts sample_extract_score sample_ratio sample_re_compile
            sample_analyzer self' 2024 sample_roster a eq_refl E)
  as (Hstored & _ & Htotal & _ & Hle & _).
split; [exact Hstored|]. split; [exact Htotal | exact Hle].
Defined.

(** ** The matching report *)

Lemma filter_partition {A} (p : A -> bool) (l : list A) :
  (List.length (List.filter p l) + List.length (List.filter (fun x => negb (p x)) l)
   = List.length l)%nat.
Proof.
induction l as [|a l IH]; simpl; [reflexivity|].
destruct (p a); simpl; lia.
Qed.

Lemma count_matched_unmatched (results : frame Res.row) :
  count_matched results + Z.of_nat (List.length (unmatched_of results))
  = Z.of_nat (List.length results).
Proof.
unfold count_matched, count_rows, unmatched_of.
pose proof (filter_partition (fun ir : Z * Res.row => is_unknown (snd ir)) results).
lia.
Qed.

Lemma count_rows_map_le {A B C} (p : B -> bool) (q : C -> bool)
    (f : A -> B) (g : A -> C) (l : frame A) :
  (forall ir, In ir l -> p (f (snd ir)) = true -> q (g (snd ir)) = true) ->
  (count_rows p (List.map (fun ir => (fst ir, f (snd ir))) l)
   <= count_rows q (List.map (fun ir => (fst ir, g (snd ir))) l))%nat.
Proof.
unfold count_rows. induction l as [|a l IH]; intros H; simpl; [lia|].
assert (IH' := IH (fun ir Hir => H ir (or_intror Hir))).
specialize (H a (or_introl eq_refl)).
destruct (p (f (snd a))); simpl.
- rewrite H by reflexivity. simpl. lia.
- destruct (q (g (snd a))); simpl; lia.
Qed.

Section ReportFacts.

Variable extract_score : string -> string -> Z.
Variable ratio : string -> string -> Z.
Variable re_compile : string -> option (string -> bool).

(** What a returned analysis holds, in terms of the frame the first pass
    returns. *)
Lemma analyze_reading self year regs first self' a :
  registrations_of (data_processor self) year = Returns regs ->
  match_members extract_score (data_processor self) year = Returns first ->
  analyze_unmatched_records extract_score ratio re_compile self year
  = Returns (self', a) ->
  regs <> []
  /\ self' = {| data_processor := data_processor self;
               unmatched_analysis := <[year := a]> (unmatched_analysis self) |}
  /\ total_registrations a = List.length regs
  /\ total_unmatched a = List.length (unmatched_of first)
  /\ unmatched_records a = List.map snd (unmatched_of first)
  /\ patterns_found a = fst (_analyze_unmatched_patterns (unmatched_of first)).
Proof.
intros Hregs Hfirst. unfold analyze_unmatched_records.
rewrite Hregs, bind_Returns, Hfirst, bind_Returns.
destruct regs as [|r0 regs]; [discriminate|]. rewrite bind_Returns.
destruct (_find_potential_matches _ _ _ _ _ _) as [pm|e]; simpl; [|discriminate].
intros H. injection H as <- <-. simpl.
split; [discriminate|]. repeat split; reflexivity.
Qed.

Lemma percent_returns n d : d <> 0 -> percent n d = Returns (100 * n, d).
Proof.
intros H. unfold percent. destruct (Z.eqb_spec d 0); [contradiction | reflexivity].
Qed.

(** The report, once the three calls it makes have returned. *)
Lemma report_reading self year regs first second sa :
  registrations_of (data_processor self) year = Returns regs ->
  regs <> [] ->
  match_members extract_score (data_processor self) year = Returns first ->
  improved_matching extract_score ratio (data_processor self) year 75
  = Returns second ->
  analyze_unmatched_records extract_score ratio re_compile self year = Returns sa ->
  generate_matching_report extract_score ratio re_compile self year
  = Returns
      (fst sa,
       {| Report.year := year;
          Report.original_stats :=
            {| Report.total_registrations := Z.of_nat (List.length regs);
               Report.matched := count_matched first;
               Report.unmatched := Z.of_nat (List.length regs) - count_matched first;
               Report.match_rate :=
                 (100 * count_matched first, Z.of_nat (List.length regs)) |};
          Report.improved_stats :=
            {| Report.total_registrations := Z.of_nat (List.length regs);
               Report.matched := count_matched second;
               Report.unmatched := Z.of_nat (List.length regs) - count_matched second;
               Report.match_rate :=
                 (100 * count_matched second, Z.of_nat (List.length regs)) |};
          Report.additional_matches := count_matched second - count_matched first;
          Report.improvement_percentage :=
            (100 * (count_matched second - count_matched first),
             Z.of_nat (List.length regs));
          Report.unmatched_analysis := snd sa |}).
Proof.
intros Hregs Hne Hfirst Hsecond Hsa. unfold generate_matching_report.
rewrite Hfirst, bind_Returns, Hsecond, bind_Returns, Hsa, bind_Returns.
assert (H1 : List.length first = List.length regs).
{ rewrite <- (match_members_roster extract_score _ year regs first Hregs Hfirst).
  symmetry. apply roster_of_length. }
assert (H2 : List.length second = List.length regs).
{ rewrite <- (improved_matching_roster extract_score ratio _ year 75 regs second
                Hregs Hsecond).
  symmetry. apply roster_of_length. }
rewrite H1, H2.
assert (Hd : Z.of_nat (List.length regs) <> 0).
{ destruct regs; [contradiction | simpl; lia]. }
rewrite !(percent_returns _ _ Hd), !bind_Returns. reflexivity.
Qed.

End ReportFacts.

(** X7.  The counts of a returned report, on a roster with distinct
    labels.  The second pass never loses a match: [additional_matches] is
    not negative.  Both passes count the whole roster.  The unmatched count
    of the analysis is the one of the first pass, and what is left of it
    once the additional matches are taken off, the [remaining_unmatched] of
    the recommendations, is the unmatched count of the second pass.  The
    processor is the one the analyzer started with. *)
Theorem matching_report_counts
    (extract_score ratio : string -> string -> Z)
    (re_compile : string -> option (string -> bool))
    (self self' : MatchingAnalyzer) (year : Z) (regs : frame Reg.row)
    (report : Report.t) :
  NoDup (labels regs) ->
  registrations_of (data_processor self) year = Returns regs ->
  generate_matching_report extract_score ratio re_compile self year
  = Returns (self', report) ->
  0 <= Report.additional_matches report
  /\ Report.total_registrations (Report.original_stats report)
     = Z.of_nat (List.length regs)
  /\ Report.total_registrations (Report.improved_stats report)
     = Z.of_nat (List.length regs)
  /\ 0 < Z.of_nat (List.length regs)
  /\ Report.unmatched (Report.original_stats report)
     = Z.of_nat (total_unmatched (Report.unmatched_analysis report))
  /\ Z.of_nat (total_unmatched (Report.unmatched_analysis report))
     - Report.additional_matches report
     = Report.unmatched (Report.improved_stats report)
  /\ 0 <= Report.unmatched (Report.improved_stats report)
  /\ data_processor self' = data_processor self
  /\ unmatched_analysis self' !! year = Some (Report.unmatched_analysis report).
Proof.
intros Hnd Hregs Hreport.
pose proof (match_members_reading extract_score (data_processor self) year regs
              Hnd Hregs) as Hfirst.
pose proof (improved_matching_reading extract_score ratio (data_processor self)
              year 75 regs Hnd Hregs) as Hsecond.
set (survey := retention_survey (data_processor self)) in *.
set (first := List.map (fun ir => (fst ir, matched_row extract_score survey (snd ir)))
                regs) in *.
set (second := List.map
                 (fun ir => (fst ir,
                    improved_result extract_score ratio 75 survey
                      (matched_row extract_score survey (snd ir)))) regs) in *.
destruct (analyze_unmatched_records extract_score ratio re_compile self year)
  as [[s a]|e] eqn:Ha.
2:{ unfold generate_matching_report in Hreport.
    rewrite Hfirst, bind_Returns, Hsecond, bind_Returns, Ha in Hreport.
    discriminate. }
destruct (analyze_reading extract_score ratio re_compile self year regs first s a
            Hregs Hfirst Ha) as (Hne & Hs & _ & Hun & _).
rewrite (report_reading extract_score ratio re_compile self year regs first second
           (s, a) Hregs Hne Hfirst Hsecond Ha) in Hreport.
injection Hreport as <- <-. simpl.
assert (Hmono : count_matched first <= count_matched second).
{ unfold count_matched, first, second. apply inj_le.
  apply (count_rows_map_le
           (fun r => negb (is_unknown r)) (fun r => negb (is_unknown r))
           (matched_row extract_score survey)
           (fun r => improved_result extract_score ratio 75 survey
                       (matched_row extract_score survey r))).
  intros ir _ Hk. rewrite improved_result_reading.
  destruct (is_unknown (matched_row extract_score survey (snd ir))) eqn:Hu;
    [discriminate | rewrite Hu; reflexivity]. }
assert (Hlen1 : Z.of_nat (List.length first) = Z.of_nat (List.length regs)).
{ unfold first. rewrite List.length_map. reflexivity. }
assert (Hlen2 : Z.of_nat (List.length second) = Z.of_nat (List.length regs)).
{ unfold second. rewrite List.length_map. reflexivity. }
pose proof (count_matched_unmatched first) as Hc1.
pose proof (count_matched_unmatched second) as Hc2.
assert (Hpos : 0 < Z.of_nat (List.length regs)).
{ destruct regs; [contradiction | simpl; lia]. }
rewrite Hun.
split; [lia|]. split; [reflexivity|]. split; [reflexivity|]. split; [exact Hpos|].
split; [lia|]. split; [lia|]. split; [lia|].
rewrite Hs. simpl. split; [reflexivity | apply lookup_insert_eq].
Qed.

(** X7 on the sample roster: two of the three registrations the first pass
    leaves unmatched are matched by the second. *)
Lemma matching_report_counts_witness :
  exists self' report,
    generate_matching_report sample_extract_score sample_ratio sample_re_compile
      sample_analyzer 2024 = Returns (self', report)
    /\ Report.additional_matches report = 2
    /\ Report.unmatched (Report.improved_stats report) = 1
    /\ 0 <= Report.additional_matches report
    /\ Z.of_nat (total_unmatched (Report.unmatched_analysis report))
       - Report.additional_matches report
       = Report.unmatched (Report.improved_stats report).
Proof.
assert (Hex : exists sr,
          generate_matching_report sample_extract_score sample_ratio
            sample_re_compile sample_analyzer 2024 = Returns sr
          /\ Report.additional_matches (snd sr) = 2
          /\ Report.unmatched (Report.improved_stats (snd sr)) = 1).
{ vm_compute. eexists. split; [reflexivity|]. split; reflexivity. }
destruct Hex as [[self' report] (E & Hadd2 & Hun1)]. exists self', report.
split; [exact E|]. split; [exact Hadd2|]. split; [exact Hun1|].
assert (Hnd : NoDup (labels sample_roster)) by distinct_labels.
destruct (matching_report_counts sample_extract_score sample_ratio
            sample_re_compile sample_analyzer self' 2024 sample_roster report
            Hnd eq_refl E)
  as (Hadd & _ & _ & _ & _ & Hrem & _).
split; [exact Hadd | exact Hrem].
Defined.

(** X8.  How [generate_matching_report] fails: with [ValueError] for a
    year other than 2023 and 2024, raised by the first call of the matcher;
    for an accepted year, with [ZeroDivisionError] exactly when the roster
    is empty, so the three divisions of the report itself never fail on a
    roster the analysis accepted. *)
Theorem matching_report_errors
    (extract_score ratio : string -> string -> Z)
    (re_compile : string -> option (string -> bool))
    (self : MatchingAnalyzer) (year : Z) :
  (valid_year year = false ->
   generate_matching_report extract_score ratio re_compile self year
   = Raises (ValueError "Year must be 2023 or 2024"))
  /\ (forall regs,
        registrations_of (data_processor self) year = Returns regs ->
        (generate_matching_report extract_score ratio re_compile self year
         = Raises ZeroDivisionError
         <-> regs = [])).
Proof.
split.
- intros Hv. unfold generate_matching_report.
  rewrite (match_members_invalid extract_score (data_processor self) year Hv).
  reflexivity.
- intros regs Hregs.
  destruct (match_members_returns extract_score (data_processor self) year regs Hregs)
    as [first Hfirst].
  destruct (improved_matching_returns extract_score ratio (data_processor self)
              year 75 regs Hregs) as [second Hsecond].
  pose proof (analyze_raises_on_empty extract_score ratio re_compile self year regs
                Hregs) as Hzero.
  destruct (analyze_unmatched_records extract_score ratio re_compile self year)
    as [sa|e] eqn:Ha.
  + assert (Hne : regs <> []).
    { intros Hnil. apply Hzero in Hnil. discriminate. }
    rewrite (report_reading extract_score ratio re_compile self year regs first
               second sa Hregs Hne Hfirst Hsecond Ha).
    split; [discriminate | contradiction].
  + unfold generate_matching_report.
    rewrite Hfirst, bind_Returns, Hsecond, bind_Returns, Ha. simpl.
    rewrite <- Hzero. split; intros H; [injection H as ->; reflexivity|].
    injection H as ->. reflexivity.
Qed.

(** ** The recommendations of the report *)

Lemma max_by_value_In d kv :
  max_by_value d = Some kv ->
  In kv d /\ forall kv', In kv' d -> (snd kv' <= snd kv)%nat.
Proof.
revert kv. induction d as [|x d IH]; simpl; intros kv H; [discriminate|].
destruct (max_by_value d) as [b|] eqn:E.
- destruct (IH b eq_refl) as [Hb Hmax].
  destruct (Nat.ltb_spec (snd x) (snd b)) as [Hlt|Hge]; injection H as <-.
  + split; [auto|]. intros kv' [<-|Hin]; [lia | auto].
  + split; [auto|]. intros kv' [<-|Hin]; [lia|]. specialize (Hmax kv' Hin). lia.
- injection H as <-. destruct d as [|y d].
  + split; [auto|]. intros kv' [<-|[]]. lia.
  + simpl in E. destruct (max_by_value d) as [b|];
      [destruct (snd y <? snd b)%nat|]; discriminate.
Qed.

Lemma max_by_value_None d : max_by_value d = None -> d = [].
Proof.
destruct d as [|x d]; simpl; [reflexivity|].
destruct (max_by_value d) as [b|]; [destruct (snd x <? snd b)%nat|]; discriminate.
Qed.

(** X9.  The recommendations.  The line on manual investigation (more
    than 50 registrations left) never comes without the line on follow-up
    emails (more than 20 left).  The improvement lines are there exactly
    when there are additional matches.  When the unmatched registrations
    name an institution, the last line names one of them, and no institution
    has more unmatched registrations than that one. *)
Theorem recommendations_thresholds (a : analysis) (additional_matches : Z) :
  let recommendations := _generate_recommendations a additional_matches in
  let counts := by_institution (patterns_found a) in
  (In "🔍 High number of unmatched records requires manual investigation"
      recommendations ->
   In "📧 Consider sending follow-up emails to unmatched members" recommendations)
  /\ (In "Consider implementing the improved matching algorithm permanently"
         recommendations
      <-> 0 < additional_matches)
  /\ (counts <> [] ->
      exists inst n,
        In (inst, n) counts
        /\ (forall kv, In kv counts -> (snd kv <= n)%nat)
        /\ List.last recommendations ""
           = ("🏫 " ++ inst
              ++ " has the most unmatched records - review their data quality")%string).
Proof.
intros recommendations counts. unfold recommendations, _generate_recommendations.
fold counts.
set (remaining := Z.of_nat (total_unmatched a) - additional_matches).
split; [|split].
- destruct (0 <? additional_matches);
    destruct (Z.ltb_spec 50 remaining) as [H50|H50];
    destruct (Z.ltb_spec 20 remaining) as [H20|H20];
    destruct (max_by_value counts);
    try lia; simpl; intros Hin;
    repeat (destruct Hin as [Hin|Hin]; [discriminate Hin|]); try contradiction;
    repeat (first [left; reflexivity | right]).
- destruct (Z.ltb_spec 0 additional_matches) as [Hpos|Hneg].
  + split; [intros _; exact Hpos|]. intros _. simpl. right. left. reflexivity.
  + split; [|lia]. intros H. exfalso.
    destruct (50 <? remaining), (20 <? remaining), (max_by_value counts);
      simpl in H;
      repeat (destruct H as [H|H]; [discriminate H|]); contradiction.
- intros Hne.
  destruct (max_by_value counts) as [[inst n]|] eqn:E.
  2:{ apply max_by_value_None in E. contradiction. }
  destruct (max_by_value_In counts (inst, n) E) as [Hin Hmax].
  exists inst, n. split; [exact Hin|]. split; [exact Hmax|].
  rewrite !List.app_assoc. apply List.last_last.
Qed.

(** ** The rollups of the retention analysis *)

Lemma count_rows_ext {A} (p q : A -> bool) (f : frame A) :
  (forall ir, In ir f -> p (snd ir) = q (snd ir)) ->
  count_rows p f = count_rows q f.
Proof.
unfold count_rows. intros H. f_equal. apply List.filter_ext_in. exact H.
Qed.

Lemma count_rows_none {A} (p : A -> bool) (f : frame A) :
  (forall ir, In ir f -> p (snd ir) = false) -> count_rows p f = O.
Proof.
unfold count_rows. induction f as [|a f IH]; intros H; simpl; [reflexivity|].
rewrite (H a (or_introl eq_refl)). apply IH. intros ir Hir. apply H. right. exact Hir.
Qed.

Lemma confidence_buckets (data : frame Res.row) :
  (Quality.high_confidence_matches (_analyze_match_quality data)
   + Quality.medium_confidence_matches (_analyze_match_quality data)
   + Quality.low_confidence_matches (_analyze_match_quality data))%nat
  = count_rows (fun r => 0 <? Res.match_confidence r) data.
Proof.
unfold _analyze_match_quality, count_rows. simpl.
induction data as [|[i r] data IH]; simpl; [reflexivity|].
destruct (Z.leb_spec 95 (Res.match_confidence r)) as [H1|H1];
  destruct (Z.leb_spec 80 (Res.match_confidence r)) as [H2|H2];
  destruct (Z.ltb_spec (Res.match_confidence r) 95) as [H3|H3];
  destruct (Z.ltb_spec (Res.match_confidence r) 80) as [H4|H4];
  destruct (Z.ltb_spec 0 (Res.match_confidence r)) as [H5|H5]; simpl; lia.
Qed.

(** X10.  The three confidence classes of [_analyze_match_quality] are
    disjoint and cover the rows of positive confidence: their counts add up
    to the number of those rows, whatever the frame; and [total_matches]
    and the rows of status [Unknown] make up the frame. *)
Theorem match_quality_buckets (data : frame Res.row) :
  let quality := _analyze_match_quality data in
  (Quality.high_confidence_matches quality
   + Quality.medium_confidence_matches quality
   + Quality.low_confidence_matches quality)%nat
  = count_rows (fun r => 0 <? Res.match_confidence r) data
  /\ (Quality.total_matches quality + List.length (unmatched_of data)
      = List.length data)%nat
  /\ (Quality.high_confidence_matches quality <= List.length data)%nat.
Proof.
intros quality. split; [apply confidence_buckets|]. split.
- unfold quality, _analyze_match_quality, count_rows, unmatched_of. simpl.
  pose proof (filter_partition (fun ir : Z * Res.row => is_unknown (snd ir)) data).
  lia.
- unfold quality, _analyze_match_quality, count_rows. simpl.
  apply List.filter_length_le.
Qed.

Section QualityFacts.

Variable extract_score : string -> string -> Z.
Variable ratio : string -> string -> Z.

(** The confidence a row leaves each pass with. *)
Lemma matched_row_confidence survey r :
  Res.match_confidence (matched_row extract_score survey r) = 0
  \/ 85 <= Res.match_confidence (matched_row extract_score survey r).
Proof.
destruct (matched_row_cases extract_score survey r)
  as [->|(st & ty & c & _ & -> & _ & Hc & _)]; simpl; auto.
Qed.

Lemma improved_result_confidence thr survey res :
  Res.match_confidence (improved_result extract_score ratio thr survey res)
  = Res.match_confidence res
  \/ thr <= Res.match_confidence (improved_result extract_score ratio thr survey res).
Proof.
rewrite improved_result_reading.
destruct (is_unknown res); [|left; reflexivity].
destruct (stage_two extract_score ratio thr survey _ _) as [[[st ty] c]|] eqn:E;
  [|left; reflexivity].
right. simpl.
destruct (stage_two_cases extract_score ratio thr survey _ _ st ty c E)
  as (best & _ & _ & [(_ & H & _) | [(_ & H & _) | (_ & H & _)]]); lia.
Qed.

End QualityFacts.

Lemma coherent_positive row :
  coherent row -> negb (is_unknown row) = (0 <? Res.match_confidence row).
Proof.
intros (Hty & Hst & Hpos). unfold is_unknown.
destruct (String.eqb_spec (Res.retention_status row) "Unknown") as [Hu|Hk]; simpl.
- apply Hst in Hu. rewrite Hu. reflexivity.
- symmetry. apply Z.ltb_lt. apply Hpos. intros Hnone. apply Hk, Hty, Hnone.
Qed.

(** X11.  The quality of the two passes, on a roster with distinct labels
    and a survey that never uses the status [Unknown].  After the first pass
    no match is of low confidence, and every match is of high or of medium
    confidence.  After the second pass, run with a positive threshold, every
    match falls in one of the three classes, and none in the low one when
    the threshold is 80 or more. *)
Theorem passes_match_quality
    (extract_score ratio : string -> string -> Z)
    (dp : DataProcessor) (year confidence_threshold : Z) (regs : frame Reg.row) :
  NoDup (labels regs) ->
  registrations_of dp year = Returns regs ->
  statuses_known (retention_survey dp) ->
  0 < confidence_threshold ->
  exists first second,
    match_members extract_score dp year = Returns first
    /\ improved_matching extract_score ratio dp year confidence_threshold
       = Returns second
    /\ Quality.low_confidence_matches (_analyze_match_quality first) = O
    /\ Quality.total_matches (_analyze_match_quality first)
       = (Quality.high_confidence_matches (_analyze_match_quality first)
          + Quality.medium_confidence_matches (_analyze_match_quality first))%nat
    /\ Quality.total_matches (_analyze_match_quality second)
       = (Quality.high_confidence_matches (_analyze_match_quality second)
          + Quality.medium_confidence_matches (_analyze_match_quality second)
          + Quality.low_confidence_matches (_analyze_match_quality second))%nat
    /\ (80 <= confidence_threshold ->
        Quality.low_confidence_matches (_analyze_match_quality second) = O).
Proof.
intros Hnd Hregs Hknown Hthr.
eexists. eexists.
split; [apply (match_members_reading extract_score dp year regs Hnd Hregs)|].
split; [apply (improved_matching_reading extract_score ratio dp year
                 confidence_threshold regs Hnd Hregs)|].
set (survey := retention_survey dp) in *.
set (first := List.map (fun ir => (fst ir, matched_row extract_score survey (snd ir)))
                regs).
set (second := List.map
                 (fun ir => (fst ir,
                    improved_result extract_score ratio confidence_threshold survey
                      (matched_row extract_score survey (snd ir)))) regs).
assert (Hlow1 : Quality.low_confidence_matches (_analyze_match_quality first) = O).
{ apply count_rows_none. intros ir Hir. apply List.in_map_iff in Hir.
  destruct Hir as [[j r] [<- _]]. simpl.
  destruct (matched_row_confidence extract_score survey r) as [H|H].
  - rewrite H. reflexivity.
  - apply andb_false_intro1. apply Z.ltb_ge. lia. }
assert (Htot1 : Quality.total_matches (_analyze_match_quality first)
                = count_rows (fun r => 0 <? Res.match_confidence r) first).
{ apply count_rows_ext. intros ir Hir. apply List.in_map_iff in Hir.
  destruct Hir as [[j r] [<- _]]. simpl.
  apply coherent_positive, matched_row_coherent, Hknown. }
assert (Htot2 : Quality.total_matches (_analyze_match_quality second)
                = count_rows (fun r => 0 <? Res.match_confidence r) second).
{ apply count_rows_ext. intros ir Hir. apply List.in_map_iff in Hir.
  destruct Hir as [[j r] [<- _]]. simpl.
  apply coherent_positive, improved_result_coherent;
    [exact Hknown | exact Hthr | apply matched_row_coherent, Hknown]. }
pose proof (confidence_buckets first) as Hb1.
pose proof (confidence_buckets second) as Hb2.
split; [exact Hlow1|]. split; [lia|]. split; [lia|].
intros H80. apply count_rows_none. intros ir Hir. apply List.in_map_iff in Hir.
destruct Hir as [[j r] [<- _]]. simpl.
destruct (improved_result_confidence extract_score ratio confidence_threshold
            survey (matched_row extract_score survey r)) as [H|H].
- rewrite H. destruct (matched_row_confidence extract_score survey r) as [H0|H85].
  + rewrite H0. reflexivity.
  + apply andb_false_intro1. apply Z.ltb_ge. lia.
- apply andb_false_intro1. apply Z.ltb_ge. lia.
Qed.

(** X11 on the sample roster, at the default threshold 75. *)
Lemma passes_match_quality_witness :
  exists first second,
    match_members sample_extract_score sample_processor 2024 = Returns first
    /\ improved_matching sample_extract_score sample_ratio sample_processor 2024 75
       = Returns second
    /\ Quality.low_confidence_matches (_analyze_match_quality first) = O
    /\ Quality.total_matches (_analyze_match_quality first)
       = (Quality.high_confidence_matches (_analyze_match_quality first)
          + Quality.medium_confidence_matches (_analyze_match_quality first))%nat
    /\ Quality.total_matches (_analyze_match_quality second)
       = (Quality.high_confidence_matches (_analyze_match_quality second)
          + Quality.medium_confidence_matches (_analyze_match_quality second)
          + Quality.low_confidence_matches (_analyze_match_quality second))%nat.
Proof.
assert (Hnd : NoDup (labels sample_roster)) by distinct_labels.
assert (Hknown : statuses_known (retention_survey sample_processor))
  by known_statuses.
destruct (passes_match_quality sample_extract_score sample_ratio sample_processor
            2024 75 sample_roster Hnd eq_refl Hknown eq_refl)
  as (first & second & H1 & H2 & H3 & H4 & H5 & _).
exists first, second. auto.
Defined.

Lemma unique_In x l : In x (unique l) <-> In x l.
Proof.
induction l as [|y l IH]; simpl; [tauto|].
rewrite List.filter_In, IH.
destruct (String.eqb_spec x y) as [->|Hne]; simpl; intuition congruence.
Qed.

Lemma unique_NoDup l : List.NoDup (unique l).
Proof.
induction l as [|y l IH]; simpl; constructor.
- intros H. apply List.filter_In in H. destruct H as [_ H].
  rewrite String.eqb_refl in H. discriminate.
- apply List.NoDup_filter, IH.
Qed.

Lemma omap_keys_NoDup {B} (f : string -> option (string * B)) l :
  (forall x y, f x = Some y -> fst y = x) ->
  List.NoDup l -> List.NoDup (List.map fst (omap f l)).
Proof.
intros Hkey. induction 1 as [|x l Hx Hl IH]; simpl; [constructor|].
destruct (f x) as [y|] eqn:E; [|exact IH]. simpl. constructor; [|exact IH].
rewrite (Hkey x y E). intros Hin. apply Hx.
apply List.in_map_iff in Hin. destruct Hin as [z [Hz Hin]].
apply list_elem_of_In, list_elem_of_omap in Hin. destruct Hin as [w [Hw Hfw]].
apply Hkey in Hfw. rewrite Hz in Hfw. subst w. apply list_elem_of_In, Hw.
Qed.

Lemma count_status_le (group : frame Res.row) :
  (count_status "Still in PEI" group + count_status "No longer in PEI" group
   + count_status "Inconclusive" group
   <= count_rows (fun r => negb (is_unknown r)) group)%nat.
Proof.
unfold count_status, count_rows, is_unknown.
induction group as [|[i r] group IH]; simpl; [lia|].
destruct (String.eqb_spec (Res.retention_status r) "Still in PEI") as [E1|E1];
  destruct (String.eqb_spec (Res.retention_status r) "No longer in PEI") as [E2|E2];
  destruct (String.eqb_spec (Res.retention_status r) "Inconclusive") as [E3|E3];
  destruct (String.eqb_spec (Res.retention_status r) "Unknown") as [E4|E4];
  simpl; try lia; congruence.
Qed.

(** X12.  The entries of a breakdown (by institution; by program, for
    programs of at least 5 members; by country, for countries of at least 3).
    The keys are distinct and none is a missing value.  An entry counts the
    rows of its value: at least the minimum, at least one of them matched,
    the three statuses together no more than the matched ones, so that the
    retention rate has a positive denominator and is at most 100.  Every
    value present on enough rows, one of them matched, has an entry. *)
Theorem breakdown_entries (col : Reg.row -> string) (least : nat)
    (data : frame Res.row) :
  NoDup (List.map fst (breakdown_by col least data))
  /\ (forall value entry,
        In (value, entry) (breakdown_by col least data) ->
        value <> ""
        /\ Breakdown.total_members entry
           = count_rows (fun r => String.eqb (col (Res.reg r)) value) data
        /\ (least <= Breakdown.total_members entry)%nat
        /\ (1 <= Breakdown.matched_members entry <= Breakdown.total_members entry)%nat
        /\ (Breakdown.still_in_pei entry + Breakdown.no_longer_in_pei entry
            + Breakdown.inconclusive entry <= Breakdown.matched_members entry)%nat
        /\ 0 < snd (Breakdown.retention_rate entry)
        /\ 0 <= fst (Breakdown.retention_rate entry)
             <= 100 * snd (Breakdown.retention_rate entry))
  /\ (forall ir,
        In ir data -> col (Res.reg (snd ir)) <> "" ->
        is_unknown (snd ir) = false ->
        (least <= count_rows
                    (fun r => String.eqb (col (Res.reg r)) (col (Res.reg (snd ir))))
                    data)%nat ->
        exists entry,
          In (col (Res.reg (snd ir)), entry) (breakdown_by col least data)).
Proof.
set (values := unique (List.filter Str.truthy
                         (List.map (fun ir => col (Res.reg (snd ir))) data))).
set (group := fun value : string =>
       List.filter (fun ir : Z * Res.row => String.eqb (col (Res.reg (snd ir))) value)
         data).
set (entry_of_value := fun value : string =>
       if (least <=? List.length (group value))%nat
       then option_map (pair value) (breakdown_of (group value))
       else None).
assert (Hdef : breakdown_by col least data = omap entry_of_value values)
  by reflexivity.
rewrite Hdef. clear Hdef.
assert (Hkey : forall x y, entry_of_value x = Some y -> fst y = x).
{ intros x y. unfold entry_of_value.
  destruct (least <=? List.length (group x))%nat; [|discriminate].
  destruct (breakdown_of (group x)); [|discriminate].
  simpl. intros H. injection H as <-. reflexivity. }
split; [apply NoDup_ListNoDup, omap_keys_NoDup; [exact Hkey | apply unique_NoDup]|].
split.
- intros value entry Hin.
  apply list_elem_of_In, list_elem_of_omap in Hin. destruct Hin as [x [Hx Hfx]].
  assert (Hxv := Hkey x _ Hfx). simpl in Hxv. subst x.
  apply list_elem_of_In, unique_In, List.filter_In in Hx. destruct Hx as [_ Htruthy].
  unfold entry_of_value in Hfx.
  destruct (Nat.leb_spec least (List.length (group value))) as [Hleast|];
    [|discriminate].
  unfold breakdown_of in Hfx.
  destruct (Nat.ltb_spec 0 (count_rows (fun r => negb (is_unknown r)) (group value)))
    as [Hpos|]; [|discriminate].
  simpl in Hfx. injection Hfx as <-. simpl.
  pose proof (count_status_le (group value)) as Hstatus.
  assert (Hmatched : (count_rows (fun r => negb (is_unknown r)) (group value)
                      <= List.length (group value))%nat).
  { unfold count_rows. apply List.filter_length_le. }
  split; [intros ->; discriminate|]. split; [reflexivity|].
  split; [exact Hleast|]. split; [lia|]. split; [lia|]. split; lia.
- intros ir Hir Hvalue Hknown Hleast.
  set (value := col (Res.reg (snd ir))) in *.
  assert (Hgroup : In ir (group value)).
  { unfold group. apply List.filter_In. split; [exact Hir|].
    apply String.eqb_refl. }
  assert (Hpos : (0 < count_rows (fun r => negb (is_unknown r)) (group value))%nat).
  { unfold count_rows.
    assert (Hin : In ir (List.filter (fun jr : Z * Res.row => negb (is_unknown (snd jr)))
                           (group value))).
    { apply List.filter_In. split; [exact Hgroup|]. rewrite Hknown. reflexivity. }
    destruct (List.filter _ (group value)); [contradiction | simpl; lia]. }
  assert (Hentry : exists entry, entry_of_value value = Some (value, entry)).
  { unfold entry_of_value, breakdown_of.
    destruct (Nat.leb_spec least (List.length (group value))) as [_|Hlt].
    2:{ exfalso. unfold count_rows in Hleast. fold (group value) in Hleast. lia. }
    destruct (Nat.ltb_spec 0 (count_rows (fun r => negb (is_unknown r)) (group value)))
      as [_|Hzero]; [|lia].
    eexists. reflexivity. }
  destruct Hentry as [entry Hentry]. exists entry.
  apply list_elem_of_In, list_elem_of_omap. exists value. split; [|exact Hentry].
  apply list_elem_of_In, unique_In, List.filter_In. split.
  + apply List.in_map_iff. exists ir. auto.
  + apply truthy_nonempty, Hvalue.
Qed.

(** ** The eligibility filter *)

Lemma filter_idem {A} (p : A -> bool) (l : list A) :
  List.filter p (List.filter p l) = List.filter p l.
Proof.
induction l as [|a l IH]; simpl; [reflexivity|].
destruct (p a) eqn:E; simpl; [rewrite E, IH|]; auto.
Qed.

Lemma filter_sublist {A} (p : A -> bool) (l : list A) :
  sublist (List.filter p l) l.
Proof.
induction l as [|a l IH]; simpl; [constructor|].
destruct (p a); constructor; exact IH.
Qed.

Lemma filter_pei_students_cases {A}
    (Province Institution_of_Study : option (A -> string)) (df : frame A) :
  filter_pei_students Province Institution_of_Study df = df
  \/ exists p, filter_pei_students Province Institution_of_Study df = List.filter p df
       /\ forall kept, filter_pei_students Province Institution_of_Study kept
                       = kept
                       \/ filter_pei_students Province Institution_of_Study kept
                          = List.filter p kept.
Proof.
destruct df as [|r df]; [left; reflexivity|].
destruct Province as [col|].
- right. exists (pei_mask col (List.map Str.lower pei_variations)).
  split; [reflexivity|]. intros [|k kept]; [left | right]; reflexivity.
- destruct Institution_of_Study as [col|]; [|left; reflexivity].
  right. exists (pei_mask col pei_institutions_lower).
  split; [reflexivity|]. intros [|k kept]; [left | right]; reflexivity.
Qed.

(** X13.  [filter_pei_students] returns a sub-frame: the rows it keeps
    are rows of the frame it is given, in the same order and under the same
    labels, so distinct labels stay distinct; and it is idempotent, a second
    filtering removes nothing more. *)
Theorem filter_pei_students_subframe {A}
    (Province Institution_of_Study : option (A -> string)) (df : frame A) :
  let kept := filter_pei_students Province Institution_of_Study df in
  filter_pei_students Province Institution_of_Study kept = kept
  /\ sublist kept df
  /\ (NoDup (labels df) -> NoDup (labels kept))
  /\ (List.length kept <= List.length df)%nat.
Proof.
intros kept. unfold kept.
destruct (filter_pei_students_cases Province Institution_of_Study df)
  as [Hsame | [p [Hfilter Hagain]]].
- rewrite !Hsame. split; [reflexivity|]. split; [reflexivity|].
  split; [auto | lia].
- rewrite !Hfilter. split.
  + destruct (Hagain (List.filter p df)) as [H|H]; rewrite H;
      [reflexivity | apply filter_idem].
  + split; [apply filter_sublist|]. split.
    * apply labels_filter_NoDup.
    * apply List.filter_length_le.
Qed.

(** ** The graduation status *)

(** X14.  [classify_graduation_status] returns one of three classes, and
    it reads its argument up to case and surrounding whitespace only: two
    statuses that are equal once trimmed and lower-cased get the same
    class. *)
Theorem graduation_status_classes (a b : string) :
  In (classify_graduation_status a) ["Graduate"; "Current Student"; "Unknown"]
  /\ (Str.lower (Str.strip a) = Str.lower (Str.strip b) ->
      classify_graduation_status a = classify_graduation_status b).
Proof.
assert (Hread : forall s,
  classify_graduation_status s
  = if isin ["graduate"; "graduated"] (Str.lower (Str.strip s)) then "Graduate"
    else if isin ["current student"; "student"; "current"] (Str.lower (Str.strip s))
         then "Current Student"
    else "Unknown").
{ intros s. unfold classify_graduation_status.
  destruct (Str.truthy s) eqn:E; [reflexivity|].
  apply truthy_empty in E. subst s. reflexivity. }
split.
- rewrite Hread.
  destruct (isin _ _); [simpl; auto|]. destruct (isin _ _); simpl; auto.
- intros H. rewrite !Hread, H. reflexivity.
Qed.

(** ** Tokens: [split] and [join] *)

Module TokenFacts.
Import Str StrFacts.

Lemma split_ws_from_app p : forall cur rest,
  List.Forall (fun c => is_space c = false) p ->
  split_ws_from cur (p ++ rest) = split_ws_from (List.rev p ++ cur) rest.
Proof.
induction p as [|c p IH]; intros cur rest H; simpl; [reflexivity|].
inversion H as [|? ? Hc Hp]; subst. rewrite Hc, IH by assumption.
rewrite <- List.app_assoc. reflexivity.
Qed.

Lemma split_ws_from_tokens l : forall cur,
  List.Forall (fun c => is_space c = false) cur ->
  List.Forall token (split_ws_from cur l).
Proof.
assert (Hrev : forall cur, cur <> [] ->
          List.Forall (fun c => is_space c = false) cur -> token (List.rev cur)).
{ intros cur Hne Hcur. split; [|apply List.Forall_rev, Hcur].
  intros Hnil. apply Hne. rewrite <- (List.rev_involutive cur), Hnil. reflexivity. }
induction l as [|c l IH]; intros cur Hcur; simpl.
- destruct cur as [|d cur]; [constructor|].
  constructor; [apply Hrev; [discriminate | exact Hcur] | constructor].
- destruct (is_space c) eqn:Ec.
  + destruct cur as [|d cur]; [apply IH; constructor|].
    constructor; [apply Hrev; [discriminate | exact Hcur] | apply IH; constructor].
  + apply IH. constructor; assumption.
Qed.

Lemma split_ws_join parts :
  List.Forall token parts -> split_ws_l (join_l parts) = parts.
Proof.
unfold split_ws_l.
induction 1 as [|p ps [Hne Hp] Hps IH]; [reflexivity|].
assert (Hcur : List.rev (List.rev p ++ []) = p).
{ rewrite List.app_nil_r. apply List.rev_involutive. }
assert (Hrev : List.rev p ++ [] <> []).
{ intros Hnil. apply Hne. rewrite <- Hcur, Hnil. reflexivity. }
destruct ps as [|q qs].
- simpl. rewrite <- (List.app_nil_r p) at 1. rewrite split_ws_from_app by exact Hp.
  simpl. destruct (List.rev p ++ []) as [|d r] eqn:E; [contradiction|].
  rewrite Hcur. reflexivity.
- change (join_l (p :: q :: qs)) with (p ++ " "%char :: join_l (q :: qs)).
  rewrite split_ws_from_app by exact Hp.
  cbn [split_ws_from]. change (is_space " "%char) with true. cbv iota.
  destruct (List.rev p ++ []) as [|d r] eqn:E; [contradiction|].
  rewrite Hcur, IH. reflexivity.
Qed.

Lemma chars_append a b : chars (a ++ b)%string = chars a ++ chars b.
Proof.
unfold chars. induction a as [|c a IH]; simpl; [reflexivity|].
rewrite IH. reflexivity.
Qed.

Lemma str_app a b : str (a ++ b) = (str a ++ str b)%string.
Proof.
unfold str. induction a as [|c a IH]; simpl; [reflexivity|].
rewrite IH. reflexivity.
Qed.

Lemma split_ws_tokens s : List.Forall is_token (split_ws s).
Proof.
unfold split_ws, split_ws_l. apply List.Forall_map.
refine (List.Forall_impl _ _ (split_ws_from_tokens (chars s) [] (List.Forall_nil _))).
intros p Hp. unfold is_token. rewrite chars_str. exact Hp.
Qed.

Lemma split_ws_of_join parts :
  List.Forall is_token parts -> split_ws (join parts) = parts.
Proof.
intros H. unfold split_ws, join. rewrite chars_str, split_ws_join.
- rewrite List.map_map. rewrite <- (List.map_id parts) at 2.
  apply List.map_ext. apply str_chars.
- apply List.Forall_map. exact H.
Qed.

Lemma join_cons x rest :
  rest <> [] -> join (x :: rest) = (x ++ " " ++ join rest)%string.
Proof.
destruct rest as [|r rs]; [contradiction|]. intros _. unfold join.
change (join_l (List.map chars (x :: r :: rs)))
  with (chars x ++ " "%char :: join_l (List.map chars (r :: rs))).
rewrite str_app, str_chars. reflexivity.
Qed.

Lemma join_single x : join [x] = x.
Proof. unfold join. simpl. apply str_chars. Qed.

Lemma join_pair x y : join [x; y] = (x ++ " " ++ y)%string.
Proof. rewrite join_cons by discriminate. rewrite join_single. reflexivity. Qed.

End TokenFacts.

(** ** The name variants *)

Lemma nickname_tokens fn :
  In fn nickname_map ->
  is_token (fst fn) /\ is_token (snd fn)
  /\ Str.lower (fst fn) = fst fn /\ Str.lower (snd fn) = snd fn.
Proof.
intros H. simpl in H.
repeat (destruct H as [<-|H];
        [split; [split; [discriminate | repeat constructor]|];
         split; [split; [discriminate | repeat constructor]|];
         split; reflexivity|]).
contradiction.
Qed.

Lemma nickname_values_NoDup : List.NoDup (List.map snd nickname_map).
Proof. apply NoDup_ListNoDup, (bool_decide_unpack _). vm_compute. exact I. Qed.

Lemma nickname_keys_apart k :
  In k (List.map fst nickname_map) -> ~ In k (List.map snd nickname_map).
Proof.
intros Hk Hv.
assert (H : List.forallb
              (fun k => negb (List.existsb (String.eqb k) (List.map snd nickname_map)))
              (List.map fst nickname_map) = true) by (vm_compute; reflexivity).
rewrite List.forallb_forall in H. specialize (H k Hk).
apply negb_true_iff in H.
assert (Hex : List.existsb (String.eqb k) (List.map snd nickname_map) = true).
{ apply List.existsb_exists. exists k. split; [exact Hv | apply String.eqb_refl]. }
congruence.
Qed.

Lemma filter_value_length {A} (s : string) (l : list (A * string)) :
  List.NoDup (List.map snd l) ->
  (List.length (List.filter (fun fn => String.eqb s (snd fn)) l) <= 1)%nat.
Proof.
induction l as [|fn l IH]; simpl; intros Hnd; [lia|].
inversion Hnd as [|? ? Hfn Hl]; subst.
destruct (String.eqb_spec s (snd fn)) as [->|Hne]; [|auto].
simpl. assert (Hnone : List.filter (fun fn' => String.eqb (snd fn) (snd fn')) l = []).
{ destruct (List.filter _ l) as [|x xs] eqn:E; [reflexivity|]. exfalso.
  assert (Hx : In x (List.filter (fun fn' => String.eqb (snd fn) (snd fn')) l))
    by (rewrite E; left; reflexivity).
  apply List.filter_In in Hx. destruct Hx as [Hx Heq].
  apply String.eqb_eq in Heq. apply Hfn. rewrite Heq. apply List.in_map, Hx. }
rewrite Hnone. simpl. lia.
Qed.

(** A first name is never both a full name and a nickname of the table,
    and it is the nickname of one full name at most. *)
Lemma nickname_directions s :
  (List.length (List.filter (fun fn => String.eqb s (snd fn)) nickname_map)
   + match nickname_of s with Some _ => 1 | None => 0 end <= 1)%nat.
Proof.
pose proof (filter_value_length s nickname_map nickname_values_NoDup) as Hle.
destruct (nickname_of s) as [n|] eqn:E; [|lia].
assert (Hkey : In s (List.map fst nickname_map)).
{ unfold nickname_of in E.
  destruct (List.find _ nickname_map) as [fn|] eqn:Efind; [|discriminate].
  apply List.find_some in Efind. destruct Efind as [Hin Heq].
  apply String.eqb_eq in Heq. rewrite <- Heq. apply List.in_map, Hin. }
destruct (List.filter _ nickname_map) as [|x xs] eqn:Ef; [simpl; lia|]. exfalso.
assert (Hx : In x (List.filter (fun fn => String.eqb s (snd fn)) nickname_map))
  by (rewrite Ef; left; reflexivity).
apply List.filter_In in Hx. destruct Hx as [Hx Heq]. apply String.eqb_eq in Heq.
apply (nickname_keys_apart s Hkey). rewrite Heq. apply List.in_map, Hx.
Qed.

Lemma hd_last_tokens (parts : list string) :
  List.Forall is_token parts -> parts <> [] ->
  is_token (List.hd "" parts) /\ is_token (List.last parts "")
  /\ List.Forall is_token (List.tl parts).
Proof.
intros H Hne. destruct parts as [|p ps]; [contradiction|].
inversion H as [|? ? Hp Hps]; subst. split; [exact Hp|]. split; [|exact Hps].
clear Hne H. revert p Hp. induction Hps as [|q qs Hq Hqs IH]; intros p Hp; [exact Hp|].
change (List.last (p :: q :: qs) "") with (List.last (q :: qs) ""). apply IH, Hq.
Qed.

(** The variants as lists of tokens. *)
Lemma name_variants_reading name :
  (2 <= List.length (Str.split_ws name))%nat ->
  let parts := Str.split_ws name in
  let first_name := Str.lower (List.hd "" parts) in
  _generate_name_variants name
  = List.map Str.join
      ([[List.last parts ""; List.hd "" parts]]
       ++ (if (2 <? List.length parts)%nat
           then [[List.hd "" parts; List.last parts ""]] else [])
       ++ (match nickname_of first_name with
           | Some nick => [nick :: List.tl parts]
           | None => []
           end)
       ++ List.map (fun fn => fst fn :: List.tl parts)
            (List.filter (fun fn => String.eqb first_name (snd fn)) nickname_map)).
Proof.
intros Hlen parts first_name. unfold _generate_name_variants. fold parts.
destruct (Nat.leb_spec 2 (List.length parts)) as [_|Hlt]; [|unfold parts in Hlt; lia].
fold first_name.
assert (Htl : List.tl parts <> []).
{ unfold parts in *. destruct (Str.split_ws name) as [|p [|q qs]]; simpl in *;
    [lia | lia | discriminate]. }
rewrite !List.map_app. cbn [List.map]. rewrite TokenFacts.join_pair.
f_equal. f_equal.
{ destruct (2 <? List.length parts)%nat; [|reflexivity]. cbn [List.map].
  rewrite TokenFacts.join_pair. reflexivity. }
f_equal.
{ destruct (nickname_of first_name); [|reflexivity]. cbn [List.map].
  unfold with_rest. rewrite (TokenFacts.join_cons _ _ Htl). reflexivity. }
rewrite List.map_map. apply List.map_ext. intros fn.
unfold with_rest. rewrite (TokenFacts.join_cons _ _ Htl). reflexivity.
Qed.

(** X15.  The shape of the name variants.  A name of fewer than two tokens
    has none.  A name of two tokens or more has from one to three, the first
    being its last token followed by its first; every variant is a name of
    two tokens or more in normal form (single blanks, no whitespace at the
    ends). *)
Theorem name_variants_shape (name : string) :
  let parts := Str.split_ws name in
  let variants := _generate_name_variants name in
  ((List.length parts < 2)%nat -> variants = [])
  /\ ((2 <= List.length parts)%nat ->
      (1 <= List.length variants <= 3)%nat
      /\ List.hd "" variants
         = (List.last parts "" ++ " " ++ List.hd "" parts)%string
      /\ List.Forall
           (fun v => (2 <= List.length (Str.split_ws v))%nat
                     /\ Str.join (Str.split_ws v) = v)
           variants).
Proof.
intros parts variants. split.
- intros Hlt. unfold variants, _generate_name_variants. fold parts.
  destruct (Nat.leb_spec 2 (List.length parts)); [lia | reflexivity].
- intros Hlen. unfold variants. rewrite (name_variants_reading name Hlen).
  fold parts. set (first_name := Str.lower (List.hd "" parts)).
  assert (Hne : parts <> []) by (intros E; rewrite E in Hlen; simpl in Hlen; lia).
  destruct (hd_last_tokens parts (TokenFacts.split_ws_tokens name) Hne)
    as (Hhd & Hlast & Htl).
  assert (Htl2 : (1 <= List.length (List.tl parts))%nat).
  { destruct parts as [|p [|q qs]]; simpl in *; lia. }
  split; [|split].
  + rewrite List.length_map, !List.length_app, List.length_map.
    generalize (nickname_directions first_name).
    destruct (nickname_of first_name) as [nick|];
      destruct (2 <? List.length parts)%nat; cbn [List.length]; lia.
  + simpl. apply TokenFacts.join_pair.
  + apply List.Forall_map. apply List.Forall_forall. intros toks Htoks.
    assert (Hvalid : List.Forall is_token toks /\ (2 <= List.length toks)%nat).
    { apply List.in_app_or in Htoks. destruct Htoks as [[<-|[]]|Htoks].
      { split; [|cbn [List.length]; lia].
        constructor; [exact Hlast|]. constructor; [exact Hhd | constructor]. }
      apply List.in_app_or in Htoks. destruct Htoks as [Htoks|Htoks].
      { destruct (2 <? List.length parts)%nat; [|contradiction].
        destruct Htoks as [<-|[]]. split; [|cbn [List.length]; lia].
        constructor; [exact Hhd|]. constructor; [exact Hlast | constructor]. }
      apply List.in_app_or in Htoks. destruct Htoks as [Htoks|Htoks].
      { unfold nickname_of in Htoks.
        destruct (List.find _ nickname_map) as [fn|] eqn:Efind; [|contradiction].
        apply List.find_some in Efind. destruct Efind as [Hfn _].
        destruct Htoks as [<-|[]].
        destruct (nickname_tokens fn Hfn) as (_ & Hnick & _).
        split; [constructor; assumption | cbn [List.length]; lia]. }
      apply List.in_map_iff in Htoks. destruct Htoks as [fn [<- Hfn]].
      apply List.filter_In in Hfn. destruct Hfn as [Hfn _].
      destruct (nickname_tokens fn Hfn) as (Hfull & _).
      split; [constructor; assumption | cbn [List.length]; lia]. }
    destruct Hvalid as [Htok Hlen2].
    rewrite (TokenFacts.split_ws_of_join toks Htok). split; [exact Hlen2 | reflexivity].
Qed.

Lemma nickname_of_full full nick :
  In (full, nick) nickname_map -> nickname_of full = Some nick.
Proof.
intros H. simpl in H.
repeat (destruct H as [H|H]; [injection H as <- <-; reflexivity|]).
contradiction.
Qed.

(** X16.  Nickname substitution works in both directions and undoes
    itself: for an entry (full name, nickname) of the table and any
    following tokens, the name with the nickname is a variant of the name
    with the full name, and the name with the full name is a variant of the
    name with the nickname. *)
Theorem nickname_variants_both_ways (full nick : string) (rest : list string) :
  In (full, nick) nickname_map ->
  rest <> [] ->
  List.Forall is_token rest ->
  In (Str.join (nick :: rest)) (_generate_name_variants (Str.join (full :: rest)))
  /\ In (Str.join (full :: rest)) (_generate_name_variants (Str.join (nick :: rest))).
Proof.
intros Hentry Hne Hrest.
destruct (nickname_tokens (full, nick) Hentry) as (Hfull & Hnick & Hlf & Hln).
simpl in Hfull, Hnick, Hlf, Hln.
assert (Hlen : forall x, (2 <= List.length (x :: rest))%nat).
{ intros x. destruct rest; [contradiction | simpl; lia]. }
split.
- assert (Hparts : Str.split_ws (Str.join (full :: rest)) = full :: rest).
  { apply TokenFacts.split_ws_of_join. constructor; assumption. }
  rewrite name_variants_reading by (rewrite Hparts; apply Hlen).
  rewrite Hparts. cbn [List.hd List.tl]. rewrite Hlf.
  rewrite (nickname_of_full full nick Hentry).
  apply List.in_map. apply List.in_or_app. right.
  apply List.in_or_app. right. apply List.in_or_app. left. left. reflexivity.
- assert (Hparts : Str.split_ws (Str.join (nick :: rest)) = nick :: rest).
  { apply TokenFacts.split_ws_of_join. constructor; assumption. }
  rewrite name_variants_reading by (rewrite Hparts; apply Hlen).
  rewrite Hparts. cbn [List.hd List.tl]. rewrite Hln.
  apply List.in_map. apply List.in_or_app. right.
  apply List.in_or_app. right. apply List.in_or_app. right.
  apply List.in_map_iff. exists (full, nick). split; [reflexivity|].
  apply List.filter_In. split; [exact Hentry|]. apply String.eqb_refl.
Qed.

Lemma nickname_variants_both_ways_witness :
  In (Str.join ["bob"; "j"; "lee"])
    (_generate_name_variants (Str.join ["robert"; "j"; "lee"]))
  /\ In (Str.join ["robert"; "j"; "lee"])
       (_generate_name_variants (Str.join ["bob"; "j"; "lee"])).
Proof.
apply (nickname_variants_both_ways "robert" "bob" ["j"; "lee"]).
- simpl. auto.
- discriminate.
- repeat constructor; discriminate.
Defined.

(** ** The search name *)

Module SearchNameFacts.
Import Str StrFacts TokenFacts.


Lemma upper_lower_char c : upper_char c = c -> is_lower c = false.
Proof. by_cases c. Qed.












End SearchNameFacts.


(** ** Preprocessing a roster *)

Lemma filter_map_rows {A} (p : Z * A -> bool) (h : A -> A) (l : frame A) :
  (forall ir, p (fst ir, h (snd ir)) = p ir) ->
  List.filter p (List.map (fun ir => (fst ir, h (snd ir))) l)
  = List.map (fun ir => (fst ir, h (snd ir))) (List.filter p l).
Proof.
intros Hp. induction l as [|a l IH]; simpl; [reflexivity|].
rewrite Hp. destruct (p a); simpl; rewrite IH; reflexivity.
Qed.

Lemma filter_pei_students_cleaned Province (df : frame Reg.row) :
  (forall col row, Province = Some col -> col (reg_cleaned row) = col row) ->
  filter_pei_students Province (Some Reg.Institution_of_Study)
    (List.map (fun ir => (fst ir, reg_cleaned (snd ir))) df)
  = List.map (fun ir => (fst ir, reg_cleaned (snd ir)))
      (filter_pei_students Province (Some Reg.Institution_of_Study) df).
Proof.
intros Hcol. destruct df as [|r df]; [reflexivity|].
destruct Province as [col|].
- refine (filter_map_rows (pei_mask col (List.map Str.lower pei_variations))
            reg_cleaned (r :: df) _).
  intros ir. unfold pei_mask. simpl. rewrite (Hcol col (snd ir) eq_refl). reflexivity.
- refine (filter_map_rows (pei_mask Reg.Institution_of_Study pei_institutions_lower)
            reg_cleaned (r :: df) _).
  intros ir. reflexivity.
Qed.

(** X18.  Preprocessing a roster is idempotent, although [clean_names] is
    not: the derived columns are computed from the raw ones, which
    preprocessing leaves as they are, and the filter removes nothing from its
    own result.  The same holds of the derived columns of a survey row.
    [Province], when the roster has that column, is a raw column. *)
Theorem preprocessing_idempotent
    (Province : option (Reg.row -> string)) (df : frame Reg.row)
    (answer : Survey.row) :
  (forall col row, Province = Some col -> col (reg_cleaned row) = col row) ->
  preprocess_registrations Province (preprocess_registrations Province df)
  = preprocess_registrations Province df
  /\ survey_cleaned (survey_cleaned answer) = survey_cleaned answer.
Proof.
intros Hcol. split; [|reflexivity].
unfold preprocess_registrations.
rewrite (filter_pei_students_cleaned Province _ Hcol).
destruct (filter_pei_students_cases Province (Some Reg.Institution_of_Study) df)
  as [Hsame | [p [Hfilter Hagain]]].
- rewrite !Hsame. rewrite List.map_map. reflexivity.
- rewrite Hfilter. destruct (Hagain (List.filter p df)) as [H|H]; rewrite H;
    [|rewrite filter_idem]; rewrite List.map_map; reflexivity.
Qed.

(** X18 on the sample roster, whose file has no [Province] column. *)
Lemma preprocessing_idempotent_witness :
  preprocess_registrations None (preprocess_registrations None sample_roster)
  = preprocess_registrations None sample_roster
  /\ survey_cleaned (survey_cleaned (survey_row "Dr. Ann  Lee" "Ann@X.ca" "Still in PEI"))
     = survey_cleaned (survey_row "Dr. Ann  Lee" "Ann@X.ca" "Still in PEI").
Proof.
apply (preprocessing_idempotent None sample_roster
         (survey_row "Dr. Ann  Lee" "Ann@X.ca" "Still in PEI")).
intros col row H. discriminate H.
Defined.

(** ** The email domain *)

Module DomainFacts.
Import Str StrFacts.

Lemma split_on_from_app sep u : forall cur rest,
  List.Forall (fun c => eqc c sep = false) u ->
  split_on_from sep cur (u ++ rest) = split_on_from sep (List.rev u ++ cur) rest.
Proof.
induction u as [|c u IH]; intros cur rest H; simpl; [reflexivity|].
inversion H as [|? ? Hc Hu]; subst. rewrite Hc, IH by assumption.
rewrite <- List.app_assoc. reflexivity.
Qed.

Lemma split_on_pair sep u d :
  List.Forall (fun c => eqc c sep = false) u ->
  List.Forall (fun c => eqc c sep = false) d ->
  split_on_l sep (u ++ sep :: d) = [u; d].
Proof.
intros Hu Hd. unfold split_on_l.
rewrite split_on_from_app by exact Hu. simpl.
assert (Hsep : eqc sep sep = true) by apply Ascii.eqb_refl.
rewrite Hsep, List.app_nil_r, List.rev_involutive.
rewrite <- (List.app_nil_r d) at 1. rewrite split_on_from_app by exact Hd.
simpl. rewrite List.app_nil_r, List.rev_involutive. reflexivity.
Qed.

Lemma until_newline_fixed d :
  List.Forall (fun c => eqc c "010"%char = false) d -> until_newline d = d.
Proof.
induction 1 as [|c d Hc _ IH]; simpl; [reflexivity|]. rewrite Hc, IH. reflexivity.
Qed.

Lemma extract_domain_after u d :
  List.Forall (fun c => eqc c "@"%char = false) u ->
  List.Forall (fun c => eqc c "010"%char = false) d ->
  d <> [] ->
  extract_domain_l (u ++ "@"%char :: d) = Some d.
Proof.
intros Hu Hd Hne. induction Hu as [|c u Hc _ IH]; simpl.
- rewrite (until_newline_fixed d Hd). destruct d; [contradiction | reflexivity].
- rewrite Hc. exact IH.
Qed.

End DomainFacts.

(** X19.  The two readings of a domain agree on a well-formed address.
    For an address [user@domain] with a single [@], a domain that is not
    empty and no line break in it, the domain the pattern analysis extracts
    (the regular expression [@(.+)]) is the one the diagnostics search for
    (the second piece of [email.split('@')]), and the user name is the first
    piece. *)
Theorem domain_readings_agree (user domain : string) :
  List.Forall (fun c => Str.eqc c "@"%char = false) (Str.chars user) ->
  List.Forall (fun c => Str.eqc c "@"%char = false) (Str.chars domain) ->
  List.Forall (fun c => Str.eqc c "010"%char = false) (Str.chars domain) ->
  domain <> "" ->
  let email := (user ++ "@" ++ domain)%string in
  extract_domain email = Some domain
  /\ List.nth 1 (Str.split_on "@"%char email) "" = domain
  /\ username_of email = user.
Proof.
intros Hu Hd Hnl Hne email.
assert (Hchars : Str.chars email = Str.chars user ++ "@"%char :: Str.chars domain).
{ unfold email. rewrite TokenFacts.chars_append. reflexivity. }
assert (Hsplit : Str.split_on "@"%char email = [user; domain]).
{ unfold Str.split_on. rewrite Hchars, (DomainFacts.split_on_pair _ _ _ Hu Hd).
  simpl. rewrite !StrFacts.str_chars. reflexivity. }
split; [|split].
- unfold extract_domain. rewrite Hchars, DomainFacts.extract_domain_after.
  + simpl. rewrite StrFacts.str_chars. reflexivity.
  + exact Hu.
  + exact Hnl.
  + intros Hnil. apply Hne. rewrite <- (StrFacts.str_chars domain), Hnil. reflexivity.
- rewrite Hsplit. reflexivity.
- unfold username_of. rewrite Hsplit. reflexivity.
Qed.

Lemma domain_readings_agree_witness :
  extract_domain ("ann.lee" ++ "@" ++ "upei.ca")%string = Some "upei.ca"
  /\ List.nth 1 (Str.split_on "@"%char ("ann.lee" ++ "@" ++ "upei.ca")%string) ""
     = "upei.ca"
  /\ username_of ("ann.lee" ++ "@" ++ "upei.ca")%string = "ann.lee".
Proof.
apply (domain_readings_agree "ann.lee" "upei.ca").
- repeat constructor.
- repeat constructor.
- repeat constructor.
- discriminate.
Defined.

(** ** The patterns of the unmatched registrations *)

Lemma list_sum_zero {A} (L : list A) : List.list_sum (List.map (fun _ => O) L) = O.
Proof. induction L as [|a L IH]; simpl; [reflexivity | exact IH]. Qed.

Lemma list_sum_add {A} (f g : A -> nat) (L : list A) :
  List.list_sum (List.map (fun v => (f v + g v)%nat) L)
  = (List.list_sum (List.map f L) + List.list_sum (List.map g L))%nat.
Proof. induction L as [|a L IH]; simpl; [reflexivity | rewrite IH; lia]. Qed.

Lemma indicator_sum (x : string) (L : list string) :
  List.NoDup L ->
  List.list_sum (List.map (fun v => if string_dec x v then 1%nat else O) L)
  = if List.in_dec string_dec x L then 1%nat else O.
Proof.
induction 1 as [|a L Ha HL IH]; simpl; [reflexivity|].
rewrite IH. destruct (string_dec a x) as [->|Hne].
- destruct (string_dec x x); [|contradiction].
  destruct (List.in_dec string_dec x L); [contradiction | reflexivity].
- destruct (string_dec x a); [congruence|].
  destruct (List.in_dec string_dec x L); reflexivity.
Qed.

Lemma count_occ_sum (l L : list string) :
  List.NoDup L -> (forall x, In x l -> In x L) ->
  List.list_sum (List.map (List.count_occ string_dec l) L) = List.length l.
Proof.
intros HL. induction l as [|x l IH]; intros Hincl; simpl.
- apply list_sum_zero.
- rewrite (List.map_ext _
             (fun v => ((if string_dec x v then 1 else 0)
                        + List.count_occ string_dec l v)%nat)).
  2:{ intros v. destruct (string_dec x v); reflexivity. }
  rewrite list_sum_add, (indicator_sum x L HL), IH.
  + destruct (List.in_dec string_dec x L) as [_|Hout]; [reflexivity|].
    exfalso. apply Hout, Hincl. left. reflexivity.
  + intros y Hy. apply Hincl. right. exact Hy.
Qed.

Lemma value_counts_total (l : list string) :
  List.list_sum (List.map snd (value_counts l)) = List.length l.
Proof.
unfold value_counts. rewrite List.map_map. simpl.
apply count_occ_sum; [apply List.NoDup_nodup|].
intros x Hx. apply List.nodup_In, Hx.
Qed.

Lemma value_counts_keys (l : list string) :
  List.map fst (value_counts l) = List.nodup string_dec l.
Proof.
unfold value_counts. rewrite List.map_map. simpl. apply List.map_id.
Qed.

Lemma omap_length {A B} (f : A -> option B) (l : list A) :
  List.length (omap f l)
  = List.length (List.filter (fun a => match f a with Some _ => true | None => false end) l).
Proof.
induction l as [|a l IH]; [reflexivity|].
change (omap f (a :: l))
  with (match f a with Some b => b :: omap f l | None => omap f l end).
cbn [List.filter]. destruct (f a); [|exact IH].
cbn [List.length]. f_equal. exact IH.
Qed.

Lemma omap_map {A B C} (g : A -> B) (f : B -> option C) (l : list A) :
  omap f (List.map g l) = omap (fun a => f (g a)) l.
Proof.
induction l as [|a l IH]; [reflexivity|].
change (match f (g a) with Some c => c :: omap f (List.map g l)
                      | None => omap f (List.map g l) end
        = match f (g a) with Some c => c :: omap (fun a => f (g a)) l
                        | None => omap (fun a => f (g a)) l end).
rewrite IH. reflexivity.
Qed.

(** X20.  [_analyze_unmatched_patterns] adds the column [email_domain]
    to the frame it is given and changes nothing else of it.  The counts by
    domain have distinct keys, each count is at least one, and they add up
    to the number of registrations whose normalized email has a domain.  No
    name is both very short and very long, and no count exceeds the size of
    the frame. *)
Theorem unmatched_patterns_counts (unmatched : frame Res.row) :
  let found := fst (_analyze_unmatched_patterns unmatched) in
  let frame_after := snd (_analyze_unmatched_patterns unmatched) in
  List.map (fun ip => (fst ip, Unm.res (snd ip))) frame_after = unmatched
  /\ List.Forall
       (fun ip =>
          Unm.email_domain (snd ip)
          = extract_domain (Reg.email_clean (Res.reg (Unm.res (snd ip)))))
       frame_after
  /\ NoDup (List.map fst (by_email_domain found))
  /\ List.Forall (fun kv => (1 <= snd kv)%nat) (by_email_domain found)
  /\ List.list_sum (List.map snd (by_email_domain found))
     = count_rows
         (fun r => match extract_domain (Reg.email_clean (Res.reg r)) with
                   | Some _ => true
                   | None => false
                   end)
         unmatched
  /\ (very_short_names found + very_long_names found <= List.length unmatched)%nat
  /\ (names_with_special_chars found <= List.length unmatched)%nat.
Proof.
intros found frame_after. unfold found, frame_after, _analyze_unmatched_patterns.
cbn [fst snd by_email_domain very_short_names very_long_names
     names_with_special_chars].
split; [|split; [|split; [|split; [|split; [|split]]]]].
- rewrite List.map_map. simpl. rewrite <- (List.map_id unmatched) at 2.
  apply List.map_ext. intros [i r]. reflexivity.
- apply List.Forall_map. apply List.Forall_forall. intros ir _. reflexivity.
- rewrite value_counts_keys. apply NoDup_ListNoDup, List.NoDup_nodup.
- unfold value_counts. apply List.Forall_map. apply List.Forall_forall.
  intros v Hv. simpl. apply List.nodup_In in Hv.
  apply (List.count_occ_In string_dec) in Hv. lia.
- rewrite value_counts_total, omap_map. cbn [snd Unm.email_domain].
  rewrite omap_length. reflexivity.
- unfold count_rows. clear. induction unmatched as [|[i r] l IH]; simpl; [lia|].
  destruct (Z.ltb_spec (Str.len (Reg.name_clean (Res.reg r))) 5) as [H5|H5];
    destruct (Z.ltb_spec 30 (Str.len (Reg.name_clean (Res.reg r)))) as [H30|H30];
    simpl; lia.
- unfold count_rows. apply List.filter_length_le.
Qed.

(** ** One registration at a time *)

(** X21.  On rosters with distinct labels, what the two passes make of a
    registration depends on that registration and on the survey only: not on
    the other registrations, nor on its label, nor on its position.  Two
    rosters matched against the same survey give a registration they share
    the same result row. *)
Theorem passes_row_by_row
    (extract_score ratio : string -> string -> Z)
    (dp dp' : DataProcessor) (year confidence_threshold : Z)
    (regs regs' : frame Reg.row) :
  NoDup (labels regs) ->
  NoDup (labels regs') ->
  registrations_of dp year = Returns regs ->
  registrations_of dp' year = Returns regs' ->
  retention_survey dp = retention_survey dp' ->
  exists first second first' second',
    match_members extract_score dp year = Returns first
    /\ improved_matching extract_score ratio dp year confidence_threshold
       = Returns second
    /\ match_members extract_score dp' year = Returns first'
    /\ improved_matching extract_score ratio dp' year confidence_threshold
       = Returns second'
    /\ forall i j idx idx' r,
         List.nth_error regs i = Some (idx, r) ->
         List.nth_error regs' j = Some (idx', r) ->
         exists row row2,
           List.nth_error first i = Some (idx, row)
           /\ List.nth_error first' j = Some (idx', row)
           /\ List.nth_error second i = Some (idx, row2)
           /\ List.nth_error second' j = Some (idx', row2).
Proof.
intros Hnd Hnd' Hregs Hregs' Hsurvey.
eexists. eexists. eexists. eexists.
split; [apply (match_members_reading extract_score dp year regs Hnd Hregs)|].
split; [apply (improved_matching_reading extract_score ratio dp year
                 confidence_threshold regs Hnd Hregs)|].
split; [apply (match_members_reading extract_score dp' year regs' Hnd' Hregs')|].
split; [apply (improved_matching_reading extract_score ratio dp' year
                 confidence_threshold regs' Hnd' Hregs')|].
intros i j idx idx' r Hi Hj. rewrite <- Hsurvey.
exists (matched_row extract_score (retention_survey dp) r),
  (improved_result extract_score ratio confidence_threshold (retention_survey dp)
     (matched_row extract_score (retention_survey dp) r)).
split; [apply (nth_error_rows (matched_row extract_score (retention_survey dp))
                 regs i idx r Hi)|].
split; [apply (nth_error_rows (matched_row extract_score (retention_survey dp))
                 regs' j idx' r Hj)|].
split.
- apply (nth_error_rows
           (fun r => improved_result extract_score ratio confidence_threshold
                       (retention_survey dp)
                       (matched_row extract_score (retention_survey dp) r))
           regs i idx r Hi).
- apply (nth_error_rows
           (fun r => improved_result extract_score ratio confidence_threshold
                       (retention_survey dp)
                       (matched_row extract_score (retention_survey dp) r))
           regs' j idx' r Hj).
Qed.

(** X21 on the sample roster and on a roster holding one of its
    registrations alone, under another label. *)
Lemma passes_row_by_row_witness :
  exists first second first' second',
    match_members sample_extract_score sample_processor 2024 = Returns first
    /\ improved_matching sample_extract_score sample_ratio sample_processor 2024 75
       = Returns second
    /\ match_members sample_extract_score
         (processor sample_survey [(40, reg_row "Ann B Leigh" "")]) 2024
       = Returns first'
    /\ improved_matching sample_extract_score sample_ratio
         (processor sample_survey [(40, reg_row "Ann B Leigh" "")]) 2024 75
       = Returns second'
    /\ exists row row2,
         List.nth_error first 3 = Some (5, row)
         /\ List.nth_error first' 0 = Some (40, row)
         /\ List.nth_error second 3 = Some (5, row2)
         /\ List.nth_error second' 0 = Some (40, row2).
Proof.
assert (Hnd : NoDup (labels sample_roster)) by distinct_labels.
assert (Hnd' : NoDup (labels [(40, reg_row "Ann B Leigh" "")])) by distinct_labels.
destruct (passes_row_by_row sample_extract_score sample_ratio sample_processor
            (processor sample_survey [(40, reg_row "Ann B Leigh" "")]) 2024 75
            sample_roster [(40, reg_row "Ann B Leigh" "")]
            Hnd Hnd' eq_refl eq_refl eq_refl)
  as (first & second & first' & second' & H1 & H2 & H3 & H4 & Hrow).
exists first, second, first', second'.
split; [exact H1|]. split; [exact H2|]. split; [exact H3|]. split; [exact H4|].
exact (Hrow 3%nat 0%nat 5 40 (reg_row "Ann B Leigh" "") eq_refl eq_refl).
Defined.

(** ** The threshold of the second pass *)

Lemma find_weaken {A} (p q : A -> bool) (l : list A) x :
  (forall a, p a = true -> q a = true) ->
  List.find p l = Some x -> exists y, List.find q l = Some y.
Proof.
intros Hpq. induction l as [|a l IH]; simpl; [discriminate|].
destruct (q a) eqn:Eq; [eauto|].
destruct (p a) eqn:Ep; [|exact IH].
rewrite (Hpq a Ep) in Eq. discriminate.
Qed.

Lemma find_by_email_some survey e :
  In e (survey_emails survey) ->
  exists r, List.find (fun r => String.eqb (Survey.email_clean r) e) survey = Some r.
Proof.
unfold survey_emails. induction survey as [|s survey IH]; simpl; [contradiction|].
destruct (String.eqb_spec (Survey.email_clean s) e) as [_|Hne]; [eauto|].
intros [H|H]; [contradiction | auto].
Qed.

Section ThresholdFacts.

Variable extract_score : string -> string -> Z.
Variable ratio : string -> string -> Z.

Lemma partial_hit_weaken thr thr' survey name h :
  thr <= thr' ->
  partial_hit extract_score thr' survey name = Some h ->
  partial_hit extract_score thr survey name = Some h.
Proof.
intros Hle. unfold partial_hit.
destruct (Str.truthy name && _); [|discriminate].
destruct (best_candidate _ _ _) as [b|]; [|discriminate].
destruct (Z.leb_spec 0 (snd b)) as [H0|H0]; [|discriminate].
destruct (Z.leb_spec thr' (snd b)) as [Hb|Hb]; [|discriminate].
destruct (Z.leb_spec thr (snd b)) as [_|Hlt]; [auto | lia].
Qed.

Lemma phonetic_hit_weaken thr thr' survey name h :
  thr <= thr' ->
  phonetic_hit ratio thr' survey name = Some h ->
  exists h', phonetic_hit ratio thr survey name = Some h'.
Proof.
intros Hle. unfold phonetic_hit. destruct (Str.truthy name); [|discriminate].
destruct (List.find _ (survey_names survey)) as [n|] eqn:E; [|discriminate].
intros _.
apply (find_weaken _
         (fun survey_name =>
            (3 <? Str.len (consonants name))
            && (3 <? Str.len (consonants survey_name))
            && (thr + 10 <=? ratio (consonants name) (consonants survey_name))))
  in E.
- destruct E as [y Hy]. rewrite Hy. simpl. eauto.
- intros a Ha. apply andb_prop in Ha. destruct Ha as [Ha Hthr]. rewrite Ha. simpl.
  apply Z.leb_le. apply Z.leb_le in Hthr. lia.
Qed.

Lemma email_hit_weaken thr thr' survey email h :
  thr <= thr' ->
  email_hit ratio thr' survey email = Some h ->
  exists h', email_hit ratio thr survey email = Some h'.
Proof.
intros Hle. unfold email_hit.
destruct (Str.truthy email && _); [|discriminate].
destruct (List.find _ (survey_emails survey)) as [se|] eqn:E; [|discriminate].
intros _.
apply (find_weaken _
         (fun survey_email =>
            Str.has_char "@"%char survey_email
            && (thr <=? ratio (username_of email) (username_of survey_email))))
  in E.
- destruct E as [y Hy]. rewrite Hy. apply List.find_some in Hy.
  destruct Hy as [Hin _].
  destruct (find_by_email_some survey y Hin) as [r ->]. simpl. eauto.
- intros a Ha. apply andb_prop in Ha. destruct Ha as [Ha Hthr]. rewrite Ha. simpl.
  apply Z.leb_le. apply Z.leb_le in Hthr. lia.
Qed.

(** With no empty survey name, a proposal is always adopted and
    written. *)
Lemma hit_decides type survey h :
  (forall s, In s survey -> Survey.name_clean s <> "") ->
  In (fst h) (survey_names survey) ->
  adopted (Some h) = Some h
  /\ exists st, tagged type survey h = Some (st, type, snd h).
Proof.
intros Hnames Hin. split.
- destruct h as [n c]. simpl in *. unfold survey_names in Hin.
  apply List.in_map_iff in Hin. destruct Hin as [s [<- Hs]].
  rewrite (truthy_nonempty _ (Hnames s Hs)). reflexivity.
- destruct (first_by_name_In survey (fst h) Hin) as (r & _ & _ & _ & Hst).
  unfold tagged. rewrite Hst. simpl. eauto.
Qed.

Lemma stage_two_decides thr survey name email :
  (forall s, In s survey -> Survey.name_clean s <> "") ->
  (exists h, partial_hit extract_score thr survey name = Some h)
  \/ (exists h, phonetic_hit ratio thr survey name = Some h)
  \/ (exists h, email_hit ratio thr survey email = Some h) ->
  exists x, stage_two extract_score ratio thr survey name email = Some x.
Proof.
intros Hnames Hhit. unfold stage_two.
destruct (partial_hit extract_score thr survey name) as [h1|] eqn:E1.
{ destruct (partial_hit_named extract_score thr survey name h1 E1) as [Hin _].
  destruct (hit_decides "Partial_Name" survey h1 Hnames Hin) as [-> [st ->]]. eauto. }
cbn [adopted].
destruct (phonetic_hit ratio thr survey name) as [h2|] eqn:E2.
{ destruct (phonetic_hit_named ratio thr survey name h2 E2) as [Hin _].
  destruct (hit_decides "Phonetic" survey h2 Hnames Hin) as [-> [st ->]]. eauto. }
cbn [adopted].
destruct (email_hit ratio thr survey email) as [h3|] eqn:E3.
{ destruct (email_hit_named ratio thr survey email h3 E3) as [Hin _].
  destruct (hit_decides "Email_Username" survey h3 Hnames Hin) as [-> [st ->]]. eauto. }
destruct Hhit as [[h H]|[[h H]|[h H]]]; discriminate.
Qed.

Lemma stage_two_weaken thr thr' survey name email x' :
  (forall s, In s survey -> Survey.name_clean s <> "") ->
  thr <= thr' ->
  stage_two extract_score ratio thr' survey name email = Some x' ->
  exists x, stage_two extract_score ratio thr survey name email = Some x.
Proof.
intros Hnames Hle H'. destruct x' as [[st ty] c].
destruct (stage_two_cases extract_score ratio thr' survey name email st ty c H')
  as (best & _ & _ & [(_ & _ & _ & Hhit) | [(_ & _ & Hhit) | (_ & _ & Hhit)]]);
  apply (stage_two_decides thr survey name email Hnames).
- left. exists (best, c). apply (partial_hit_weaken thr thr' _ _ _ Hle Hhit).
- right. left. apply (phonetic_hit_weaken thr thr' _ _ _ Hle Hhit).
- right. right. apply (email_hit_weaken thr thr' _ _ _ Hle Hhit).
Qed.

(** A row the second pass matches at a threshold is matched at every
    lower one. *)
Lemma improved_result_weaken thr thr' survey res :
  statuses_known survey ->
  (forall s, In s survey -> Survey.name_clean s <> "") ->
  thr <= thr' ->
  is_unknown (improved_result extract_score ratio thr' survey res) = false ->
  is_unknown (improved_result extract_score ratio thr survey res) = false.
Proof.
intros Hknown Hnames Hle. rewrite !improved_result_reading.
destruct (is_unknown res) eqn:Hu; [|rewrite Hu; auto].
destruct (stage_two extract_score ratio thr' survey _ _) as [x'|] eqn:E';
  [|simpl; rewrite Hu; discriminate].
intros _.
destruct (stage_two_weaken thr thr' survey _ _ x' Hnames Hle E') as [[[st ty] c] E].
rewrite E. simpl.
destruct (stage_two_cases extract_score ratio thr survey _ _ st ty c E)
  as (best & _ & Hst & _).
apply first_status_In in Hst. destruct Hst as (s & Hs & _ & <-).
unfold is_unknown. simpl. apply String.eqb_neq. apply Hknown, Hs.
Qed.

End ThresholdFacts.

(** X22.  Lowering the threshold of the second pass never loses a match,
    on a roster with distinct labels and a survey in which no status is
    [Unknown] and no normalized name is empty: a registration matched at a
    threshold is matched, possibly to another survey row, at every lower
    threshold, so the number of matches can only grow. *)
Theorem lower_threshold_keeps_matches
    (extract_score ratio : string -> string -> Z)
    (dp : DataProcessor) (year lower higher : Z) (regs : frame Reg.row) :
  NoDup (labels regs) ->
  registrations_of dp year = Returns regs ->
  statuses_known (retention_survey dp) ->
  (forall s, In s (retention_survey dp) -> Survey.name_clean s <> "") ->
  lower <= higher ->
  exists at_lower at_higher,
    improved_matching extract_score ratio dp year lower = Returns at_lower
    /\ improved_matching extract_score ratio dp year higher = Returns at_higher
    /\ (forall i idx row,
          List.nth_error at_higher i = Some (idx, row) ->
          Res.retention_status row <> "Unknown" ->
          exists row',
            List.nth_error at_lower i = Some (idx, row')
            /\ Res.retention_status row' <> "Unknown")
    /\ count_matched at_higher <= count_matched at_lower.
Proof.
intros Hnd Hregs Hknown Hnames Hle.
eexists. eexists.
split; [apply (improved_matching_reading extract_score ratio dp year lower regs
                 Hnd Hregs)|].
split; [apply (improved_matching_reading extract_score ratio dp year higher regs
                 Hnd Hregs)|].
set (survey := retention_survey dp) in *.
assert (Hrow : forall r,
  negb (is_unknown (improved_result extract_score ratio higher survey
                      (matched_row extract_score survey r))) = true ->
  negb (is_unknown (improved_result extract_score ratio lower survey
                      (matched_row extract_score survey r))) = true).
{ intros r H. apply negb_true_iff in H. apply negb_true_iff.
  apply (improved_result_weaken extract_score ratio lower higher survey _
           Hknown Hnames Hle H). }
split.
- intros i idx row Hi Hst.
  apply (nth_error_rows_inv
           (fun r => improved_result extract_score ratio higher survey
                       (matched_row extract_score survey r))) in Hi.
  destruct Hi as [r [Hi ->]].
  eexists. split.
  + apply (nth_error_rows
             (fun r => improved_result extract_score ratio lower survey
                         (matched_row extract_score survey r)) regs i idx r Hi).
  + assert (H := Hrow r). unfold is_unknown in H.
    destruct (String.eqb_spec
                (Res.retention_status
                   (improved_result extract_score ratio higher survey
                      (matched_row extract_score survey r))) "Unknown")
      as [Heq|_]; [contradiction|].
    specialize (H eq_refl). apply negb_true_iff, String.eqb_neq in H. exact H.
- unfold count_matched. apply inj_le.
  apply (count_rows_map_le
           (fun r => negb (is_unknown r)) (fun r => negb (is_unknown r))
           (fun r => improved_result extract_score ratio higher survey
                       (matched_row extract_score survey r))
           (fun r => improved_result extract_score ratio lower survey
                       (matched_row extract_score survey r))).
  intros ir _. apply Hrow.
Qed.

(** X22 on the sample roster, between the thresholds 75 and 90. *)
Lemma lower_threshold_keeps_matches_witness :
  exists at_lower at_higher,
    improved_matching sample_extract_score sample_ratio sample_processor 2024 75
    = Returns at_lower
    /\ improved_matching sample_extract_score sample_ratio sample_processor 2024 90
       = Returns at_higher
    /\ count_matched at_higher <= count_matched at_lower.
Proof.
assert (Hnd : NoDup (labels sample_roster)) by distinct_labels.
assert (Hknown : statuses_known (retention_survey sample_processor))
  by known_statuses.
assert (Hnames : forall s, In s (retention_survey sample_processor) ->
                   Survey.name_clean s <> "").
{ intros s Hs. vm_compute in Hs.
  repeat (destruct Hs as [<- | Hs]; [discriminate|]). contradiction. }
destruct (lower_threshold_keeps_matches sample_extract_score sample_ratio
            sample_processor 2024 75 90 sample_roster Hnd eq_refl Hknown Hnames)
  as (at_lower & at_higher & H1 & H2 & _ & Hcount); [lia|].
exists at_lower, at_higher. auto.
Defined.

(** ** The normalizer, up to case and padding *)

Lemma lower_truthy s : Str.truthy (Str.lower s) = Str.truthy s.
Proof. destruct s; reflexivity. Qed.

Lemma lower_lower s : Str.lower (Str.lower s) = Str.lower s.
Proof.
unfold Str.lower. rewrite StrFacts.chars_str.
rewrite (StrFacts.lower_l_fixed _ (StrFacts.lower_l_lowered _)). reflexivity.
Qed.

Lemma is_sep_lower c : Str.is_sep (Str.lower_char c) = Str.is_sep c.
Proof. by_cases c. Qed.

Lemma lower_no_sep l : no_sep l -> no_sep (Str.lower_l l).
Proof.
intros H. unfold Str.lower_l. apply List.Forall_map.
refine (List.Forall_impl _ _ H). intros c Hc. rewrite is_sep_lower. exact Hc.
Qed.

(** Both normalizers read their argument through [strip (lower _)]. *)
Lemma clean_names_reading name :
  clean_names name
  = Str.strip (Str.sub_special (Str.sub_titles (Str.collapse_ws
      (Str.strip (Str.lower name))))).
Proof.
unfold clean_names. destruct (Str.truthy name) eqn:E; [reflexivity|].
apply truthy_empty in E. subst name. reflexivity.
Qed.

Lemma clean_emails_reading email :
  clean_emails email
  = match List.find valid_email
            (List.map Str.strip (Str.re_split_seps (Str.strip (Str.lower email)))) with
    | Some e => e
    | None => Str.strip (Str.lower email)
    end.
Proof.
unfold clean_emails. destruct (Str.truthy email) eqn:E; [reflexivity|].
apply truthy_empty in E. subst email. reflexivity.
Qed.

Lemma write_result_columns u a b :
  result_columns a = result_columns b ->
  result_columns (write_result u a) = result_columns (write_result u b).
Proof. destruct u as [[[st ty] c]|]; [reflexivity | auto]. Qed.

(** X23.  The matcher reads the raw name and the raw email of a
    registration up to case and surrounding whitespace.  Two raw names, or
    two raw email fields, that are equal once lower-cased and trimmed have
    the same normalized form; so two registrations whose names and emails
    agree in that way leave both passes with the same status, method and
    confidence. *)
Theorem matching_ignores_case_and_padding
    (extract_score ratio : string -> string -> Z)
    (survey : list Survey.row) (confidence_threshold : Z) (a b : Reg.row) :
  Str.strip (Str.lower (Reg.Name a)) = Str.strip (Str.lower (Reg.Name b)) ->
  Str.strip (Str.lower (Reg.Email a)) = Str.strip (Str.lower (Reg.Email b)) ->
  clean_names (Reg.Name a) = clean_names (Reg.Name b)
  /\ clean_emails (Reg.Email a) = clean_emails (Reg.Email b)
  /\ result_columns (matched_row extract_score survey (reg_cleaned a))
     = result_columns (matched_row extract_score survey (reg_cleaned b))
  /\ result_columns
       (improved_result extract_score ratio confidence_threshold survey
          (matched_row extract_score survey (reg_cleaned a)))
     = result_columns
         (improved_result extract_score ratio confidence_threshold survey
            (matched_row extract_score survey (reg_cleaned b))).
Proof.
intros Hname Hemail.
assert (Hn : clean_names (Reg.Name a) = clean_names (Reg.Name b)).
{ rewrite !clean_names_reading, Hname. reflexivity. }
assert (He : clean_emails (Reg.Email a) = clean_emails (Reg.Email b)).
{ rewrite !clean_emails_reading, Hemail. reflexivity. }
split; [exact Hn|]. split; [exact He|].
assert (Hfirst : result_columns (matched_row extract_score survey (reg_cleaned a))
                 = result_columns (matched_row extract_score survey (reg_cleaned b))).
{ rewrite !matched_row_reading. cbn [reg_cleaned Reg.name_clean Reg.email_clean].
  rewrite Hn, He. apply write_result_columns. reflexivity. }
split; [exact Hfirst|].
rewrite !improved_result_reading.
assert (Hu : is_unknown (matched_row extract_score survey (reg_cleaned a))
             = is_unknown (matched_row extract_score survey (reg_cleaned b))).
{ unfold is_unknown. unfold result_columns in Hfirst.
  injection Hfirst as -> _ _. reflexivity. }
rewrite Hu.
destruct (is_unknown (matched_row extract_score survey (reg_cleaned b)));
  [|exact Hfirst].
assert (Hregs : forall r, Res.reg (matched_row extract_score survey r) = r).
{ intros r. rewrite matched_row_reading.
  destruct (stage_one extract_score survey _ _) as [[[st ty] c]|]; reflexivity. }
rewrite !Hregs. cbn [reg_cleaned Reg.name_clean Reg.email_clean].
rewrite Hn, He. apply write_result_columns, Hfirst.
Qed.

Lemma matching_ignores_case_and_padding_witness :
  clean_names "  ANN Lee" = clean_names "Ann Lee "
  /\ clean_emails "Ann@X.ca " = clean_emails "ann@x.CA"
  /\ result_columns
       (matched_row sample_extract_score sample_survey
          (reg_cleaned (reg_row "  ANN Lee" "Ann@X.ca ")))
     = result_columns
         (matched_row sample_extract_score sample_survey
            (reg_cleaned (reg_row "Ann Lee " "ann@x.CA")))
  /\ result_columns
       (improved_result sample_extract_score sample_ratio 75 sample_survey
          (matched_row sample_extract_score sample_survey
             (reg_cleaned (reg_row "  ANN Lee" "Ann@X.ca "))))
     = result_columns
         (improved_result sample_extract_score sample_ratio 75 sample_survey
            (matched_row sample_extract_score sample_survey
               (reg_cleaned (reg_row "Ann Lee " "ann@x.CA")))).
Proof.
apply (matching_ignores_case_and_padding sample_extract_score sample_ratio
         sample_survey 75 (reg_row "  ANN Lee" "Ann@X.ca ")
         (reg_row "Ann Lee " "ann@x.CA")).
- vm_compute. reflexivity.
- vm_compute. reflexivity.
Defined.

(** X24.  A field that holds a single address, with no comma, semicolon
    or whitespace, and whose lower-case form has an [@] and a dot after the
    last [@], is normalized to its lower-case form and nothing else. *)
Theorem clean_emails_plain_address (email : string) :
  no_sep (Str.chars email) ->
  valid_email (Str.lower email) = true ->
  clean_emails email = Str.lower email.
Proof.
intros Hsep Hvalid.
assert (Hsame : clean_emails email = clean_emails (Str.lower email)).
{ rewrite !clean_emails_reading, lower_lower. reflexivity. }
rewrite Hsame. unfold Str.lower in *.
apply NormalizerFacts.clean_emails_piece;
  [apply StrFacts.lower_l_lowered | apply lower_no_sep, Hsep | exact Hvalid].
Qed.

Lemma clean_emails_plain_address_witness :
  clean_emails "Ann.Lee@UPEI.ca" = Str.lower "Ann.Lee@UPEI.ca".
Proof.
apply (clean_emails_plain_address "Ann.Lee@UPEI.ca").
- repeat constructor.
- vm_compute. reflexivity.
Defined.

(** ** A threshold above every score *)

Section CeilingFacts.

Variable extract_score : string -> string -> Z.
Variable ratio : string -> string -> Z.

Lemma stage_two_above thr survey name email :
  (forall q c, extract_score q c <= 100) ->
  (forall x y, ratio x y <= 100) ->
  100 < thr ->
  stage_two extract_score ratio thr survey name email = None.
Proof.
intros Hscore Hratio Hthr.
assert (H1 : partial_hit extract_score thr survey name = None).
{ unfold partial_hit. destruct (Str.truthy name && _); [|reflexivity].
  destruct (best_candidate _ _ _) as [b|] eqn:E; [|reflexivity].
  apply best_candidate_In in E. destruct E as [_ E].
  specialize (Hscore (first_last (Str.split_ws name)) (fst b)).
  destruct (Z.leb_spec thr (snd b)) as [Hge|_]; [lia|].
  rewrite andb_false_r. reflexivity. }
assert (H2 : phonetic_hit ratio thr survey name = None).
{ unfold phonetic_hit. destruct (Str.truthy name); [|reflexivity].
  rewrite find_none_all; [reflexivity|]. intros n _.
  specialize (Hratio (consonants name) (consonants n)).
  destruct (Z.leb_spec (thr + 10) (ratio (consonants name) (consonants n)))
    as [Hge|_]; [lia|].
  apply andb_false_r. }
assert (H3 : email_hit ratio thr survey email = None).
{ unfold email_hit. destruct (Str.truthy email && _); [|reflexivity].
  rewrite find_none_all; [reflexivity|]. intros e _.
  specialize (Hratio (username_of email) (username_of e)).
  destruct (Z.leb_spec thr (ratio (username_of email) (username_of e)))
    as [Hge|_]; [lia|].
  apply andb_false_r. }
unfold stage_two. rewrite H1, H2, H3. reflexivity.
Qed.

End CeilingFacts.

(** X25.  With scores that never exceed 100, as those of the similarity
    package, a threshold above 100 turns the second pass off:
    [improved_matching] then returns, or raises, exactly what
    [match_members] does, whatever the labels of the roster. *)
Theorem threshold_above_scores
    (extract_score ratio : string -> string -> Z)
    (dp : DataProcessor) (year confidence_threshold : Z) :
  (forall q c, extract_score q c <= 100) ->
  (forall x y, ratio x y <= 100) ->
  100 < confidence_threshold ->
  improved_matching extract_score ratio dp year confidence_threshold
  = match_members extract_score dp year.
Proof.
intros Hscore Hratio Hthr. unfold improved_matching.
destruct (match_members extract_score dp year) as [first|e]; [|reflexivity].
rewrite bind_Returns.
rewrite (for_each_pure (fun acc _ => acc)).
- f_equal. induction (unmatched_of first) as [|x l IH]; [reflexivity | exact IH].
- intros acc ir _. rewrite improved_row_reading, bind_Returns.
  rewrite (stage_two_above extract_score ratio confidence_threshold _ _ _
             Hscore Hratio Hthr).
  reflexivity.
Qed.

(** X25 with the sample scorers capped at 100. *)
Lemma threshold_above_scores_witness :
  improved_matching
    (fun q c => Z.min 100 (sample_extract_score q c))
    (fun x y => Z.min 100 (sample_ratio x y)) sample_processor 2024 101
  = match_members (fun q c => Z.min 100 (sample_extract_score q c))
      sample_processor 2024.
Proof.
apply (threshold_above_scores
         (fun q c => Z.min 100 (sample_extract_score q c))
         (fun x y => Z.min 100 (sample_ratio x y)) sample_processor 2024 101).
- intros q c. apply Z.le_min_l.
- intros x y. apply Z.le_min_l.
- lia.
Defined.

(** ** An empty survey *)

Lemma stage_one_empty (extract_score : string -> string -> Z) name email :
  stage_one extract_score [] name email = None.
Proof.
unfold stage_one, last_status_by_email, last_status_by_name. simpl.
destruct (Str.truthy email), (Str.truthy name); reflexivity.
Qed.

(** X26.  Against an empty survey [match_members] matches nothing: for an
    accepted year it returns the roster with every registration at status
    [Unknown], method [None] and confidence 0, whatever the scorer and the
    labels. *)
Theorem empty_survey_matches_nothing
    (extract_score : string -> string -> Z)
    (dp : DataProcessor) (year : Z) (regs : frame Reg.row) :
  retention_survey dp = [] ->
  registrations_of dp year = Returns regs ->
  match_members extract_score dp year
  = Returns (List.map (fun ir => (fst ir, unmatched_result (snd ir))) regs).
Proof.
intros Hsurvey Hregs. unfold match_members. rewrite Hregs, bind_Returns.
rewrite (for_each_pure (fun acc _ => acc)).
- f_equal.
  induction (List.map (fun ir => (fst ir, unmatched_result (snd ir))) regs)
    as [|x l IH] at 1; [reflexivity | exact IH].
- intros acc ir _. rewrite match_row_reading, bind_Returns.
  rewrite Hsurvey, stage_one_empty. reflexivity.
Qed.

Lemma empty_survey_matches_nothing_witness :
  match_members sample_extract_score (processor [] sample_roster) 2024
  = Returns (List.map (fun ir => (fst ir, unmatched_result (snd ir))) sample_roster).
Proof.
exact (empty_survey_matches_nothing sample_extract_score
         (processor [] sample_roster) 2024 sample_roster eq_refl eq_refl).
Defined.

(** * Examples *)

Example clean_names_titles :
  clean_names "Dr. Robert  J. Smith " = "robert j smith".
Proof. vm_compute. reflexivity. Qed.

Example clean_emails_first_address :
  clean_emails " Bob@X.ca; other@y.org" = "bob@x.ca"
  /\ clean_emails "no address here" = "no address here".
Proof. vm_compute. auto. Qed.

Example name_variants_of_nickname :
  _generate_name_variants "bill j turner"
  = ["turner bill"; "bill turner"; "william j turner"].
Proof. vm_compute. reflexivity. Qed.

(** A middle initial: both exact lookups miss, the fuzzy stage adopts the
    survey row at score 92. *)
Example middle_initial_is_fuzzy_matched :
  triples
    (match_members sample_extract_score
       (processor [survey_row "robert smith" "rsmith@school.edu" "Still in PEI"]
          [(0, reg_row "Robert J. Smith" "r.smith@school.edu")])
       2024)
  = Returns [(0, ("Still in PEI", "Name_Fuzzy", 92))].
Proof. vm_compute. reflexivity. Qed.

(** The sample roster through both passes. *)
Example sample_first_pass :
  triples (match_members sample_extract_score sample_processor 2024)
  = Returns [(0, ("No longer in PEI", "Name_Exact", 100));
             (1, ("Still in PEI", "Name_Fuzzy", 93));
             (2, ("No longer in PEI", "Email", 100));
             (5, ("Unknown", "None", 0));
             (7, ("Unknown", "None", 0));
             (8, ("Unknown", "None", 0))].
Proof. vm_compute. reflexivity. Qed.

Example sample_second_pass :
  triples (improved_matching sample_extract_score sample_ratio sample_processor 2024 75)
  = Returns [(0, ("No longer in PEI", "Name_Exact", 100));
             (1, ("Still in PEI", "Name_Fuzzy", 93));
             (2, ("No longer in PEI", "Email", 100));
             (5, ("Still in PEI", "Partial_Name", 75));
             (7, ("Inconclusive", "Partial_Name", 76));
             (8, ("Unknown", "None", 0))].
Proof. vm_compute. reflexivity. Qed.

(** An empty roster makes the analyzer divide by zero; a domain that is no
    regular expression makes the search raise. *)
Example empty_roster_analysis :
  candidate_scores
    (analyze_unmatched_records sample_extract_score sample_ratio sample_re_compile
       {| data_processor := processor sample_survey []; unmatched_analysis := ∅ |}
       2024)
  = Raises ZeroDivisionError.
Proof. vm_compute. reflexivity. Qed.

Example refused_domain_analysis :
  candidate_scores
    (analyze_unmatched_records sample_extract_score sample_ratio sample_re_compile
       {| data_processor := processor sample_survey [(0, reg_row "Zed" "zed@(x")];
          unmatched_analysis := ∅ |}
       2024)
  = Raises ReError.
Proof. vm_compute. reflexivity. Qed.

(** The candidates of a nickname whose address is in the survey's domain. *)
Example candidates_in_one_domain :
  candidate_scores
    (analyze_unmatched_records sample_extract_score sample_ratio sample_re_compile
       {| data_processor := bob_email_processor; unmatched_analysis := ∅ |} 2024)
  = Returns [[("partial_name", 71); ("email_domain", 92); ("name_variant", 100)]].
Proof. vm_compute. reflexivity. Qed.

(** The derived columns only depend on the raw ones. *)
Example preprocess_data_again :
  preprocess_data sample_processor = sample_processor.
Proof. vm_compute. reflexivity. Qed.

(** The eligibility filter on the institution, and on a province column
    that overrides it. *)
Example eligibility_by_institution :
  labels
    (filter_pei_students None (Some Reg.Institution_of_Study)
       [(0, reg_row "Ann Lee" "");
        (1, {| Reg.Name := "Bo"; Reg.Email := "";
               Reg.Institution_of_Study := "Dalhousie";
               Reg.Program_of_Study := ""; Reg.Country_of_Origin := "";
               Reg.name_clean := "bo"; Reg.email_clean := "" |});
        (4, {| Reg.Name := "Cy"; Reg.Email := "";
               Reg.Institution_of_Study := " holland COLLEGE ";
               Reg.Program_of_Study := ""; Reg.Country_of_Origin := "";
               Reg.name_clean := "cy"; Reg.email_clean := "" |})])
  = [0; 4]
  /\ labels
       (filter_pei_students (Some (fun _ : Reg.row => "Ontario"))
          (Some Reg.Institution_of_Study) sample_roster)
     = [].
Proof. vm_compute. auto. Qed.

Example graduation_status_of_a_field :
  classify_graduation_status " Graduated " = "Graduate"
  /\ classify_graduation_status "CURRENT" = "Current Student"
  /\ classify_graduation_status "alumnus" = "Unknown"
  /\ classify_graduation_status "" = "Unknown".
Proof. vm_compute. auto. Qed.

Example search_name_of_a_title :
  _format_for_linkedin_search "Dr. John  O'Neil-Smith, PROF. x"
  = "John O Neil Smith X"
  /\ _format_for_linkedin_search "professor mr.x 3d" = "Professor X 3d".
Proof. vm_compute. auto. Qed.

(** The report on the sample roster: three of six matched, then five. *)
Example sample_report :
  match generate_matching_report sample_extract_score sample_ratio
          sample_re_compile sample_analyzer 2024 with
  | Returns sr =>
      Some (Report.match_rate (Report.original_stats (snd sr)),
            Report.match_rate (Report.improved_stats (snd sr)),
            Report.additional_matches (snd sr),
            _generate_recommendations (Report.unmatched_analysis (snd sr))
              (Report.additional_matches (snd sr)))
  | Raises _ => None
  end
  = Some ((300, 6), (500, 6), 2,
          ["✅ Improved matching found 2 additional matches";
           "Consider implementing the improved matching algorithm permanently";
           "🏫 UPEI has the most unmatched records - review their data quality"]).
Proof. vm_compute. reflexivity. Qed.

(** The rollups of the first pass on the sample roster. *)
Example sample_rollups :
  match match_members sample_extract_score sample_processor 2024 with
  | Returns matched_data =>
      Some (Quality.total_matches (_analyze_match_quality matched_data),
            Quality.high_confidence_matches (_analyze_match_quality matched_data),
            Quality.medium_confidence_matches (_analyze_match_quality matched_data),
            List.map (fun kv => (fst kv, Breakdown.retention_rate (snd kv)))
              (_analyze_by_institution matched_data),
            _analyze_by_country matched_data)
  | Raises _ => None
  end
  = Some (3%nat, 2%nat, 1%nat, [("UPEI", (100, 3))],
          [("Canada",
            {| Breakdown.total_members := 6;
               Breakdown.matched_members := 3;
               Breakdown.still_in_pei := 1;
               Breakdown.no_longer_in_pei := 2;
               Breakdown.inconclusive := 0;
               Breakdown.retention_rate := (100, 3) |})]).
Proof. vm_compute. reflexivity. Qed.

(** Two registrations under one label: the row of the second receives the
    result of the first, which it would not get on its own. *)
Example shared_label_cross_talk :
  triples
    (match_members sample_extract_score
       (processor sample_survey
          [(3, reg_row "Ann Lee" ""); (3, reg_row "Nobody" "")]) 2024)
  = Returns [(3, ("No longer in PEI", "Name_Exact", 100));
             (3, ("No longer in PEI", "Name_Exact", 100))]
  /\ triples
       (match_members sample_extract_score
          (processor sample_survey [(3, reg_row "Nobody" "")]) 2024)
     = Returns [(3, ("Unknown", "None", 0))].
Proof. vm_compute. auto. Qed.

(** A survey row without a name: at threshold 50 its address is the first
    to pass, its empty name is not adopted and the registration stays
    unmatched; at threshold 75 the next address is taken and matches. *)
Example lower_threshold_loses_a_match :
  triples
    (improved_matching sample_extract_score sample_ratio
       (processor
          [survey_row "" "bobxyz@x.ca" "Still in PEI";
           survey_row "Robert Lee" "boblee@x.ca" "No longer in PEI"]
          [(0, reg_row "" "boblee@y.org")]) 2024 75)
  = Returns [(0, ("No longer in PEI", "Email_Username", 100))]
  /\ triples
       (improved_matching sample_extract_score sample_ratio
          (processor
             [survey_row "" "bobxyz@x.ca" "Still in PEI";
              survey_row "Robert Lee" "boblee@x.ca" "No longer in PEI"]
             [(0, reg_row "" "boblee@y.org")]) 2024 50)
     = Returns [(0, ("Unknown", "None", 0))].
Proof. vm_compute. auto. Qed.
